(** * Blind auction card game: the bidding and resolution engine

    A shallow embedding of [card.py], [deck.py], [player.py], [auction.py]
    and [game.py].  Python objects are records, object mutation is explicit
    state passing, and a Python exception is a [Raise] in a small error
    monad.

    Identity of participants.  [Player] defines neither [__eq__] nor
    [__hash__], so the bid dictionary of an auction is keyed by object
    identity.  A participant is identified here by its position in
    [Game.players]; the list is taken to hold pairwise distinct objects, as
    every constructor of the list in the sources ([create_players]) does.

    Dictionaries.  Python dictionaries iterate in insertion order and
    [sorted] is stable, so the bid dictionary is an association list in
    insertion order. *)

From Stdlib Require Import String ZArith QArith Bool Arith Lia List Permutation Sorted.
Import ListNotations.

Local Open Scope Z_scope.

(** ** Exceptions *)

(** [NoneAsCard] is not a Python exception: it marks the point at which the
    code would store [None] in a list annotated [List[Card]], a state the
    model does not represent. *)
Inductive failure : Type :=
  | AttributeError
  | TypeError
  | ZeroDivisionError
  | NoneAsCard.

Inductive outcome (A : Type) : Type :=
  | Ok (a : A)
  | Raise (e : failure).

Arguments Ok {A} a.
Arguments Raise {A} e.

Definition bind {A B : Type} (m : outcome A) (k : A -> outcome B) : outcome B :=
  match m with
  | Ok a => k a
  | Raise e => Raise e
  end.

Notation "x <- m ;; k" := (bind m (fun x => k))
  (at level 61, m at next level, right associativity).

(** In-place mutation of the [i]-th object of a list of objects.  An index
    past the end names an object that is not part of the list; nothing in
    the list changes then. *)
Fixpoint modify {A : Type} (i : nat) (f : A -> A) (l : list A) : list A :=
  match l, i with
  | [], _ => []
  | x :: r, O => f x :: r
  | x :: r, S j => x :: modify j f r
  end.

(** ** card.py *)

Module Card.

Inductive Suit : Type := HEARTS | CLUBS | DIAMONDS | SPADES.

Inductive Rank : Type :=
  | TWO | THREE | FOUR | FIVE | SIX | SEVEN | EIGHT | NINE | TEN
  | JACK | QUEEN | KING | ACE.

(** [Rank.X.value] *)
Definition rank_value (r : Rank) : Z :=
  match r with
  | TWO => 2 | THREE => 3 | FOUR => 4 | FIVE => 5 | SIX => 6
  | SEVEN => 7 | EIGHT => 8 | NINE => 9 | TEN => 10
  | JACK => 11 | QUEEN => 12 | KING => 13 | ACE => 14
  end.

Record t : Type := make { suit : Suit; rank : Rank }.

(** [__post_init__]: [self.value = self.rank.value] *)
Definition value (c : t) : Z := rank_value (rank c).

Definition get_numeric_value (c : t) : Z := value c.

(** [__eq__]: equal rank, the suit is not looked at. *)
Definition eq (self other : t) : bool := value self =? value other.

Definition gt (self other : t) : bool := value other <? value self.

Definition lt (self other : t) : bool := value self <? value other.

Definition all_ranks : list Rank :=
  [TWO; THREE; FOUR; FIVE; SIX; SEVEN; EIGHT; NINE; TEN; JACK; QUEEN; KING; ACE].

End Card.

(** [list.remove(x)]: drops the first element [y] with [y == x]; the flag
    is [false] where Python raises [ValueError]. *)
Fixpoint list_remove (x : Card.t) (l : list Card.t) : bool * list Card.t :=
  match l with
  | [] => (false, [])
  | y :: r =>
      if Card.eq y x then (true, r)
      else let '(found, r') := list_remove x r in (found, y :: r')
  end.

(** ** deck.py *)

Module Deck.

Record t : Type := make { cards : list Card.t }.

Definition is_empty (d : t) : bool := (length (cards d) =? 0)%nat.

Definition size (d : t) : nat := length (cards d).

(** [draw_card]: [list.pop()] takes the last element of the list. *)
Definition draw_card (d : t) : option Card.t * t :=
  if is_empty d then (None, d)
  else match rev (cards d) with
       | [] => (None, d)
       | top :: below => (Some top, make (rev below))
       end.

Definition add_card (d : t) (c : Card.t) : t := make (cards d ++ [c]).

End Deck.

(** ** player.py *)

Module Player.

Record t : Type := make {
  name : string;
  suit : Card.Suit;
  hand : list Card.t;
  won_cards : list Card.t
}.

Definition add_card (c : Card.t) (p : t) : t :=
  make (name p) (suit p) (hand p ++ [c]) (won_cards p).

(** [remove_card]: [self.hand.remove(card)], [ValueError] caught. *)
Definition remove_card (c : Card.t) (p : t) : bool * t :=
  let '(found, h) := list_remove c (hand p) in
  (found, make (name p) (suit p) h (won_cards p)).

Definition add_won_card (c : Card.t) (p : t) : t :=
  make (name p) (suit p) (hand p) (won_cards p ++ [c]).

(** [get_score]: sum of the values of the won cards. *)
Definition get_score (p : t) : Z :=
  fold_right (fun c acc => Card.get_numeric_value c + acc) 0 (won_cards p).

Definition has_cards (p : t) : bool := (0 <? length (hand p))%nat.

End Player.

(** ** auction.py *)

(** The dictionary returned by [Auction.resolve_auction]. *)
Module Resolved.

Inductive AuctionResult : Type :=
  | WINNER_DETERMINED
  | TIE_SPLIT
  | TIE_CARRY_FORWARD.

(** ['result_type'] holds one of two strings or a member of the
    enumeration. *)
Inductive kind : Type :=
  | no_bids
  | insufficient_bids
  | of_enum (r : AuctionResult).

Record t : Type := make {
  diamond_card : option Card.t;
  bids : list (nat * Card.t);
  result_type : kind;
  winner : option nat;
  tied_players : option (list nat);
  diamond_awarded : bool;
  carry_forward : bool;
  split_values : list (nat * Q)
}.

Definition is_enum (k : kind) (r : AuctionResult) : bool :=
  match k, r with
  | of_enum WINNER_DETERMINED, WINNER_DETERMINED
  | of_enum TIE_SPLIT, TIE_SPLIT
  | of_enum TIE_CARRY_FORWARD, TIE_CARRY_FORWARD => true
  | _, _ => false
  end.

End Resolved.

Module Auction.

Import Resolved.

Record t : Type := make {
  current_diamond : option Card.t;
  bids : list (nat * Card.t);
  tie_handling_method : string;
  round_number : nat
}.

(** [__init__] *)
Definition init : t := make None [] "split" 0.

(** [player in self.bids] *)
Definition has_bid (player : nat) (b : list (nat * Card.t)) : bool :=
  existsb (fun pc => Nat.eqb (fst pc) player) b.

(** [self.bids[player]] *)
Fixpoint get_bid (player : nat) (b : list (nat * Card.t)) : option Card.t :=
  match b with
  | [] => None
  | (p, c) :: r => if Nat.eqb p player then Some c else get_bid player r
  end.

Definition start_auction (diamond_card : Card.t) (round_number : nat) (a : t) : t :=
  make (Some diamond_card) [] (tie_handling_method a) round_number.

Definition place_bid (player : nat) (card : Card.t) (a : t) : bool * t :=
  if has_bid player (bids a) then (false, a)
  else (true, make (current_diamond a) (bids a ++ [(player, card)])
                   (tie_handling_method a) (round_number a)).

Definition get_all_bids (a : t) : list (nat * Card.t) := bids a.

Definition clear_bids (a : t) : t :=
  make (current_diamond a) [] (tie_handling_method a) (round_number a).

(** One step of a stable sort by decreasing value: [x] stood before every
    element of [l] in the dictionary, so it goes in front of the first
    element whose value is not larger. *)
Fixpoint insert_bid (x : nat * Card.t) (l : list (nat * Card.t)) : list (nat * Card.t) :=
  match l with
  | [] => [x]
  | y :: r =>
      if Card.get_numeric_value (snd x) <? Card.get_numeric_value (snd y)
      then y :: insert_bid x r
      else x :: y :: r
  end.

(** [sorted(self.bids.items(), key=lambda x: x[1].get_numeric_value(),
    reverse=True)]: the stable sort, entries of equal value keep their
    dictionary order. *)
Fixpoint sorted_bids_of (b : list (nat * Card.t)) : list (nat * Card.t) :=
  match b with
  | [] => []
  | x :: r => insert_bid x (sorted_bids_of r)
  end.

Definition determine_winner (a : t)
  : AuctionResult * option nat * option (list nat) :=
  if (length (bids a) <? 2)%nat then (WINNER_DETERMINED, None, None)
  else
    let sorted_bids := sorted_bids_of (bids a) in
    match sorted_bids with
    | [] => (WINNER_DETERMINED, None, None) (* no such case: two bids or more *)
    | first :: _ =>
        let highest_value := Card.get_numeric_value (snd first) in
        let tied_players :=
          map fst (filter (fun pc => Card.get_numeric_value (snd pc) =? highest_value)
                          sorted_bids) in
        if (1 <? length tied_players)%nat then
          if String.eqb (tie_handling_method a) "split"
          then (TIE_SPLIT, None, Some tied_players)
          else (TIE_CARRY_FORWARD, None, Some tied_players)
        else (WINNER_DETERMINED, Some (fst first), Some [fst first])
    end.

(** [value / len(tied_players)]: Python's true division; the quotient is
    kept as an exact rational. *)
Definition split_value_of (d : Card.t) (n : nat) : Q :=
  Qmake (Card.get_numeric_value d) (Pos.of_nat n).

Definition resolve_auction (a : t) : outcome Resolved.t :=
  match bids a with
  | [] =>
      Ok (Resolved.make (current_diamond a) (bids a) no_bids None (Some [])
                        false false [])
  | _ :: _ =>
      let '(auction_result, winner, tied_players) := determine_winner a in
      match auction_result with
      | WINNER_DETERMINED =>
          match winner with
          | Some _ =>
              Ok (Resolved.make (current_diamond a) (bids a)
                    (of_enum auction_result) winner tied_players true false [])
          | None =>
              Ok (Resolved.make (current_diamond a) (bids a)
                    insufficient_bids winner tied_players false false [])
          end
      | TIE_SPLIT =>
          match current_diamond a with
          | None => Raise AttributeError
          | Some d =>
              match tied_players with
              | None => Raise TypeError
              | Some tied =>
                  if (length tied =? 0)%nat then Raise ZeroDivisionError
                  else
                    let split_value := split_value_of d (length tied) in
                    Ok (Resolved.make (current_diamond a) (bids a)
                          (of_enum auction_result) winner tied_players true false
                          (map (fun player => (player, split_value)) tied))
              end
          end
      | TIE_CARRY_FORWARD =>
          Ok (Resolved.make (current_diamond a) (bids a)
                (of_enum auction_result) winner tied_players false true [])
      end
  end.

Definition set_tie_handling (method : string) (a : t) : option t :=
  if String.eqb method "split" || String.eqb method "carry_forward"
  then Some (make (current_diamond a) (bids a) method (round_number a))
  else None.

End Auction.

(** The dictionary returned by [Game.play_round] for a round that was
    played (the other one holds the key ['error'] only). *)
Module Round.

Record t : Type := make {
  round_number : nat;
  diamond_card : option Card.t;
  bids : list (nat * Card.t);
  result : option Resolved.t;
  winner : option nat;
  carry_forward : bool;
  game_over : bool
}.

End Round.

(** ** game.py *)

Module Game.

Import Resolved.

Record t : Type := make {
  players : list Player.t;
  auction_suits : list Card.Suit;
  deck : Deck.t;
  auction : Auction.t;
  round_number : nat;
  max_rounds : nat;
  game_over : bool;
  carry_forward_diamonds : list Card.t;
  tie_handling : string;
  game_history : list Round.t
}.

(** What [play_round] returns. *)
Inductive played : Type :=
  | error (msg : string)
  | round (r : Round.t).

(** The [game_state] dictionary handed to [Player.make_bid]. *)
Record bid_state : Type := make_bid_state {
  bs_round : nat;
  bs_players : list Player.t;
  bs_game_history : list Round.t
}.

(** [__init__], for a list of players and the auction suits. *)
Definition init (ps : list Player.t) (suits : list Card.Suit) : t :=
  make ps suits (Deck.make []) Auction.init 0 13 false [] "split" [].

Definition with_players (ps : list Player.t) (g : t) : t :=
  make ps (auction_suits g) (deck g) (auction g) (round_number g) (max_rounds g)
       (game_over g) (carry_forward_diamonds g) (tie_handling g) (game_history g).

Definition with_deck (d : Deck.t) (g : t) : t :=
  make (players g) (auction_suits g) d (auction g) (round_number g) (max_rounds g)
       (game_over g) (carry_forward_diamonds g) (tie_handling g) (game_history g).

Definition with_auction (a : Auction.t) (g : t) : t :=
  make (players g) (auction_suits g) (deck g) a (round_number g) (max_rounds g)
       (game_over g) (carry_forward_diamonds g) (tie_handling g) (game_history g).

Definition with_round_number (n : nat) (g : t) : t :=
  make (players g) (auction_suits g) (deck g) (auction g) n (max_rounds g)
       (game_over g) (carry_forward_diamonds g) (tie_handling g) (game_history g).

Definition with_game_over (b : bool) (g : t) : t :=
  make (players g) (auction_suits g) (deck g) (auction g) (round_number g) (max_rounds g)
       b (carry_forward_diamonds g) (tie_handling g) (game_history g).

Definition with_carry_forward_diamonds (q : list Card.t) (g : t) : t :=
  make (players g) (auction_suits g) (deck g) (auction g) (round_number g) (max_rounds g)
       (game_over g) q (tie_handling g) (game_history g).

Definition with_game_history (h : list Round.t) (g : t) : t :=
  make (players g) (auction_suits g) (deck g) (auction g) (round_number g) (max_rounds g)
       (game_over g) (carry_forward_diamonds g) (tie_handling g) h.

(** [_get_auction_card]: [pop(0)] on the carry-forward list when it is not
    empty, else [Deck.draw_card]. *)
Definition get_auction_card (g : t) : option Card.t * t :=
  match carry_forward_diamonds g with
  | c :: rest => (Some c, with_carry_forward_diamonds rest g)
  | [] =>
      let '(c, d) := Deck.draw_card (deck g) in
      (c, with_deck d g)
  end.

(** [_should_end_game] *)
Definition should_end_game (g : t) : bool :=
  forallb (fun player => negb (Player.has_cards player)) (players g).

(** A [None] where a card is stored into a list of cards. *)
Definition the_card (c : option Card.t) : outcome Card.t :=
  match c with
  | Some d => Ok d
  | None => Raise NoneAsCard
  end.

(** The loop of the [TIE_SPLIT] branch of [_process_auction_results]: the
    points of an entry are not read. *)
Fixpoint award_split (diamond_card : option Card.t) (split : list (nat * Q))
    (ps : list Player.t) : outcome (list Player.t) :=
  match split with
  | [] => Ok ps
  | (player, _) :: rest =>
      d <- the_card diamond_card ;;
      award_split diamond_card rest (modify player (Player.add_won_card d) ps)
  end.

(** [_process_auction_results] *)
Definition process_auction_results (auction_result : Resolved.t)
    (ps : list Player.t) : outcome (list Player.t) :=
  if is_enum (result_type auction_result) WINNER_DETERMINED then
    match winner auction_result with
    | None => Raise AttributeError
    | Some w =>
        d <- the_card (diamond_card auction_result) ;;
        Ok (modify w (Player.add_won_card d) ps)
    end
  else if is_enum (result_type auction_result) TIE_SPLIT then
    award_split (diamond_card auction_result) (split_values auction_result) ps
  else Ok ps.

(** [_remove_bid_cards] *)
Fixpoint remove_bid_cards (bids : list (nat * Card.t)) (ps : list Player.t)
    : list Player.t :=
  match bids with
  | [] => ps
  | (player, card) :: rest =>
      remove_bid_cards rest (modify player (fun p => snd (Player.remove_card card p)) ps)
  end.

Section Strategies.

(** [player.make_bid(auction_card, game_state)] for the participant at
    a position: the strategy of a computer player, the console answer
    of a human player. *)
Variable make_bid : nat -> Player.t -> option Card.t -> bid_state -> option Card.t.

(** The loop of [_collect_bids], from position [i] of [self.players]
    on; [st] is the dictionary built for every call of [make_bid]. *)
Fixpoint collect_bids_from (i : nat) (todo : list Player.t) (st : bid_state)
    (a : Auction.t) : Auction.t :=
  match todo with
  | [] => a
  | player :: rest =>
      if negb (Player.has_cards player) then collect_bids_from (S i) rest st a
      else
        match make_bid i player (Auction.current_diamond a) st with
        | Some bid =>
            collect_bids_from (S i) rest st (snd (Auction.place_bid i bid a))
        | None => collect_bids_from (S i) rest st a
        end
  end.

(** [_collect_bids] *)
Definition collect_bids (g : t) : t :=
  with_auction
    (collect_bids_from 0 (players g)
       (make_bid_state (round_number g) (players g) (game_history g))
       (auction g))
    g.

(** [play_round] *)
Definition play_round (g : t) : outcome (played * t) :=
  if game_over g then Ok (error "Game is already over", g)
  else
    let g := with_round_number (S (round_number g)) g in
    let n := round_number g in
    if should_end_game g then
      Ok (round (Round.make n None [] None None false true), with_game_over true g)
    else
      let '(auction_card, g) := get_auction_card g in
      match auction_card with
      | None =>
          Ok (round (Round.make n None [] None None false true),
              with_game_over true g)
      | Some auction_card =>
          let g := with_auction
                     (Auction.start_auction auction_card (round_number g) (auction g)) g in
          let g := collect_bids g in
          let round_bids := Auction.get_all_bids (auction g) in
          auction_result <- Auction.resolve_auction (auction g) ;;
          ps <- process_auction_results auction_result (players g) ;;
          let g := with_players ps g in
          result_and_game <-
            match winner auction_result with
            | Some w =>
                Ok (Round.make n (Some auction_card) round_bids (Some auction_result)
                      (Some w) false false, g)
            | None =>
                if carry_forward auction_result then
                  d <- the_card (diamond_card auction_result) ;;
                  Ok (Round.make n (Some auction_card) round_bids (Some auction_result)
                        None true false,
                      with_carry_forward_diamonds (carry_forward_diamonds g ++ [d]) g)
                else
                  Ok (Round.make n (Some auction_card) round_bids (Some auction_result)
                        None false false, g)
            end ;;
          let '(round_result, g) := result_and_game in
          let g := with_players (remove_bid_cards (bids auction_result) (players g)) g in
          let g := with_auction (Auction.clear_bids (auction g)) g in
          let g := with_game_history (game_history g ++ [round_result]) g in
          Ok (round round_result, g)
      end.

End Strategies.

(** [get_game_scores], by position instead of by name. *)
Definition get_game_scores (g : t) : list Z := map Player.get_score (players g).

End Game.

(** ** Where the cards are *)

Module Ledger.

Definition in_hands (g : Game.t) : list Card.t :=
  concat (map Player.hand (Game.players g)).

Definition in_won (g : Game.t) : list Card.t :=
  concat (map Player.won_cards (Game.players g)).

(** The auction pile and the carry-forward queue. *)
Definition in_supply (g : Game.t) : list Card.t :=
  Deck.cards (Game.deck g) ++ Game.carry_forward_diamonds g.

Definition all_cards (g : Game.t) : list Card.t :=
  in_hands g ++ in_supply g ++ in_won g.

(** The entries the loop of [_collect_bids] adds, in order: one for every
    participant from position [i] on who holds a card and whose
    [make_bid] answers with a card. *)
Fixpoint answers_from
    (make_bid : nat -> Player.t -> option Card.t -> Game.bid_state -> option Card.t)
    (i : nat) (todo : list Player.t) (d : option Card.t) (st : Game.bid_state)
    : list (nat * Card.t) :=
  match todo with
  | [] => []
  | player :: rest =>
      (if Player.has_cards player then
         match make_bid i player d st with
         | Some bid => [(i, bid)]
         | None => []
         end
       else []) ++ answers_from make_bid (S i) rest d st
  end.

(** [n] calls of [_get_auction_card] in a row. *)
Fixpoint take_auction_cards (n : nat) (g : Game.t) : list (option Card.t) * Game.t :=
  match n with
  | O => ([], g)
  | S k =>
      let '(c, g1) := Game.get_auction_card g in
      let '(cs, g2) := take_auction_cards k g1 in
      (c :: cs, g2)
  end.

End Ledger.

(** ** Sample games *)

Module Sample.

Definition suit_cards (s : Card.Suit) : list Card.t :=
  map (Card.make s) Card.all_ranks.

Definition dealt (name : string) (s : Card.Suit) : Player.t :=
  Player.make name s (suit_cards s) [].

(** A state [setup_game] leaves for two players, hearts and clubs, with
    the thirteen diamonds as auction pile, the ace on top. *)
Definition opening (method : string) : Game.t :=
  Game.make [dealt "Human 1" Card.HEARTS; dealt "Human 2" Card.CLUBS]
    [Card.DIAMONDS] (Deck.make (suit_cards Card.DIAMONDS))
    (Auction.make None [] method 0) 0 13 false [] method [].

(** Human players at the console: the participant at position [i] types
    the rank name [answers i] and gets the first card of that rank in the
    hand, or types PASS. *)
Definition typed (answers : nat -> option Card.Rank)
    : nat -> Player.t -> option Card.t -> Game.bid_state -> option Card.t :=
  fun i p _ _ =>
    match answers i with
    | None => None
    | Some r =>
        find (fun c => Card.rank_value (Card.rank c) =? Card.rank_value r)
             (Player.hand p)
    end.

Definition ace_against_two (i : nat) : option Card.Rank :=
  match i with
  | O => Some Card.ACE
  | _ => Some Card.TWO
  end.

Definition both_kings (i : nat) : option Card.Rank := Some Card.KING.

(** A strategy that breaks its contract: the first participant answers
    with the king of spades, a card of no hand; the others type TWO. *)
Definition off_hand
    : nat -> Player.t -> option Card.t -> Game.bid_state -> option Card.t :=
  fun i p d st =>
    match i with
    | O => Some (Card.make Card.SPADES Card.KING)
    | _ => typed (fun _ => Some Card.TWO) i p d st
    end.

(** A late state: one participant is out of cards. *)
Definition late : Game.t :=
  Game.make
    [Player.make "Human 1" Card.HEARTS [] [Card.make Card.DIAMONDS Card.TEN];
     Player.make "Human 2" Card.CLUBS [Card.make Card.CLUBS Card.FIVE] []]
    [Card.DIAMONDS] (Deck.make [Card.make Card.DIAMONDS Card.SIX])
    (Auction.make (Some (Card.make Card.DIAMONDS Card.TEN)) [] "split" 12)
    12 13 false [Card.make Card.DIAMONDS Card.NINE] "split" [].

End Sample.


(** ** deck.py, the other operations *)

Module DeckOps.

(** The members of [Suit], in the order of the class body. *)
Definition all_suits : list Card.Suit :=
  [Card.HEARTS; Card.CLUBS; Card.DIAMONDS; Card.SPADES].

(** [==] on members of [Suit]. *)
Definition suit_eqb (a b : Card.Suit) : bool :=
  match a, b with
  | Card.HEARTS, Card.HEARTS | Card.CLUBS, Card.CLUBS
  | Card.DIAMONDS, Card.DIAMONDS | Card.SPADES, Card.SPADES => true
  | _, _ => false
  end.

(** [==] on members of [Rank]. *)
Definition rank_eqb (a b : Card.Rank) : bool :=
  Card.rank_value a =? Card.rank_value b.

(** [create_standard_deck]: [[Card(suit, rank) for suit in Suit for rank in Rank]] *)
Definition create_standard_deck : Deck.t :=
  Deck.make (flat_map (fun s => map (Card.make s) Card.all_ranks) all_suits).

(** [filter_by_suits] *)
Definition filter_by_suits (suits : list Card.Suit) (d : Deck.t) : Deck.t :=
  Deck.make (filter (fun card => existsb (suit_eqb (Card.suit card)) suits) (Deck.cards d)).

(** [get_cards_by_suit] *)
Definition get_cards_by_suit (s : Card.Suit) (d : Deck.t) : list Card.t :=
  filter (fun card => suit_eqb (Card.suit card) s) (Deck.cards d).

(** [remove_card]: [self.cards.remove(card)], [ValueError] caught. *)
Definition remove_card (card : Card.t) (d : Deck.t) : bool * Deck.t :=
  let '(found, l) := list_remove card (Deck.cards d) in
  (found, Deck.make l).

(** The loop of [draw_cards], [n] turns left. *)
Fixpoint draw_cards_loop (n : nat) (d : Deck.t) (drawn : list (option Card.t))
    : list (option Card.t) * Deck.t :=
  match n with
  | O => (drawn, d)
  | S k =>
      let '(c, d') := Deck.draw_card d in
      draw_cards_loop k d' (drawn ++ [c])
  end.

(** [draw_cards]: [range(min(count, len(self.cards)))] is empty for a
    negative [count]. *)
Definition draw_cards (count : Z) (d : Deck.t) : list (option Card.t) * Deck.t :=
  draw_cards_loop (Z.to_nat (Z.min count (Z.of_nat (length (Deck.cards d))))) d [].

(** [add_cards] *)
Definition add_cards (cs : list Card.t) (d : Deck.t) : Deck.t :=
  Deck.make (Deck.cards d ++ cs).

(** [contains_card]: same suit and same rank. *)
Definition contains_card (card : Card.t) (d : Deck.t) : bool :=
  existsb (fun c => suit_eqb (Card.suit c) (Card.suit card)
                    && rank_eqb (Card.rank c) (Card.rank card))
          (Deck.cards d).

(** [counts[card.suit] += 1] on the dictionary of [get_suit_counts]. *)
Fixpoint bump (s : Card.Suit) (counts : list (Card.Suit * nat)) : list (Card.Suit * nat) :=
  match counts with
  | [] => []
  | (s', n) :: r => if suit_eqb s' s then (s', S n) :: r else (s', n) :: bump s r
  end.

(** [get_suit_counts] *)
Definition get_suit_counts (d : Deck.t) : list (Card.Suit * nat) :=
  fold_left (fun counts card => bump (Card.suit card) counts) (Deck.cards d)
            (map (fun s => (s, O)) all_suits).

(** One step of the stable sort by [__lt__]: [x] stood before every card
    of [l], so it passes the cards that are lower and no other. *)
Fixpoint insert_card (x : Card.t) (l : list Card.t) : list Card.t :=
  match l with
  | [] => [x]
  | y :: r => if Card.lt y x then y :: insert_card x r else x :: y :: r
  end.

(** [sorted(cards)] and [list.sort()] on cards: the stable sort by
    [__lt__]. *)
Fixpoint sorted (l : list Card.t) : list Card.t :=
  match l with
  | [] => []
  | x :: r => insert_card x (sorted r)
  end.

(** [sort] *)
Definition sort (d : Deck.t) : Deck.t := Deck.make (sorted (Deck.cards d)).

(** [clear] *)
Definition clear (d : Deck.t) : Deck.t := Deck.make [].

(** [copy] *)
Definition copy (d : Deck.t) : Deck.t := Deck.make (Deck.cards d).

End DeckOps.

(** ** player.py, the other operations *)

Module PlayerOps.

(** [can_bid]: [card in self.hand], with the [==] of cards. *)
Definition can_bid (card : Card.t) (p : Player.t) : bool :=
  existsb (fun c => Card.eq c card) (Player.hand p).

(** [get_available_bids] *)
Definition get_available_bids (p : Player.t) : list Card.t := Player.hand p.

(** [reset] *)
Definition reset (p : Player.t) : Player.t :=
  Player.make (Player.name p) (Player.suit p) [] [].

End PlayerOps.

(** [ComputerPlayer]: the strategies.  The player record holds the common
    fields of [Player]; the strategy name is an argument. *)
Module ComputerPlayer.

(** What the calls below can raise. *)
Inductive raised : Type :=
  | ValueError
  | IndexError
  | ZeroDivisionError.

(** The loop of [max(cards)]: an item takes the place of the best one when
    it is [>] than it. *)
Fixpoint max_from (best : Card.t) (l : list Card.t) : Card.t :=
  match l with
  | [] => best
  | x :: r => max_from (if Card.gt x best then x else best) r
  end.

(** [max(cards)] *)
Definition max_card (l : list Card.t) : raised + Card.t :=
  match l with
  | [] => inl ValueError
  | x :: r => inr (max_from x r)
  end.

(** The loop of [min(cards)]: an item takes the place of the best one when
    it is [<] than it. *)
Fixpoint min_from (best : Card.t) (l : list Card.t) : Card.t :=
  match l with
  | [] => best
  | x :: r => min_from (if Card.lt x best then x else best) r
  end.

(** [min(cards)] *)
Definition min_card (l : list Card.t) : raised + Card.t :=
  match l with
  | [] => inl ValueError
  | x :: r => inr (min_from x r)
  end.

(** [seq[i]] *)
Definition item (l : list Card.t) (i : nat) : raised + Card.t :=
  match nth_error l i with
  | Some c => inr c
  | None => inl IndexError
  end.

Section Chance.

(** [random]: the index drawn for a sequence of a given length. *)
Variable randbelow : nat -> nat.

(** The value of [auction_value > sum(hand_values) / len(hand_values)],
    a comparison with a float quotient, for a hand that is not empty. *)
Variable above_average : Z -> list Z -> bool.

(** [random.choice(seq)] *)
Definition choice (l : list Card.t) : raised + Card.t :=
  match l with
  | [] => inl IndexError
  | _ :: _ => item l (randbelow (length l))
  end.

(** [_random_bid] *)
Definition random_bid (self : Player.t) (auction_card : Card.t) (st : Game.bid_state)
    : raised + Card.t :=
  choice (Player.hand self).

(** [_smart_bid] *)
Definition smart_bid (self : Player.t) (auction_card : Card.t) (st : Game.bid_state)
    : raised + Card.t :=
  let auction_value := Card.get_numeric_value auction_card in
  if 11 <=? auction_value then max_card (Player.hand self)
  else if 7 <=? auction_value then
    let sorted_hand := DeckOps.sorted (Player.hand self) in
    item sorted_hand (length sorted_hand / 2)
  else min_card (Player.hand self).

(** [_conservative_bid] *)
Definition conservative_bid (self : Player.t) (auction_card : Card.t)
    (st : Game.bid_state) : raised + Card.t :=
  min_card (Player.hand self).

(** [_aggressive_bid] *)
Definition aggressive_bid (self : Player.t) (auction_card : Card.t)
    (st : Game.bid_state) : raised + Card.t :=
  max_card (Player.hand self).

(** [_balanced_bid] *)
Definition balanced_bid (self : Player.t) (auction_card : Card.t) (st : Game.bid_state)
    : raised + Card.t :=
  let auction_value := Card.get_numeric_value auction_card in
  let hand_values := map Card.get_numeric_value (Player.hand self) in
  match hand_values with
  | [] => inl ZeroDivisionError
  | _ :: _ =>
      if above_average auction_value hand_values
      then max_card (Player.hand self)
      else min_card (Player.hand self)
  end.

(** [self.strategies.get(self.strategy, self._random_bid)] *)
Definition strategy_func (strategy : string)
    : Player.t -> Card.t -> Game.bid_state -> raised + Card.t :=
  if String.eqb strategy "random" then random_bid
  else if String.eqb strategy "smart" then smart_bid
  else if String.eqb strategy "conservative" then conservative_bid
  else if String.eqb strategy "aggressive" then aggressive_bid
  else if String.eqb strategy "balanced" then balanced_bid
  else random_bid.

(** [make_bid] *)
Definition make_bid (strategy : string) (self : Player.t) (auction_card : Card.t)
    (st : Game.bid_state) : raised + option Card.t :=
  match Player.hand self with
  | [] => inr None
  | _ :: _ =>
      match strategy_func strategy self auction_card st with
      | inl e => inl e
      | inr c => inr (Some c)
      end
  end.

End Chance.

End ComputerPlayer.

(** ** auction.py, the queries *)

Module AuctionOps.

(** [is_auction_complete] *)
Definition is_auction_complete (expected_players : Z) (a : Auction.t) : bool :=
  Z.of_nat (length (Auction.bids a)) =? expected_players.

(** [get_bid_value] *)
Definition get_bid_value (player : nat) (a : Auction.t) : option Z :=
  if Auction.has_bid player (Auction.bids a)
  then option_map Card.get_numeric_value (Auction.get_bid player (Auction.bids a))
  else None.

(** The loop of [max(items, key=value)]: an entry takes the place of the
    best one when its value is larger. *)
Fixpoint highest_from (best : nat * Card.t) (l : list (nat * Card.t)) : nat * Card.t :=
  match l with
  | [] => best
  | x :: r =>
      highest_from
        (if Card.get_numeric_value (snd best) <? Card.get_numeric_value (snd x)
         then x else best) r
  end.

(** [get_highest_bid] *)
Definition get_highest_bid (a : Auction.t) : option (nat * Card.t) :=
  match Auction.bids a with
  | [] => None
  | x :: r => Some (highest_from x r)
  end.

(** The loop of [min(items, key=value)]. *)
Fixpoint lowest_from (best : nat * Card.t) (l : list (nat * Card.t)) : nat * Card.t :=
  match l with
  | [] => best
  | x :: r =>
      lowest_from
        (if Card.get_numeric_value (snd x) <? Card.get_numeric_value (snd best)
         then x else best) r
  end.

(** [get_lowest_bid] *)
Definition get_lowest_bid (a : Auction.t) : option (nat * Card.t) :=
  match Auction.bids a with
  | [] => None
  | x :: r => Some (lowest_from x r)
  end.

End AuctionOps.

(** ** game.py, set-up, scores and the full game *)

Module GameFlow.

(** What the functions below can raise, besides what [play_round] can. *)
Inductive exn : Type :=
  | ValueError
  | Inner (e : failure).

(** How a call ends; [Running] is a loop that has not ended when the fuel
    is used up. *)
Inductive ended (A : Type) : Type :=
  | Returned (a : A)
  | Raised (e : exn)
  | Running.

Arguments Returned {A} a.
Arguments Raised {A} e.
Arguments Running {A}.

(** [scores[key] = value] on a dictionary in insertion order. *)
Fixpoint dict_set (key : string) (value : Z) (scores : list (string * Z))
    : list (string * Z) :=
  match scores with
  | [] => [(key, value)]
  | (k, v) :: r =>
      if String.eqb k key then (k, value) :: r else (k, v) :: dict_set key value r
  end.

(** [get_game_scores]: the dictionary from player name to score. *)
Definition get_game_scores (g : Game.t) : list (string * Z) :=
  fold_left (fun scores player =>
               dict_set (Player.name player) (Player.get_score player) scores)
            (Game.players g) [].

(** [max(scores.values())] *)
Definition max_score (values : list Z) : option Z :=
  match values with
  | [] => None
  | v :: r => Some (fold_left Z.max r v)
  end.

(** [[player for player in self.players if player.get_score() == max_score]],
    as positions. *)
Definition winners (g : Game.t) (m : Z) : list nat :=
  map fst (filter (fun ip => Player.get_score (snd ip) =? m)
                  (combine (seq 0 (length (Game.players g))) (Game.players g))).

(** [get_winner] *)
Definition get_winner (g : Game.t) : exn + option nat :=
  if negb (Game.game_over g) then inr None
  else
    match max_score (map snd (get_game_scores g)) with
    | None => inl ValueError
    | Some m =>
        match winners g m with
        | [w] => inr (Some w)
        | _ => inr None
        end
    end.

(** [is_draw] *)
Definition is_draw (g : Game.t) : exn + bool :=
  if negb (Game.game_over g) then inr false
  else
    match max_score (map snd (get_game_scores g)) with
    | None => inl ValueError
    | Some m => inr (1 <? length (winners g m))%nat
    end.

(** The body of the loop of [_deal_cards_to_players] for one player. *)
Definition deal_to (player : Player.t) (d : Deck.t) : Player.t * Deck.t :=
  let player_cards := DeckOps.get_cards_by_suit (Player.suit player) d in
  (fold_left (fun p card => Player.add_card card p) player_cards player,
   fold_left (fun deck card => snd (DeckOps.remove_card card deck)) player_cards d).

(** [_deal_cards_to_players] *)
Fixpoint deal_cards_to_players (ps : list Player.t) (d : Deck.t)
    : list Player.t * Deck.t :=
  match ps with
  | [] => ([], d)
  | player :: rest =>
      let '(player', d') := deal_to player d in
      let '(rest', d'') := deal_cards_to_players rest d' in
      (player' :: rest', d'')
  end.

Section Shuffled.

(** [random.shuffle]: the order the [n]-th shuffle of a set-up leaves. *)
Variable shuffle : nat -> list Card.t -> list Card.t.

(** [_setup_auction_deck] *)
Definition setup_auction_deck (suits : list Card.Suit) (d : Deck.t) : Deck.t :=
  Deck.make (shuffle 1 (Deck.cards (DeckOps.filter_by_suits suits d))).

(** [setup_game]; [ValueError] comes from [set_tie_handling]. *)
Definition setup_game (g : Game.t) : ended Game.t :=
  let d := Deck.make (shuffle 0 (Deck.cards DeckOps.create_standard_deck)) in
  let '(ps, d) := deal_cards_to_players (Game.players g) d in
  let d := setup_auction_deck (Game.auction_suits g) d in
  match Auction.set_tie_handling (Game.tie_handling g) (Game.auction g) with
  | None => Raised ValueError
  | Some a =>
      Returned (Game.make ps (Game.auction_suits g) d a 0 (Game.max_rounds g) false []
                          (Game.tie_handling g) [])
  end.

End Shuffled.

(** [_display_round_results]: what is printed is left out, what is raised
    is kept. *)
Definition display_round_results (round_result : Round.t) : ended unit :=
  match Round.diamond_card round_result with
  | None => Raised (Inner AttributeError)
  | Some _ =>
      match Round.result round_result with
      | None => Raised (Inner TypeError)
      | Some result =>
          if Resolved.is_enum (Resolved.result_type result) Resolved.WINNER_DETERMINED then
            match Resolved.winner result with
            | None => Raised (Inner AttributeError)
            | Some _ => Returned tt
            end
          else if Resolved.is_enum (Resolved.result_type result) Resolved.TIE_SPLIT then
            match Resolved.tied_players result with
            | None => Raised (Inner TypeError)
            | Some tied =>
                match Resolved.diamond_card result with
                | None => Raised (Inner AttributeError)
                | Some _ =>
                    if (length tied =? 0)%nat then Raised (Inner ZeroDivisionError)
                    else Returned tt
                end
            end
          else Returned tt
      end
  end.

(** The dictionary [_display_final_results] returns. *)
Record final : Type := make_final {
  winner : option nat;
  is_draw_flag : bool;
  scores : list (string * Z);
  rounds_played : nat
}.

(** [_display_final_results] *)
Definition display_final_results (g : Game.t) : ended final :=
  let scores := get_game_scores g in
  match get_winner g with
  | inl e => Raised e
  | inr winner =>
      match is_draw g with
      | inl e => Raised e
      | inr true => Returned (make_final None true scores (Game.round_number g))
      | inr false =>
          match winner with
          | None => Raised (Inner AttributeError)
          | Some w => Returned (make_final (Some w) false scores (Game.round_number g))
          end
      end
  end.

Section Playing.

Variable make_bid : nat -> Player.t -> option Card.t -> Game.bid_state -> option Card.t.

(** The [while] loop of [play_full_game], for at most [fuel] rounds. *)
Fixpoint play_rounds (fuel : nat) (g : Game.t) : ended Game.t :=
  match fuel with
  | O => Running
  | S k =>
      if Game.game_over g then Returned g
      else
        match Game.play_round make_bid g with
        | Raise e => Raised (Inner e)
        | Ok (Game.error _, g') => Returned g'
        | Ok (Game.round round_result, g') =>
            match display_round_results round_result with
            | Raised e => Raised e
            | Running => Running
            | Returned _ =>
                if Round.game_over round_result then Returned g'
                else play_rounds k g'
            end
        end
  end.

(** [play_full_game] *)
Definition play_full_game (shuffle : nat -> list Card.t -> list Card.t)
    (fuel : nat) (g : Game.t) : ended final :=
  match setup_game shuffle g with
  | Raised e => Raised e
  | Running => Running
  | Returned g =>
      match play_rounds fuel g with
      | Raised e => Raised e
      | Running => Running
      | Returned g => display_final_results g
      end
  end.

End Playing.

End GameFlow.

(** ** The books of the game *)

Module Books.

(** What the history of a game looks like: rounds played to their end,
    numbered from 1 up to the round counter at most, and not more of them
    than the counter says. *)
Definition history_ok (g : Game.t) : Prop :=
  (length (Game.game_history g) <= Game.round_number g)%nat /\
  Forall (fun rr =>
            Round.game_over rr = false /\
            (1 <= Round.round_number rr <= Game.round_number g)%nat /\
            Round.diamond_card rr <> None /\ Round.result rr <> None)
         (Game.game_history g).

End Books.


(** ** main.py, the console game *)

Module Main.

(** The class of a player object: what [isinstance(player, HumanPlayer)]
    reads, and the strategy a [ComputerPlayer] was made with. *)
Inductive kind : Type :=
  | Human
  | Computer (strategy : string).

(** What a round can raise. *)
Inductive exn : Type :=
  | EOFError
  | AttributeError
  | IndexError
  | Strategy (e : ComputerPlayer.raised).

(** How a call ends; [Running] is a loop that has not ended when the fuel
    is used up. *)
Inductive ended (A : Type) : Type :=
  | Returned (a : A)
  | Raised (e : exn)
  | Running.

Arguments Returned {A} a.
Arguments Raised {A} e.
Arguments Running {A}.

(** The console: the lines still to be read, each as [int(input(...))]
    reads it, [None] for a line on which [int] raises [ValueError].
    [input] raises [EOFError] when no line is left. *)
Definition console : Type := list (option Z).

(** [get_human_bid]: the [while True] loop reads a line in every turn. *)
Fixpoint get_human_bid (player : Player.t) (auction_card : Card.t) (lines : console)
    : ended (Card.t * console) :=
  match lines with
  | [] => Raised EOFError
  | None :: rest => get_human_bid player auction_card rest
  | Some choice :: rest =>
      if (1 <=? choice) && (choice <=? Z.of_nat (length (Player.hand player))) then
        match nth_error (Player.hand player) (Z.to_nat (choice - 1)) with
        | Some card => Returned (card, rest)
        | None => Raised IndexError
        end
      else get_human_bid player auction_card rest
  end.

(** The keys [sorted] computes, [x[1].get_numeric_value()] for every entry
    of the dictionary: [None] where a bid is [None] and the call raises
    [AttributeError]. *)
Fixpoint bid_cards (bids : list (nat * option Card.t)) : option (list (nat * Card.t)) :=
  match bids with
  | [] => Some []
  | (player, None) :: _ => None
  | (player, Some card) :: rest =>
      match bid_cards rest with
      | Some cards => Some ((player, card) :: cards)
      | None => None
      end
  end.

Section Table.

(** The class of the player object at each position of [players]. *)
Variable kind_of : nat -> kind.

Variable randbelow : nat -> nat.
Variable above_average : Z -> list Z -> bool.

(** The bid of the player at position [i]; the dictionary handed to a
    computer player holds the round only, and no strategy reads it. *)
Definition bid_of (i : nat) (player : Player.t) (auction_card : Card.t) (round_num : nat)
    (lines : console) : ended (option Card.t * console) :=
  match kind_of i with
  | Human =>
      match get_human_bid player auction_card lines with
      | Returned (card, lines') => Returned (Some card, lines')
      | Raised e => Raised e
      | Running => Running
      end
  | Computer strategy =>
      match ComputerPlayer.make_bid randbelow above_average strategy player auction_card
              (Game.make_bid_state round_num [] []) with
      | inl e => Raised (Strategy e)
      | inr bid => Returned (bid, lines)
      end
  end.

(** The loop that collects the bids, from position [i] of [players] on;
    the players are distinct objects, so every one of them gets an entry of
    its own in the dictionary, in the order of the list. *)
Fixpoint collect (i : nat) (todo : list Player.t) (auction_card : Card.t)
    (round_num : nat) (lines : console)
    : ended (list (nat * option Card.t) * console) :=
  match todo with
  | [] => Returned ([], lines)
  | player :: rest =>
      match bid_of i player auction_card round_num lines with
      | Returned (bid, lines') =>
          match collect (S i) rest auction_card round_num lines' with
          | Returned (bids, lines'') => Returned ((i, bid) :: bids, lines'')
          | Raised e => Raised e
          | Running => Running
          end
      | Raised e => Raised e
      | Running => Running
      end
  end.

(** [play_round(players, auction_deck, round_num)]: the card returned, with
    the players, the deck and the console as the round leaves them. *)
Definition play_round (players : list Player.t) (auction_deck : Deck.t)
    (round_num : nat) (lines : console)
    : ended (option Card.t * list Player.t * Deck.t * console) :=
  let '(drawn, auction_deck) := Deck.draw_card auction_deck in
  match drawn with
  | None => Returned (None, players, auction_deck, lines)
  | Some auction_card =>
      match collect 0 players auction_card round_num lines with
      | Raised e => Raised e
      | Running => Running
      | Returned (bids, lines) =>
          match bid_cards bids with
          | None => Raised AttributeError
          | Some cards =>
              match Auction.sorted_bids_of cards with
              | [] => Raised IndexError
              | first :: _ =>
                  let highest_bid := Card.get_numeric_value (snd first) in
                  let tied_players :=
                    map fst (filter (fun pc => Card.get_numeric_value (snd pc)
                                               =? highest_bid) cards) in
                  let players :=
                    if (1 <? length tied_players)%nat then
                      fold_left (fun ps player =>
                                   modify player (Player.add_won_card auction_card) ps)
                                tied_players players
                    else modify (fst first) (Player.add_won_card auction_card) players in
                  Returned (Some auction_card, Game.remove_bid_cards cards players,
                            auction_deck, lines)
              end
          end
      end
  end.

(** The [while True] loop of [main], for at most [fuel] rounds: the
    players, the deck, the round number and the console at the [break]. *)
Fixpoint play_rounds (fuel : nat) (players : list Player.t) (auction_deck : Deck.t)
    (round_num : nat) (lines : console)
    : ended (list Player.t * Deck.t * nat * console) :=
  match fuel with
  | O => Running
  | S k =>
      if negb (existsb Player.has_cards players)
      then Returned (players, auction_deck, round_num, lines)
      else if Deck.is_empty auction_deck
      then Returned (players, auction_deck, round_num, lines)
      else
        match play_round players auction_deck round_num lines with
        | Raised e => Raised e
        | Running => Running
        | Returned (None, players', auction_deck', lines') =>
            Returned (players', auction_deck', round_num, lines')
        | Returned (Some _, players', auction_deck', lines') =>
            play_rounds k players' auction_deck' (S round_num) lines'
        end
  end.

End Table.

End Main.
(** * Properties *)

(** ** Cards and hands *)

Lemma rank_value_inj (r s : Card.Rank) :
  Card.rank_value r = Card.rank_value s -> r = s.
Proof. destruct r, s; simpl; intros H; try reflexivity; discriminate H. Qed.

Lemma card_eq_rank (a b : Card.t) :
  Card.eq a b = true <-> Card.rank a = Card.rank b.
Proof.
  unfold Card.eq, Card.value. rewrite Z.eqb_eq. split.
  - apply rank_value_inj.
  - intros ->. reflexivity.
Qed.

Lemma card_eq_rank_false (a b : Card.t) :
  Card.eq a b = false <-> Card.rank a <> Card.rank b.
Proof.
  rewrite <- card_eq_rank. destruct (Card.eq a b); split; congruence.
Qed.

Lemma list_remove_first (c : Card.t) (pre post : list Card.t) (c' : Card.t) :
  Card.rank c' = Card.rank c ->
  (forall x, In x pre -> Card.rank x <> Card.rank c) ->
  list_remove c (pre ++ c' :: post) = (true, pre ++ post).
Proof.
  intros Hc'. induction pre as [|y pre IH]; intros Hpre; simpl.
  - apply card_eq_rank in Hc'. rewrite Hc'. reflexivity.
  - assert (Hy : Card.eq y c = false).
    { apply card_eq_rank_false. apply Hpre. left. reflexivity. }
    rewrite Hy, IH; [reflexivity|].
    intros x Hx. apply Hpre. right. exact Hx.
Qed.

Lemma list_remove_absent (c : Card.t) (l : list Card.t) :
  (forall x, In x l -> Card.rank x <> Card.rank c) ->
  list_remove c l = (false, l).
Proof.
  induction l as [|y l IH]; intros Hl; simpl; [reflexivity|].
  assert (Hy : Card.eq y c = false).
  { apply card_eq_rank_false. apply Hl. left. reflexivity. }
  rewrite Hy, IH; [reflexivity|].
  intros x Hx. apply Hl. right. exact Hx.
Qed.

(** Every list splits at its first card of a given rank, when it has one. *)
Lemma first_of_rank (c : Card.t) (l : list Card.t) :
  (exists x, In x l /\ Card.rank x = Card.rank c) ->
  exists pre c' post,
    l = pre ++ c' :: post /\ Card.rank c' = Card.rank c /\
    (forall x, In x pre -> Card.rank x <> Card.rank c).
Proof.
  induction l as [|y l IH]; intros [x [Hin Hx]]; [destruct Hin|].
  destruct (Card.eq y c) eqn:Hy.
  - exists [], y, l. repeat split.
    + apply card_eq_rank. exact Hy.
    + intros z [].
  - destruct IH as (pre & c' & post & -> & Hc' & Hpre).
    { destruct Hin as [->|Hin].
      - apply card_eq_rank_false in Hy. contradiction.
      - exists x. split; assumption. }
    exists (y :: pre), c', post. repeat split; [exact Hc'|].
    intros z [<-|Hz]; [apply card_eq_rank_false; exact Hy | apply Hpre; exact Hz].
Qed.

(** What [list.remove] leaves is the list without one occurrence, or the
    list itself. *)
Lemma list_remove_cases (c : Card.t) (l : list Card.t) :
  (exists pre c' post,
      l = pre ++ c' :: post /\ Card.rank c' = Card.rank c /\
      (forall x, In x pre -> Card.rank x <> Card.rank c) /\
      list_remove c l = (true, pre ++ post))
  \/ ((forall x, In x l -> Card.rank x <> Card.rank c) /\ list_remove c l = (false, l)).
Proof.
  destruct (existsb (fun x => Card.eq x c) l) eqn:E.
  - left. apply existsb_exists in E. destruct E as [x [Hin Hx]].
    destruct (first_of_rank c l) as (pre & c' & post & -> & Hc' & Hpre).
    { exists x. split; [exact Hin | apply card_eq_rank; exact Hx]. }
    exists pre, c', post. repeat split; try assumption.
    apply list_remove_first; assumption.
  - right.
    assert (H : forall x, In x l -> Card.rank x <> Card.rank c).
    { intros x Hin. apply card_eq_rank_false.
      destruct (Card.eq x c) eqn:Hx; [|reflexivity].
      assert (existsb (fun x => Card.eq x c) l = true) as E'
        by (apply existsb_exists; exists x; split; assumption).
      congruence. }
    split; [exact H | apply list_remove_absent; exact H].
Qed.

(** C10.  [Player.remove_card] takes out of the hand the first card whose
    rank is the rank of the given card, whatever the suits, answers [true]
    and the hand is one card shorter; when the hand has no card of that
    rank it answers [false] and the player is unchanged. *)
Theorem remove_card_first_of_rank (c : Card.t) (p : Player.t) :
  ((exists x, In x (Player.hand p) /\ Card.rank x = Card.rank c) ->
   exists pre c' post,
     Player.hand p = pre ++ c' :: post /\
     Card.rank c' = Card.rank c /\
     (forall x, In x pre -> Card.rank x <> Card.rank c) /\
     Player.remove_card c p =
       (true, Player.make (Player.name p) (Player.suit p) (pre ++ post)
                          (Player.won_cards p)) /\
     S (length (Player.hand (snd (Player.remove_card c p)))) = length (Player.hand p))
  /\
  ((forall x, In x (Player.hand p) -> Card.rank x <> Card.rank c) ->
   Player.remove_card c p = (false, p)).
Proof.
  split.
  - intros Hex.
    destruct (first_of_rank c (Player.hand p) Hex) as (pre & c' & post & Hh & Hc' & Hpre).
    exists pre, c', post.
    assert (Hr : Player.remove_card c p =
      (true, Player.make (Player.name p) (Player.suit p) (pre ++ post) (Player.won_cards p))).
    { unfold Player.remove_card. rewrite Hh, (list_remove_first c pre post c' Hc' Hpre).
      reflexivity. }
    repeat split; try assumption.
    rewrite Hr, Hh. simpl. rewrite !length_app. simpl. lia.
  - intros Habs. unfold Player.remove_card.
    rewrite (list_remove_absent c _ Habs). destruct p; reflexivity.
Qed.

(** A hand with two kings: asking for the king of spades takes the king of
    hearts, the first of that rank. *)
Lemma remove_card_first_of_rank_witness :
  let c := Card.make Card.SPADES Card.KING in
  let p := Player.make "A" Card.HEARTS
             [Card.make Card.HEARTS Card.TWO; Card.make Card.HEARTS Card.KING;
              Card.make Card.CLUBS Card.KING] [] in
  (exists x, In x (Player.hand p) /\ Card.rank x = Card.rank c) /\
  (exists pre c' post,
     Player.hand p = pre ++ c' :: post /\
     Card.rank c' = Card.rank c /\
     (forall x, In x pre -> Card.rank x <> Card.rank c) /\
     Player.remove_card c p =
       (true, Player.make (Player.name p) (Player.suit p) (pre ++ post)
                          (Player.won_cards p)) /\
     S (length (Player.hand (snd (Player.remove_card c p)))) = length (Player.hand p)).
Proof.
  intros c p.
  assert (H : exists x, In x (Player.hand p) /\ Card.rank x = Card.rank c).
  { exists (Card.make Card.HEARTS Card.KING). simpl. split; [right; left|]; reflexivity. }
  split; [exact H|].
  exact (proj1 (remove_card_first_of_rank c p) H).
Defined.

(** ** The bid map *)

Lemma has_bid_in (player : nat) (b : list (nat * Card.t)) :
  Auction.has_bid player b = true <-> In player (map fst b).
Proof.
  unfold Auction.has_bid. rewrite existsb_exists, in_map_iff. split.
  - intros [pc [Hin Heq]]. exists pc. split; [apply Nat.eqb_eq; exact Heq | exact Hin].
  - intros [pc [Heq Hin]]. exists pc. split; [exact Hin | apply Nat.eqb_eq; exact Heq].
Qed.

Lemma has_bid_not_in (player : nat) (b : list (nat * Card.t)) :
  Auction.has_bid player b = false <-> ~ In player (map fst b).
Proof.
  rewrite <- has_bid_in. destruct (Auction.has_bid player b); split; congruence.
Qed.

Lemma place_bid_keeps_keys_distinct (player : nat) (card : Card.t) (a : Auction.t) :
  NoDup (map fst (Auction.bids a)) ->
  NoDup (map fst (Auction.bids (snd (Auction.place_bid player card a)))).
Proof.
  intros Hnd. unfold Auction.place_bid.
  destruct (Auction.has_bid player (Auction.bids a)) eqn:Hb; simpl; [exact Hnd|].
  rewrite map_app. simpl.
  apply has_bid_not_in in Hb.
  apply NoDup_rev in Hnd. rewrite <- (rev_involutive (map fst (Auction.bids a) ++ [player])).
  apply NoDup_rev. rewrite rev_app_distr. simpl. constructor; [|exact Hnd].
  rewrite <- in_rev. exact Hb.
Qed.

(** A run of [place_bid] calls, in order. *)
Lemma place_bids_keep_keys_distinct (calls : list (nat * Card.t)) (a : Auction.t) :
  NoDup (map fst (Auction.bids a)) ->
  NoDup (map fst (Auction.bids
    (fold_left (fun acc pc => snd (Auction.place_bid (fst pc) (snd pc) acc)) calls a))).
Proof.
  revert a. induction calls as [|[p c] calls IH]; intros a Hnd; simpl; [exact Hnd|].
  apply IH. apply place_bid_keeps_keys_distinct. exact Hnd.
Qed.

(** C6.  [place_bid] for a participant who has a bid in the map answers
    [false] and leaves the auction as it is; hence, from the empty map that
    [start_auction] leaves, no run of [place_bid] calls records two bids
    for one participant. *)
Theorem place_bid_rejects_second_bid (player : nat) (card : Card.t) (a : Auction.t) :
  In player (map fst (Auction.bids a)) ->
  Auction.place_bid player card a = (false, a)
  /\ forall (d : Card.t) (n : nat) (calls : list (nat * Card.t)),
       NoDup (map fst (Auction.bids
         (fold_left (fun acc pc => snd (Auction.place_bid (fst pc) (snd pc) acc))
                    calls (Auction.start_auction d n a)))).
Proof.
  intros Hin. split.
  - unfold Auction.place_bid. apply has_bid_in in Hin. rewrite Hin. reflexivity.
  - intros d n calls. apply place_bids_keep_keys_distinct. simpl. constructor.
Qed.

Lemma place_bid_rejects_second_bid_witness :
  let two := Card.make Card.HEARTS Card.TWO in
  let ace := Card.make Card.HEARTS Card.ACE in
  let a := Auction.make (Some (Card.make Card.DIAMONDS Card.TEN)) [(0%nat, two)] "split" 1 in
  In 0%nat (map fst (Auction.bids a)) /\
  (Auction.place_bid 0 ace a = (false, a)
   /\ forall (d : Card.t) (n : nat) (calls : list (nat * Card.t)),
       NoDup (map fst (Auction.bids
         (fold_left (fun acc pc => snd (Auction.place_bid (fst pc) (snd pc) acc))
                    calls (Auction.start_auction d n a))))).
Proof.
  intros two ace a.
  assert (H : In 0%nat (map fst (Auction.bids a))) by (left; reflexivity).
  split; [exact H|].
  exact (place_bid_rejects_second_bid 0 ace a H).
Defined.

(** ** Choosing the auction card *)

Lemma draw_card_last (l : list Card.t) (c : Card.t) :
  Deck.draw_card (Deck.make (l ++ [c])) = (Some c, Deck.make l).
Proof.
  unfold Deck.draw_card, Deck.is_empty. simpl.
  rewrite length_app. simpl.
  replace (length l + 1 =? 0)%nat with false by (symmetry; apply Nat.eqb_neq; lia).
  rewrite rev_app_distr. simpl. rewrite rev_involutive. reflexivity.
Qed.

Lemma draw_card_empty : Deck.draw_card (Deck.make []) = (None, Deck.make []).
Proof. reflexivity. Qed.

Lemma draw_card_none (d : Deck.t) :
  fst (Deck.draw_card d) = None <-> Deck.cards d = [].
Proof.
  destruct d as [l]. simpl.
  destruct (rev l) as [|c r] eqn:E.
  - assert (l = []) as -> by (rewrite <- (rev_involutive l), E; reflexivity).
    split; reflexivity.
  - assert (l = rev r ++ [c]) as -> by (rewrite <- (rev_involutive l), E; reflexivity).
    rewrite draw_card_last. simpl. split; [discriminate|].
    intros H. destruct (rev r); discriminate H.
Qed.

Lemma take_queue_in_order (q : list Card.t) (g : Game.t) :
  Game.carry_forward_diamonds g = q ->
  Ledger.take_auction_cards (length q) g
  = (map Some q, Game.with_carry_forward_diamonds [] g).
Proof.
  revert g. induction q as [|c q IH]; intros g Hq.
  - simpl. destruct g; simpl in *; subst; reflexivity.
  - simpl. unfold Game.get_auction_card. rewrite Hq.
    rewrite (IH (Game.with_carry_forward_diamonds q g)) by reflexivity.
    reflexivity.
Qed.

(** C7.  [_get_auction_card] pops the front of the carry-forward queue
    whenever the queue is not empty and leaves the pile alone; with an
    empty queue it draws the top of the pile; it answers [None] exactly
    when queue and pile are both empty.  So the queued cards come out front
    first, all of them before any card of the pile. *)
Theorem get_auction_card_queue_first (g : Game.t) :
  (forall c rest,
      Game.carry_forward_diamonds g = c :: rest ->
      Game.get_auction_card g = (Some c, Game.with_carry_forward_diamonds rest g))
  /\
  (forall below top,
      Game.carry_forward_diamonds g = [] ->
      Deck.cards (Game.deck g) = below ++ [top] ->
      Game.get_auction_card g = (Some top, Game.with_deck (Deck.make below) g))
  /\
  (fst (Game.get_auction_card g) = None <->
   Game.carry_forward_diamonds g = [] /\ Deck.cards (Game.deck g) = [])
  /\
  (let '(taken, g') :=
     Ledger.take_auction_cards (length (Game.carry_forward_diamonds g)) g in
   taken = map Some (Game.carry_forward_diamonds g) /\
   Game.deck g' = Game.deck g /\ Game.carry_forward_diamonds g' = []).
Proof.
  split; [|split; [|split]].
  - intros c rest Hq. unfold Game.get_auction_card. rewrite Hq. reflexivity.
  - intros below top Hq Hd. unfold Game.get_auction_card. rewrite Hq.
    destruct (Game.deck g) as [l]. simpl in Hd. subst l.
    rewrite draw_card_last. reflexivity.
  - unfold Game.get_auction_card.
    destruct (Game.carry_forward_diamonds g) as [|c q].
    + pose proof (draw_card_none (Game.deck g)) as Hn.
      destruct (Deck.draw_card (Game.deck g)) as [c d]. simpl in *.
      rewrite Hn. intuition.
    + simpl. split; [discriminate | intros [H _]; discriminate H].
  - rewrite (take_queue_in_order (Game.carry_forward_diamonds g) g eq_refl).
    split; [reflexivity | split; reflexivity].
Qed.

Lemma get_auction_card_queue_first_witness :
  let nine := Card.make Card.DIAMONDS Card.NINE in
  Game.carry_forward_diamonds Sample.late = [nine] /\
  Game.get_auction_card Sample.late
  = (Some nine, Game.with_carry_forward_diamonds [] Sample.late).
Proof.
  intros nine.
  assert (H : Game.carry_forward_diamonds Sample.late = [nine]) by reflexivity.
  split; [exact H|].
  exact (proj1 (get_auction_card_queue_first Sample.late) nine [] H).
Defined.

(** ** A round of a finished game *)

Lemma play_round_after_over_aux
    (make_bid : nat -> Player.t -> option Card.t -> Game.bid_state -> option Card.t)
    (g : Game.t) :
  Game.game_over g = true ->
  Game.play_round make_bid g = Ok (Game.error "Game is already over", g).
Proof.
  intros H. unfold Game.play_round. rewrite H. reflexivity.
Qed.

(** C9.  With the game-over flag set, [play_round] answers the error
    dictionary and the game is the one it was given: round counter, hands,
    won cards, pile, queue, auction and history are untouched. *)
Theorem play_round_after_game_over
    (make_bid : nat -> Player.t -> option Card.t -> Game.bid_state -> option Card.t)
    (g : Game.t) :
  Game.game_over g = true ->
  Game.play_round make_bid g = Ok (Game.error "Game is already over", g).
Proof.
  exact (play_round_after_over_aux make_bid g).
Qed.

Lemma play_round_after_game_over_witness :
  let g := Game.with_game_over true (Sample.opening "split") in
  Game.game_over g = true /\
  Game.play_round (Sample.typed Sample.both_kings) g
  = Ok (Game.error "Game is already over", g).
Proof.
  intros g.
  assert (H : Game.game_over g = true) by reflexivity.
  split; [exact H|].
  exact (play_round_after_game_over (Sample.typed Sample.both_kings) g H).
Defined.

(** ** Sorting the bids *)

Section SortedBids.

Let bid := (nat * Card.t)%type.
Let worth (pc : bid) : Z := Card.get_numeric_value (snd pc).
Let above (x y : bid) : Prop := worth y <= worth x.

Lemma insert_bid_perm (x : bid) (l : list bid) :
  Permutation (Auction.insert_bid x l) (x :: l).
Proof.
  induction l as [|y l IH]; simpl; [reflexivity|].
  destruct (Card.get_numeric_value (snd x) <? Card.get_numeric_value (snd y)).
  - rewrite IH. apply perm_swap.
  - reflexivity.
Qed.

Lemma sorted_bids_perm (b : list bid) : Permutation (Auction.sorted_bids_of b) b.
Proof.
  induction b as [|x b IH]; simpl; [reflexivity|].
  rewrite insert_bid_perm, IH. reflexivity.
Qed.

Lemma insert_bid_descending (x : bid) (l : list bid) :
  StronglySorted above l -> StronglySorted above (Auction.insert_bid x l).
Proof.
  induction 1 as [|y l Hs IH Hy]; simpl.
  - constructor; constructor.
  - destruct (Z.ltb_spec (Card.get_numeric_value (snd x)) (Card.get_numeric_value (snd y)))
      as [Hlt|Hge].
    + constructor; [exact IH|].
      apply (Permutation_Forall (Permutation_sym (insert_bid_perm x l))).
      constructor; [unfold above, worth; lia | exact Hy].
    + constructor; [constructor; assumption|].
      constructor; [unfold above, worth; lia|].
      eapply Forall_impl; [|exact Hy].
      intros z Hz. unfold above, worth in *. lia.
Qed.

Lemma sorted_bids_descending (b : list bid) :
  StronglySorted above (Auction.sorted_bids_of b).
Proof.
  induction b as [|x b IH]; simpl; [constructor | apply insert_bid_descending, IH].
Qed.

(** Stability: the entries of one value stand in the sorted list as they
    stand in the dictionary. *)
Lemma filter_insert_bid (m : Z) (x : bid) (l : list bid) :
  filter (fun pc => Card.get_numeric_value (snd pc) =? m) (Auction.insert_bid x l)
  = filter (fun pc => Card.get_numeric_value (snd pc) =? m) (x :: l).
Proof.
  induction l as [|y l IH]; [reflexivity|].
  simpl Auction.insert_bid.
  destruct (Z.ltb_spec (Card.get_numeric_value (snd x)) (Card.get_numeric_value (snd y)))
    as [Hlt|Hge]; [|reflexivity].
  simpl in *. rewrite IH.
  destruct (Z.eqb_spec (Card.get_numeric_value (snd x)) m) as [Hx|Hx];
    destruct (Z.eqb_spec (Card.get_numeric_value (snd y)) m) as [Hy|Hy];
    try reflexivity.
  lia.
Qed.

Lemma filter_sorted_bids (m : Z) (b : list bid) :
  filter (fun pc => Card.get_numeric_value (snd pc) =? m) (Auction.sorted_bids_of b)
  = filter (fun pc => Card.get_numeric_value (snd pc) =? m) b.
Proof.
  induction b as [|x b IH]; [reflexivity|].
  simpl Auction.sorted_bids_of. rewrite filter_insert_bid. simpl. rewrite IH. reflexivity.
Qed.

(** The first entry of the sorted list is a bid of maximal value. *)
Lemma sorted_bids_head (b : list bid) (first : bid) (rest : list bid) :
  Auction.sorted_bids_of b = first :: rest ->
  In first b /\
  forall pc, In pc b -> Card.get_numeric_value (snd pc) <= Card.get_numeric_value (snd first).
Proof.
  intros E. pose proof (sorted_bids_perm b) as Hp.
  pose proof (sorted_bids_descending b) as Hs. rewrite E in Hp, Hs.
  split.
  - eapply Permutation_in; [exact Hp | left; reflexivity].
  - intros pc Hin.
    apply Permutation_sym in Hp. apply (Permutation_in _ Hp) in Hin.
    destruct Hin as [<-|Hin]; [lia|].
    inversion Hs as [|? ? _ Hall]; subst.
    rewrite Forall_forall in Hall. apply (Hall pc Hin).
Qed.

End SortedBids.

(** ** Resolution *)

Lemma determine_winner_cases (a : Auction.t) :
  (2 <= length (Auction.bids a))%nat ->
  exists first,
    In first (Auction.bids a) /\
    (forall pc, In pc (Auction.bids a) ->
       Card.get_numeric_value (snd pc) <= Card.get_numeric_value (snd first)) /\
    let tied :=
      map fst (filter (fun pc => Card.get_numeric_value (snd pc)
                                 =? Card.get_numeric_value (snd first))
                      (Auction.bids a)) in
    (tied = [fst first] /\
     Auction.determine_winner a
     = (Resolved.WINNER_DETERMINED, Some (fst first), Some [fst first]))
    \/
    ((2 <= length tied)%nat /\
     Auction.determine_winner a
     = (if String.eqb (Auction.tie_handling_method a) "split"
        then Resolved.TIE_SPLIT else Resolved.TIE_CARRY_FORWARD,
        None, Some tied)).
Proof.
  intros Hlen. unfold Auction.determine_winner.
  replace (length (Auction.bids a) <? 2)%nat with false
    by (symmetry; apply Nat.ltb_ge; exact Hlen).
  destruct (Auction.sorted_bids_of (Auction.bids a)) as [|first rest] eqn:E.
  - pose proof (Permutation_length (sorted_bids_perm (Auction.bids a))) as Hl.
    rewrite E in Hl. simpl in Hl. lia.
  - destruct (sorted_bids_head _ _ _ E) as [Hin Hmax].
    exists first. split; [exact Hin|]. split; [exact Hmax|].
    cbv zeta. rewrite <- E, filter_sorted_bids.
    set (f := fun pc : nat * Card.t =>
                Card.get_numeric_value (snd pc) =? Card.get_numeric_value (snd first)).
    assert (Hf : In first (filter f (Auction.bids a))).
    { apply filter_In. split; [exact Hin|]. unfold f. apply Z.eqb_refl. }
    destruct (Nat.ltb_spec 1 (length (map fst (filter f (Auction.bids a))))) as [Hgt|Hle].
    + right. split; [lia|].
      destruct (String.eqb (Auction.tie_handling_method a) "split"); reflexivity.
    + left. split; [|reflexivity].
      destruct (filter f (Auction.bids a)) as [|y [|z l]]; simpl in *.
      * contradiction.
      * destruct Hf as [->|[]]. reflexivity.
      * lia.
Qed.

(** In a list of participants, [modify] at a position that exists changes
    that participant and no other. *)
Lemma nth_error_modify_same {A : Type} (f : A -> A) (l : list A) (i : nat) :
  nth_error (modify i f l) i = option_map f (nth_error l i).
Proof.
  revert i. induction l as [|x l IH]; intros [|i]; simpl; try reflexivity. apply IH.
Qed.

Lemma nth_error_modify_other {A : Type} (f : A -> A) (l : list A) (i j : nat) :
  i <> j -> nth_error (modify i f l) j = nth_error l j.
Proof.
  revert i j. induction l as [|x l IH]; intros [|i] [|j] H; simpl; try reflexivity.
  - contradiction.
  - apply IH. congruence.
Qed.

Lemma length_modify {A : Type} (f : A -> A) (l : list A) (i : nat) :
  length (modify i f l) = length l.
Proof.
  revert i. induction l as [|x l IH]; intros [|i]; simpl; try reflexivity.
  f_equal. apply IH.
Qed.

(** C4.  With two bids or more, [determine_winner] finds the largest bid
    value and the participants [tied] whose bid has that value, whatever
    the suits, in dictionary order.  When [tied] is one participant the
    outcome is [WINNER_DETERMINED] for that participant, and
    [_process_auction_results] appends the revealed card to that
    participant's won cards; when [tied] has two participants or more the
    outcome is a tie, [TIE_SPLIT] or [TIE_CARRY_FORWARD], with no winner. *)
Theorem resolution_by_maximum (a : Auction.t) :
  (2 <= length (Auction.bids a))%nat ->
  exists (m : Z) (tied : list nat),
    (exists p c, In (p, c) (Auction.bids a) /\ Card.get_numeric_value c = m) /\
    (forall p c, In (p, c) (Auction.bids a) -> Card.get_numeric_value c <= m) /\
    tied = map fst (filter (fun pc => Card.get_numeric_value (snd pc) =? m)
                           (Auction.bids a)) /\
    ((exists w,
        tied = [w] /\
        Auction.determine_winner a
        = (Resolved.WINNER_DETERMINED, Some w, Some [w]) /\
        forall d ps,
          Auction.current_diamond a = Some d ->
          exists r,
            Auction.resolve_auction a = Ok r /\
            Resolved.result_type r = Resolved.of_enum Resolved.WINNER_DETERMINED /\
            Resolved.winner r = Some w /\
            Resolved.diamond_awarded r = true /\
            Game.process_auction_results r ps
            = Ok (modify w (Player.add_won_card d) ps) /\
            forall p, nth_error ps w = Some p ->
              nth_error (modify w (Player.add_won_card d) ps) w
              = Some (Player.make (Player.name p) (Player.suit p) (Player.hand p)
                                  (Player.won_cards p ++ [d])))
     \/
     ((2 <= length tied)%nat /\
      exists tie,
        (tie = Resolved.TIE_SPLIT \/ tie = Resolved.TIE_CARRY_FORWARD) /\
        Auction.determine_winner a = (tie, None, Some tied) /\
        forall d,
          Auction.current_diamond a = Some d ->
          exists r,
            Auction.resolve_auction a = Ok r /\
            Resolved.result_type r = Resolved.of_enum tie /\
            Resolved.winner r = None /\
            Resolved.tied_players r = Some tied)).
Proof.
  intros Hlen.
  destruct (determine_winner_cases a Hlen) as (first & Hin & Hmax & Hcases).
  exists (Card.get_numeric_value (snd first)),
         (map fst (filter (fun pc => Card.get_numeric_value (snd pc)
                                     =? Card.get_numeric_value (snd first))
                          (Auction.bids a))).
  split; [exists (fst first), (snd first); split; [destruct first; exact Hin | reflexivity]|].
  split; [intros p c Hpc; apply (Hmax (p, c) Hpc)|].
  split; [reflexivity|].
  cbv zeta in Hcases.
  assert (Hne : exists x l, Auction.bids a = x :: l).
  { destruct (Auction.bids a) as [|x l]; [simpl in Hlen; lia | eauto]. }
  destruct Hne as (x0 & l0 & Hb).
  destruct Hcases as [[Htied Hdw]|[Htied Hdw]].
  - left. exists (fst first). split; [exact Htied|]. split; [exact Hdw|].
    intros d ps Hd. unfold Auction.resolve_auction. rewrite Hb, <- Hb, Hdw.
    eexists. split; [reflexivity|]. simpl.
    split; [reflexivity|]. split; [reflexivity|]. split; [reflexivity|].
    split.
    + unfold Game.process_auction_results. simpl. rewrite Hd. reflexivity.
    + intros p Hp. rewrite nth_error_modify_same, Hp. reflexivity.
  - right. split; [exact Htied|].
    exists (if String.eqb (Auction.tie_handling_method a) "split"
            then Resolved.TIE_SPLIT else Resolved.TIE_CARRY_FORWARD).
    split; [destruct (String.eqb _ _); auto|]. split; [exact Hdw|].
    intros d Hd. unfold Auction.resolve_auction. rewrite Hb, <- Hb, Hdw.
    destruct (String.eqb (Auction.tie_handling_method a) "split").
    + rewrite Hd.
      replace (length _ =? 0)%nat with false by (symmetry; apply Nat.eqb_neq; lia).
      eexists. split; [reflexivity|]. simpl. repeat split.
    + eexists. split; [reflexivity|]. simpl. repeat split.
Qed.

Lemma resolution_by_maximum_witness :
  let a := Auction.make (Some (Card.make Card.DIAMONDS Card.ACE))
             [(0%nat, Card.make Card.HEARTS Card.KING);
              (1%nat, Card.make Card.CLUBS Card.KING);
              (2%nat, Card.make Card.SPADES Card.TWO)] "split" 1 in
  (2 <= length (Auction.bids a))%nat /\
  exists (m : Z) (tied : list nat),
    (exists p c, In (p, c) (Auction.bids a) /\ Card.get_numeric_value c = m) /\
    (forall p c, In (p, c) (Auction.bids a) -> Card.get_numeric_value c <= m) /\
    tied = map fst (filter (fun pc => Card.get_numeric_value (snd pc) =? m)
                           (Auction.bids a)) /\
    ((exists w,
        tied = [w] /\
        Auction.determine_winner a
        = (Resolved.WINNER_DETERMINED, Some w, Some [w]) /\
        forall d ps,
          Auction.current_diamond a = Some d ->
          exists r,
            Auction.resolve_auction a = Ok r /\
            Resolved.result_type r = Resolved.of_enum Resolved.WINNER_DETERMINED /\
            Resolved.winner r = Some w /\
            Resolved.diamond_awarded r = true /\
            Game.process_auction_results r ps
            = Ok (modify w (Player.add_won_card d) ps) /\
            forall p, nth_error ps w = Some p ->
              nth_error (modify w (Player.add_won_card d) ps) w
              = Some (Player.make (Player.name p) (Player.suit p) (Player.hand p)
                                  (Player.won_cards p ++ [d])))
     \/
     ((2 <= length tied)%nat /\
      exists tie,
        (tie = Resolved.TIE_SPLIT \/ tie = Resolved.TIE_CARRY_FORWARD) /\
        Auction.determine_winner a = (tie, None, Some tied) /\
        forall d,
          Auction.current_diamond a = Some d ->
          exists r,
            Auction.resolve_auction a = Ok r /\
            Resolved.result_type r = Resolved.of_enum tie /\
            Resolved.winner r = None /\
            Resolved.tied_players r = Some tied)).
Proof.
  intros a.
  assert (H : (2 <= length (Auction.bids a))%nat) by (simpl; lia).
  split; [exact H|].
  exact (resolution_by_maximum a H).
Defined.

(** Every outcome of [resolve_auction] once a card is revealed. *)
Lemma resolve_auction_cases (a : Auction.t) (d : Card.t) :
  Auction.current_diamond a = Some d ->
  exists r,
    Auction.resolve_auction a = Ok r /\
    Resolved.diamond_card r = Some d /\
    Resolved.bids r = Auction.bids a /\
    ((Auction.bids a = [] /\
      Resolved.result_type r = Resolved.no_bids /\
      Resolved.winner r = None /\ Resolved.carry_forward r = false /\
      Resolved.diamond_awarded r = false)
     \/
     (length (Auction.bids a) = 1%nat /\
      Resolved.result_type r = Resolved.insufficient_bids /\
      Resolved.winner r = None /\ Resolved.carry_forward r = false /\
      Resolved.diamond_awarded r = false)
     \/
     (exists w,
        In w (map fst (Auction.bids a)) /\
        Resolved.result_type r = Resolved.of_enum Resolved.WINNER_DETERMINED /\
        Resolved.winner r = Some w /\ Resolved.carry_forward r = false)
     \/
     (exists tied,
        (2 <= length tied)%nat /\
        Resolved.result_type r = Resolved.of_enum Resolved.TIE_SPLIT /\
        Resolved.winner r = None /\ Resolved.carry_forward r = false /\
        Resolved.tied_players r = Some tied /\
        Resolved.split_values r
        = map (fun player => (player, Auction.split_value_of d (length tied))) tied)
     \/
     (Resolved.result_type r = Resolved.of_enum Resolved.TIE_CARRY_FORWARD /\
      Resolved.winner r = None /\ Resolved.carry_forward r = true)).
Proof.
  intros Hd.
  destruct (Auction.bids a) as [|x [|y l]] eqn:Hb.
  - unfold Auction.resolve_auction. rewrite Hb.
    eexists. split; [reflexivity|]. simpl. split; [exact Hd|]. split; [reflexivity|].
    left. repeat split.
  - unfold Auction.resolve_auction, Auction.determine_winner. rewrite Hb. simpl.
    eexists. split; [reflexivity|]. simpl. split; [exact Hd|]. split; [reflexivity|].
    right. left. repeat split.
  - assert (Hlen : (2 <= length (Auction.bids a))%nat) by (rewrite Hb; simpl; lia).
    destruct (determine_winner_cases a Hlen) as (first & Hin & _ & Hcases).
    cbv zeta in Hcases. unfold Auction.resolve_auction. rewrite Hb, <- Hb.
    destruct Hcases as [[_ Hdw]|[Htied Hdw]]; rewrite Hdw.
    + eexists. split; [reflexivity|]. simpl.
      split; [exact Hd|]. split; [reflexivity|].
      right. right. left. exists (fst first). repeat split.
      apply in_map. exact Hin.
    + destruct (String.eqb (Auction.tie_handling_method a) "split").
      * rewrite Hd.
        replace (length _ =? 0)%nat with false by (symmetry; apply Nat.eqb_neq; lia).
        eexists. split; [reflexivity|]. simpl.
        split; [reflexivity|]. split; [reflexivity|].
        right. right. right. left. eexists. split; [exact Htied|]. repeat split.
      * eexists. split; [reflexivity|]. simpl.
        split; [exact Hd|]. split; [reflexivity|].
        right. right. right. right. repeat split.
Qed.

(** Without a contest: no bid or one bid. *)
Lemma resolve_without_contest (a : Auction.t) (ps : list Player.t) :
  (length (Auction.bids a) <= 1)%nat ->
  exists r,
    Auction.resolve_auction a = Ok r /\
    Resolved.result_type r
    = (if (length (Auction.bids a) =? 0)%nat
       then Resolved.no_bids else Resolved.insufficient_bids) /\
    Resolved.winner r = None /\
    Resolved.diamond_awarded r = false /\
    Resolved.carry_forward r = false /\
    Resolved.split_values r = [] /\
    Game.process_auction_results r ps = Ok ps.
Proof.
  intros Hlen. unfold Auction.resolve_auction, Auction.determine_winner.
  destruct (Auction.bids a) as [|x [|y l]]; simpl in *; try lia;
    (eexists; split; [reflexivity|]; simpl; repeat split).
Qed.

(** ** Collecting the bids *)

Section Collecting.

Variable make_bid : nat -> Player.t -> option Card.t -> Game.bid_state -> option Card.t.

Lemma answers_keys_range (i : nat) (todo : list Player.t) (d : option Card.t)
    (st : Game.bid_state) (k : nat) :
  In k (map fst (Ledger.answers_from make_bid i todo d st)) ->
  (i <= k < i + length todo)%nat.
Proof.
  revert i. induction todo as [|p todo IH]; intros i; simpl; [intros []|].
  rewrite map_app, in_app_iff. intros [H|H].
  - destruct (Player.has_cards p); [|destruct H].
    destruct (make_bid i p d st); [|destruct H].
    destruct H as [<-|[]]. simpl. lia.
  - apply IH in H. lia.
Qed.

Lemma answers_keys_distinct (i : nat) (todo : list Player.t) (d : option Card.t)
    (st : Game.bid_state) :
  NoDup (map fst (Ledger.answers_from make_bid i todo d st)).
Proof.
  revert i. induction todo as [|p todo IH]; intros i; simpl; [constructor|].
  rewrite map_app.
  destruct (Player.has_cards p); [|apply IH].
  destruct (make_bid i p d st); [|apply IH].
  simpl. constructor; [|apply IH].
  intros H. apply answers_keys_range in H. lia.
Qed.

Lemma get_bid_app_absent (k : nat) (b1 b2 : list (nat * Card.t)) :
  ~ In k (map fst b1) -> Auction.get_bid k (b1 ++ b2) = Auction.get_bid k b2.
Proof.
  induction b1 as [|[p c] b1 IH]; simpl; intros H; [reflexivity|].
  destruct (Nat.eqb_spec p k) as [->|Hne]; [exfalso; apply H; left; reflexivity|].
  apply IH. intros Hin. apply H. right. exact Hin.
Qed.

Lemma get_bid_absent (k : nat) (b : list (nat * Card.t)) :
  ~ In k (map fst b) -> Auction.get_bid k b = None.
Proof.
  intros H. rewrite <- (app_nil_r b). rewrite get_bid_app_absent by exact H. reflexivity.
Qed.

(** The bid recorded for the participant at a position. *)
Lemma get_bid_answers (i j : nat) (todo : list Player.t) (d : option Card.t)
    (st : Game.bid_state) (p : Player.t) :
  nth_error todo j = Some p ->
  Auction.get_bid (i + j) (Ledger.answers_from make_bid i todo d st)
  = if Player.has_cards p then make_bid (i + j)%nat p d st else None.
Proof.
  revert i j. induction todo as [|q todo IH]; intros i j Hj; [destruct j; discriminate|].
  destruct j as [|j]; simpl in Hj.
  - injection Hj as ->. rewrite Nat.add_0_r. simpl.
    destruct (Player.has_cards p); simpl.
    + destruct (make_bid i p d st); simpl.
      * rewrite Nat.eqb_refl. reflexivity.
      * apply get_bid_absent. intros H. apply answers_keys_range in H. lia.
    + apply get_bid_absent. intros H. apply answers_keys_range in H. lia.
  - simpl. rewrite get_bid_app_absent.
    + replace (i + S j)%nat with (S i + j)%nat by lia. apply IH. exact Hj.
    + destruct (Player.has_cards q); [|intros []].
      destruct (make_bid i q d st); [|intros []].
      simpl. intros [H|[]]. lia.
Qed.

Lemma collect_bids_from_answers (i : nat) (todo : list Player.t) (st : Game.bid_state)
    (a : Auction.t) :
  (forall k, In k (map fst (Auction.bids a)) -> (k < i)%nat) ->
  Game.collect_bids_from make_bid i todo st a
  = Auction.make (Auction.current_diamond a)
      (Auction.bids a
       ++ Ledger.answers_from make_bid i todo (Auction.current_diamond a) st)
      (Auction.tie_handling_method a) (Auction.round_number a).
Proof.
  revert i a. induction todo as [|p todo IH]; intros i a Hkeys; simpl.
  - rewrite app_nil_r. destruct a; reflexivity.
  - destruct (Player.has_cards p); simpl.
    + destruct (make_bid i p (Auction.current_diamond a) st) as [bid|].
      * unfold Auction.place_bid.
        assert (Hno : Auction.has_bid i (Auction.bids a) = false).
        { apply has_bid_not_in. intros H. apply Hkeys in H. lia. }
        rewrite Hno. simpl. rewrite IH.
        -- simpl. rewrite <- app_assoc. reflexivity.
        -- simpl. intros k. rewrite map_app, in_app_iff.
           intros [H|[<-|[]]]; [apply Hkeys in H|]; simpl; lia.
      * rewrite IH; [reflexivity|]. intros k H. apply Hkeys in H. lia.
    + rewrite IH; [reflexivity|]. intros k H. apply Hkeys in H. lia.
Qed.

End Collecting.

(** ** Applying the outcome *)

Lemma map_modify_fixed {A B : Type} (g : A -> B) (f : A -> A) (l : list A) (i : nat) :
  (forall x, g (f x) = g x) -> map g (modify i f l) = map g l.
Proof.
  intros H. revert i. induction l as [|x l IH]; intros [|i]; simpl; try reflexivity.
  - rewrite H. reflexivity.
  - rewrite IH. reflexivity.
Qed.

Lemma remove_card_keeps_won (c : Card.t) (p : Player.t) :
  Player.won_cards (snd (Player.remove_card c p)) = Player.won_cards p.
Proof.
  unfold Player.remove_card. destruct (list_remove c (Player.hand p)). reflexivity.
Qed.

Lemma remove_card_hand (c : Card.t) (p : Player.t) :
  Player.hand (snd (Player.remove_card c p)) = snd (list_remove c (Player.hand p)).
Proof.
  unfold Player.remove_card. destruct (list_remove c (Player.hand p)). reflexivity.
Qed.

Lemma remove_bid_cards_won (b : list (nat * Card.t)) (ps : list Player.t) :
  map Player.won_cards (Game.remove_bid_cards b ps) = map Player.won_cards ps.
Proof.
  revert ps. induction b as [|[k c] b IH]; intros ps; simpl; [reflexivity|].
  rewrite IH. apply map_modify_fixed. intros p. apply remove_card_keeps_won.
Qed.

Lemma remove_bid_cards_length (b : list (nat * Card.t)) (ps : list Player.t) :
  length (Game.remove_bid_cards b ps) = length ps.
Proof.
  revert ps. induction b as [|[k c] b IH]; intros ps; simpl; [reflexivity|].
  rewrite IH. apply length_modify.
Qed.

(** After [_remove_bid_cards] every participant with a bid in the map has
    had [remove_card] called once, with that bid; the others are
    untouched. *)
Lemma remove_bid_cards_nth (b : list (nat * Card.t)) (ps : list Player.t) (k : nat) :
  NoDup (map fst b) ->
  nth_error (Game.remove_bid_cards b ps) k
  = option_map (fun p => match Auction.get_bid k b with
                         | Some c => snd (Player.remove_card c p)
                         | None => p
                         end)
               (nth_error ps k).
Proof.
  revert ps. induction b as [|[j c] b IH]; intros ps Hnd; simpl.
  - destruct (nth_error ps k); reflexivity.
  - inversion Hnd as [|? ? Hj Hnd']; subst. rewrite IH by exact Hnd'.
    destruct (Nat.eqb_spec j k) as [->|Hne].
    + rewrite nth_error_modify_same, (get_bid_absent k b Hj).
      destruct (nth_error ps k); reflexivity.
    + rewrite nth_error_modify_other by exact Hne. reflexivity.
Qed.

Lemma award_split_total (d : Card.t) (split : list (nat * Q)) (ps : list Player.t) :
  exists ps',
    Game.award_split (Some d) split ps = Ok ps' /\
    map Player.hand ps' = map Player.hand ps /\
    map Player.name ps' = map Player.name ps.
Proof.
  revert ps. induction split as [|[k q] split IH]; intros ps; simpl.
  - exists ps. repeat split.
  - destruct (IH (modify k (Player.add_won_card d) ps)) as (ps' & -> & Hh & Hn).
    exists ps'. split; [reflexivity|].
    rewrite Hh, Hn. split; apply map_modify_fixed; reflexivity.
Qed.

Lemma get_auction_card_frame (g g2 : Game.t) (c : option Card.t) :
  Game.get_auction_card g = (c, g2) ->
  g2 = Game.make (Game.players g) (Game.auction_suits g) (Game.deck g2) (Game.auction g)
         (Game.round_number g) (Game.max_rounds g) (Game.game_over g)
         (Game.carry_forward_diamonds g2) (Game.tie_handling g) (Game.game_history g).
Proof.
  unfold Game.get_auction_card.
  destruct (Game.carry_forward_diamonds g) as [|x q].
  - destruct (Deck.draw_card (Game.deck g)) as [c' d]. intros [= _ <-]. reflexivity.
  - intros [= _ <-]. reflexivity.
Qed.

(** ** One round *)

Section Rounds.

Variable make_bid : nat -> Player.t -> option Card.t -> Game.bid_state -> option Card.t.

(** A round that is played to its end: the flag is off, somebody holds a
    card and an auction card [c] is there.  [b] is the bid map of the
    round, [r] the resolution, [ps] the participants after the award. *)
Lemma play_round_played (g g2 : Game.t) (c : Card.t) :
  Game.game_over g = false ->
  Game.should_end_game g = false ->
  Game.get_auction_card g = (Some c, g2) ->
  let n := S (Game.round_number g) in
  let b := Ledger.answers_from make_bid 0 (Game.players g) (Some c)
             (Game.make_bid_state n (Game.players g) (Game.game_history g)) in
  let a := Auction.make (Some c) b (Auction.tie_handling_method (Game.auction g)) n in
  exists r ps,
    Auction.resolve_auction a = Ok r /\
    Game.process_auction_results r (Game.players g) = Ok ps /\
    Resolved.diamond_card r = Some c /\
    Resolved.bids r = b /\
    map Player.hand ps = map Player.hand (Game.players g) /\
    ((b = [] /\
      Resolved.result_type r = Resolved.no_bids /\
      Resolved.winner r = None /\ Resolved.carry_forward r = false /\
      ps = Game.players g)
     \/
     (length b = 1%nat /\
      Resolved.result_type r = Resolved.insufficient_bids /\
      Resolved.winner r = None /\ Resolved.carry_forward r = false /\
      ps = Game.players g)
     \/
     (exists w,
        In w (map fst b) /\
        Resolved.result_type r = Resolved.of_enum Resolved.WINNER_DETERMINED /\
        Resolved.winner r = Some w /\ Resolved.carry_forward r = false /\
        ps = modify w (Player.add_won_card c) (Game.players g))
     \/
     (exists tied,
        (2 <= length tied)%nat /\
        Resolved.result_type r = Resolved.of_enum Resolved.TIE_SPLIT /\
        Resolved.winner r = None /\ Resolved.carry_forward r = false /\
        Resolved.tied_players r = Some tied /\
        Resolved.split_values r
        = map (fun player => (player, Auction.split_value_of c (length tied))) tied /\
        Game.award_split (Some c) (Resolved.split_values r) (Game.players g) = Ok ps)
     \/
     (Resolved.result_type r = Resolved.of_enum Resolved.TIE_CARRY_FORWARD /\
      Resolved.winner r = None /\ Resolved.carry_forward r = true /\
      ps = Game.players g)) /\
    let rr := Round.make n (Some c) b (Some r) (Resolved.winner r)
                (Resolved.carry_forward r) false in
    Game.play_round make_bid g
    = Ok (Game.round rr,
          Game.make (Game.remove_bid_cards b ps) (Game.auction_suits g) (Game.deck g2)
            (Auction.make (Some c) [] (Auction.tie_handling_method (Game.auction g)) n)
            n (Game.max_rounds g) false
            (Game.carry_forward_diamonds g2
             ++ (if Resolved.carry_forward r then [c] else []))
            (Game.tie_handling g) (Game.game_history g ++ [rr])).
Proof.
  intros Hover Hend Hget n b a.
  destruct (resolve_auction_cases a c eq_refl) as (r & Hr & Hd & Hb & Hcases).
  assert (Hget' : Game.get_auction_card (Game.with_round_number n g)
                  = (Some c, Game.with_round_number n g2)).
  { revert Hget. unfold Game.get_auction_card. simpl.
    destruct (Game.carry_forward_diamonds g).
    - destruct (Deck.draw_card (Game.deck g)). intros [= <- <-]. reflexivity.
    - intros [= <- <-]. reflexivity. }
  pose proof (get_auction_card_frame _ _ _ Hget) as Hframe.
  assert (Hplay : forall ps,
    Game.process_auction_results r (Game.players g) = Ok ps ->
    Game.play_round make_bid g
    = (result_and_game <-
         match Resolved.winner r with
         | Some w =>
             Ok (Round.make n (Some c) b (Some r) (Some w) false false,
                 Game.with_players ps
                   (Game.with_auction a (Game.with_round_number n g2)))
         | None =>
             if Resolved.carry_forward r then
               d <- Game.the_card (Resolved.diamond_card r) ;;
               Ok (Round.make n (Some c) b (Some r) None true false,
                   Game.with_carry_forward_diamonds
                     (Game.carry_forward_diamonds g2 ++ [d])
                     (Game.with_players ps
                        (Game.with_auction a (Game.with_round_number n g2))))
             else
               Ok (Round.make n (Some c) b (Some r) None false false,
                   Game.with_players ps
                     (Game.with_auction a (Game.with_round_number n g2)))
         end ;;
       let '(round_result, g') := result_and_game in
       Ok (Game.round round_result,
           Game.with_game_history (Game.game_history g' ++ [round_result])
             (Game.with_auction (Auction.clear_bids (Game.auction g'))
                (Game.with_players
                   (Game.remove_bid_cards (Resolved.bids r) (Game.players g')) g'))))).
  { intros ps Hps. unfold Game.play_round. rewrite Hover.
    change (Game.should_end_game (Game.with_round_number (S (Game.round_number g)) g))
      with (Game.should_end_game g).
    rewrite Hend. fold n. rewrite Hget'.
    unfold Game.collect_bids.
    rewrite collect_bids_from_answers by (simpl; intros k []).
    rewrite Hframe. simpl. fold n. fold b. fold a.
    rewrite Hr. simpl. rewrite Hps. simpl. reflexivity. }
  rewrite Hd, Hb in Hplay.
  assert (Hps : exists ps,
    Game.process_auction_results r (Game.players g) = Ok ps /\
    map Player.hand ps = map Player.hand (Game.players g) /\
    ((b = [] /\
      Resolved.result_type r = Resolved.no_bids /\
      Resolved.winner r = None /\ Resolved.carry_forward r = false /\
      ps = Game.players g)
     \/
     (length b = 1%nat /\
      Resolved.result_type r = Resolved.insufficient_bids /\
      Resolved.winner r = None /\ Resolved.carry_forward r = false /\
      ps = Game.players g)
     \/
     (exists w,
        In w (map fst b) /\
        Resolved.result_type r = Resolved.of_enum Resolved.WINNER_DETERMINED /\
        Resolved.winner r = Some w /\ Resolved.carry_forward r = false /\
        ps = modify w (Player.add_won_card c) (Game.players g))
     \/
     (exists tied,
        (2 <= length tied)%nat /\
        Resolved.result_type r = Resolved.of_enum Resolved.TIE_SPLIT /\
        Resolved.winner r = None /\ Resolved.carry_forward r = false /\
        Resolved.tied_players r = Some tied /\
        Resolved.split_values r
        = map (fun player => (player, Auction.split_value_of c (length tied))) tied /\
        Game.award_split (Some c) (Resolved.split_values r) (Game.players g) = Ok ps)
     \/
     (Resolved.result_type r = Resolved.of_enum Resolved.TIE_CARRY_FORWARD /\
      Resolved.winner r = None /\ Resolved.carry_forward r = true /\
      ps = Game.players g))).
  { unfold Game.process_auction_results. simpl in Hcases.
    destruct Hcases as [(Hb0 & Ht & Hw & Hc & _)|[(Hb1 & Ht & Hw & Hc & _)
                       |[(w & Hin & Ht & Hw & Hc)
                       |[(tied & Hlen & Ht & Hw & Hc & Htp & Hsv)|(Ht & Hw & Hc)]]]];
      rewrite Ht; simpl.
    - exists (Game.players g). split; [reflexivity|]. split; [reflexivity|].
      left. repeat split; assumption.
    - exists (Game.players g). split; [reflexivity|]. split; [reflexivity|].
      right. left. repeat split; assumption.
    - rewrite Hw, Hd. simpl. eexists. split; [reflexivity|].
      split; [apply map_modify_fixed; reflexivity|].
      right. right. left. exists w. repeat split; assumption.
    - rewrite Hd.
      destruct (award_split_total c (Resolved.split_values r) (Game.players g))
        as (ps & Hps & Hh & _).
      exists ps. split; [exact Hps|]. split; [exact Hh|].
      right. right. right. left. exists tied. repeat split; assumption.
    - exists (Game.players g). split; [reflexivity|]. split; [reflexivity|].
      right. right. right. right. repeat split; assumption. }
  destruct Hps as (ps & Hps & Hhands & Hcases').
  exists r, ps.
  split; [exact Hr|]. split; [exact Hps|]. split; [exact Hd|]. split; [exact Hb|].
  split; [exact Hhands|]. split; [exact Hcases'|].
  cbv zeta. rewrite (Hplay ps Hps).
  assert (Hwc : Resolved.winner r = None \/ Resolved.carry_forward r = false).
  { destruct Hcases as [(_ & _ & Hw & _)|[(_ & _ & Hw & _)|[(w & _ & _ & _ & Hc)
                       |[(tied & _ & _ & Hw & _)|(_ & Hw & _)]]]]; auto. }
  clear Hplay Hget' Hcases Hcases' Hps Hhands Hr Hget Hend. subst a.
  destruct g2 as [ps2 suits2 dk2 au2 rn2 mr2 over2 q2 th2 hist2].
  simpl in Hframe. injection Hframe as -> -> -> -> -> -> -> ->.
  clearbody b n.
  unfold Game.with_game_history, Game.with_auction, Game.with_players,
    Game.with_round_number, Game.with_carry_forward_diamonds, Auction.clear_bids.
  destruct (Resolved.winner r) as [w|]; destruct (Resolved.carry_forward r);
    simpl; rewrite ?Hover, ?app_nil_r; try reflexivity.
  destruct Hwc; discriminate.
Qed.

Lemma should_end_game_hands (g : Game.t) :
  Game.should_end_game g = true <->
  forall p, In p (Game.players g) -> Player.hand p = [].
Proof.
  unfold Game.should_end_game. rewrite forallb_forall.
  split; intros H p Hp; specialize (H p Hp); unfold Player.has_cards in *;
    destruct (Player.hand p); simpl in *; congruence.
Qed.

Lemma play_round_no_hands (g : Game.t) :
  Game.game_over g = false ->
  Game.should_end_game g = true ->
  let n := S (Game.round_number g) in
  Game.play_round make_bid g
  = Ok (Game.round (Round.make n None [] None None false true),
        Game.with_game_over true (Game.with_round_number n g)).
Proof.
  intros Hover Hend n. unfold Game.play_round. rewrite Hover.
  change (Game.should_end_game (Game.with_round_number (S (Game.round_number g)) g))
    with (Game.should_end_game g).
  rewrite Hend. reflexivity.
Qed.

Lemma get_auction_card_none (g : Game.t) :
  fst (Game.get_auction_card g) = None <->
  Game.carry_forward_diamonds g = [] /\ Deck.cards (Game.deck g) = [].
Proof.
  unfold Game.get_auction_card.
  destruct (Game.carry_forward_diamonds g) as [|c q].
  - pose proof (draw_card_none (Game.deck g)) as Hn.
    destruct (Deck.draw_card (Game.deck g)) as [c d]. simpl in *.
    rewrite Hn. intuition.
  - simpl. split; [discriminate | intros [H _]; discriminate H].
Qed.

Lemma play_round_no_supply (g : Game.t) :
  Game.game_over g = false ->
  Game.should_end_game g = false ->
  fst (Game.get_auction_card g) = None ->
  let n := S (Game.round_number g) in
  Game.play_round make_bid g
  = Ok (Game.round (Round.make n None [] None None false true),
        Game.with_game_over true (Game.with_round_number n g)).
Proof.
  intros Hover Hend Hnone n. unfold Game.play_round. rewrite Hover.
  change (Game.should_end_game (Game.with_round_number (S (Game.round_number g)) g))
    with (Game.should_end_game g).
  rewrite Hend. fold n.
  apply get_auction_card_none in Hnone. destruct Hnone as [Hq Hd].
  destruct g as [ps suits [l] au rn mr over q th hist].
  simpl in Hq, Hd. subst q l. reflexivity.
Qed.

End Rounds.

(** ** The end of the game *)

(** C8.  A round of a game that is not over sets the game-over flag
    exactly when every hand is empty, whatever is left in the pile and the
    queue, or when the queue and the pile are both empty, whatever is left
    in the hands.  The flag of the returned dictionary is the flag of the
    game. *)
Theorem play_round_sets_game_over
    (make_bid : nat -> Player.t -> option Card.t -> Game.bid_state -> option Card.t)
    (g : Game.t) :
  Game.game_over g = false ->
  exists rr g',
    Game.play_round make_bid g = Ok (Game.round rr, g') /\
    Round.game_over rr = Game.game_over g' /\
    (Game.game_over g' = true <->
     (forall p, In p (Game.players g) -> Player.hand p = []) \/
     (Game.carry_forward_diamonds g = [] /\ Deck.cards (Game.deck g) = [])).
Proof.
  intros Hover.
  destruct (Game.should_end_game g) eqn:Hend.
  - rewrite (play_round_no_hands make_bid g Hover Hend).
    eexists. eexists. split; [reflexivity|]. simpl. split; [reflexivity|].
    split; [|reflexivity]. intros _. left. apply should_end_game_hands. exact Hend.
  - destruct (Game.get_auction_card g) as [[c|] g2] eqn:Hget.
    + destruct (play_round_played make_bid g g2 c Hover Hend Hget)
        as (r & ps & _ & _ & _ & _ & _ & _ & Hplay).
      cbv zeta in Hplay. rewrite Hplay.
      eexists. eexists. split; [reflexivity|]. simpl. split; [reflexivity|].
      split; [discriminate|].
      intros [Hhands|Hsupply].
      * apply should_end_game_hands in Hhands. congruence.
      * apply get_auction_card_none in Hsupply. rewrite Hget in Hsupply. discriminate.
    + assert (Hnone : fst (Game.get_auction_card g) = None) by (rewrite Hget; reflexivity).
      rewrite (play_round_no_supply make_bid g Hover Hend Hnone).
      eexists. eexists. split; [reflexivity|]. simpl. split; [reflexivity|].
      split; [|reflexivity]. intros _. right. apply get_auction_card_none. exact Hnone.
Qed.

Lemma play_round_sets_game_over_witness :
  let g := Sample.late in
  let make_bid := Sample.typed (fun _ => Some Card.FIVE) in
  Game.game_over g = false /\
  exists rr g',
    Game.play_round make_bid g = Ok (Game.round rr, g') /\
    Round.game_over rr = Game.game_over g' /\
    (Game.game_over g' = true <->
     (forall p, In p (Game.players g) -> Player.hand p = []) \/
     (Game.carry_forward_diamonds g = [] /\ Deck.cards (Game.deck g) = [])).
Proof.
  intros g make_bid.
  assert (H : Game.game_over g = false) by reflexivity.
  split; [exact H|].
  exact (play_round_sets_game_over make_bid g H).
Defined.

(** ** Rounds without a contest *)

(** A round with a resolution is a round played to its end. *)
Lemma play_round_resolved_inv
    (make_bid : nat -> Player.t -> option Card.t -> Game.bid_state -> option Card.t)
    (g g' : Game.t) (rr : Round.t) (r : Resolved.t) :
  Game.play_round make_bid g = Ok (Game.round rr, g') ->
  Round.result rr = Some r ->
  Game.game_over g = false /\ Game.should_end_game g = false /\
  exists c g2, Game.get_auction_card g = (Some c, g2).
Proof.
  intros Hplay Hres.
  destruct (Game.game_over g) eqn:Hover.
  - rewrite (play_round_after_over_aux make_bid g Hover) in Hplay. discriminate Hplay.
  - destruct (Game.should_end_game g) eqn:Hend.
    + rewrite (play_round_no_hands make_bid g Hover Hend) in Hplay.
      injection Hplay as <- _. discriminate Hres.
    + destruct (Game.get_auction_card g) as [[c|] g2] eqn:Hget; [eauto|].
      assert (Hnone : fst (Game.get_auction_card g) = None) by (rewrite Hget; reflexivity).
      rewrite (play_round_no_supply make_bid g Hover Hend Hnone) in Hplay.
      injection Hplay as <- _. discriminate Hres.
Qed.

(** C5.  With no bid in the map [resolve_auction] answers ['no_bids'] and
    with one bid ['insufficient_bids'], with no winner, nothing awarded and
    nothing carried forward, and [_process_auction_results] changes no
    participant.  In a round of the game that ends so, no won-card list
    changes, and pile and queue stay as the draw of the revealed card left
    them: the card is returned to neither; with no bid no hand changes
    either. *)
Theorem round_without_contest
    (make_bid : nat -> Player.t -> option Card.t -> Game.bid_state -> option Card.t) :
  (forall (a : Auction.t) (ps : list Player.t),
      (length (Auction.bids a) <= 1)%nat ->
      exists r,
        Auction.resolve_auction a = Ok r /\
        Resolved.result_type r
        = (if (length (Auction.bids a) =? 0)%nat
           then Resolved.no_bids else Resolved.insufficient_bids) /\
        Resolved.winner r = None /\
        Resolved.diamond_awarded r = false /\
        Resolved.carry_forward r = false /\
        Game.process_auction_results r ps = Ok ps)
  /\
  (forall (g g' : Game.t) (rr : Round.t) (r : Resolved.t),
      Game.play_round make_bid g = Ok (Game.round rr, g') ->
      Round.result rr = Some r ->
      (length (Round.bids rr) <= 1)%nat ->
      exists c g2,
        Game.get_auction_card g = (Some c, g2) /\
        Round.diamond_card rr = Some c /\
        Resolved.result_type r
        = (if (length (Round.bids rr) =? 0)%nat
           then Resolved.no_bids else Resolved.insufficient_bids) /\
        Round.winner rr = None /\
        Round.carry_forward rr = false /\
        Resolved.diamond_awarded r = false /\
        map Player.won_cards (Game.players g') = map Player.won_cards (Game.players g) /\
        Game.deck g' = Game.deck g2 /\
        Game.carry_forward_diamonds g' = Game.carry_forward_diamonds g2 /\
        (Round.bids rr = [] -> Game.players g' = Game.players g)).
Proof.
  split.
  - intros a ps Hlen.
    destruct (resolve_without_contest a ps Hlen) as (r & Hr & Ht & Hw & Ha & Hc & _ & Hp).
    exists r. repeat split; assumption.
  - intros g g' rr r Hplay Hres Hlen.
    destruct (play_round_resolved_inv make_bid g g' rr r Hplay Hres)
      as (Hover & Hend & c & g2 & Hget).
    exists c, g2. split; [exact Hget|].
    destruct (play_round_played make_bid g g2 c Hover Hend Hget)
      as (r0 & ps & Hr0 & Hps & _ & _ & _ & _ & Hplay0).
    cbv zeta in Hplay0. rewrite Hplay0 in Hplay. clear Hplay0.
    injection Hplay as <- <-. simpl in Hres, Hlen |- *. injection Hres as ->.
    match type of Hr0 with Auction.resolve_auction ?a = _ =>
      destruct (resolve_without_contest a (Game.players g) Hlen)
        as (r1 & Hr1 & Ht & Hw & Ha & Hc & _ & Hp)
    end.
    rewrite Hr0 in Hr1. injection Hr1 as <-.
    rewrite Hp in Hps. injection Hps as <-.
    simpl in Ht. rewrite Hc, app_nil_r.
    repeat split; try assumption.
    + apply remove_bid_cards_won.
    + intros ->. reflexivity.
Qed.

Lemma round_without_contest_witness :
  let make_bid := Sample.typed (fun _ => Some Card.FIVE) in
  let a := Auction.make (Some (Card.make Card.DIAMONDS Card.NINE))
             [(1%nat, Card.make Card.CLUBS Card.FIVE)] "split" 13 in
  let ps := Game.players Sample.late in
  (length (Auction.bids a) <= 1)%nat /\
  exists r,
    Auction.resolve_auction a = Ok r /\
    Resolved.result_type r
    = (if (length (Auction.bids a) =? 0)%nat
       then Resolved.no_bids else Resolved.insufficient_bids) /\
    Resolved.winner r = None /\
    Resolved.diamond_awarded r = false /\
    Resolved.carry_forward r = false /\
    Game.process_auction_results r ps = Ok ps.
Proof.
  intros make_bid a ps.
  assert (H : (length (Auction.bids a) <= 1)%nat) by (simpl; lia).
  split; [exact H|].
  exact (proj1 (round_without_contest make_bid) a ps H).
Defined.

(** ** Where the cards go in a round *)

Lemma won_after_award (w : nat) (c : Card.t) (ps : list Player.t) :
  (w < length ps)%nat ->
  Permutation (concat (map Player.won_cards (modify w (Player.add_won_card c) ps)))
              (c :: concat (map Player.won_cards ps)).
Proof.
  revert w. induction ps as [|p ps IH]; intros w Hw; simpl in Hw; [lia|].
  destruct w as [|w]; simpl.
  - rewrite <- app_assoc. simpl. symmetry. apply Permutation_middle.
  - rewrite IH by lia. symmetry. apply Permutation_middle.
Qed.

Lemma get_auction_card_supply (g g2 : Game.t) (c : Card.t) :
  Game.get_auction_card g = (Some c, g2) ->
  Permutation (Ledger.in_supply g) (c :: Ledger.in_supply g2).
Proof.
  unfold Game.get_auction_card, Ledger.in_supply.
  destruct (Game.carry_forward_diamonds g) as [|x q] eqn:Hq.
  - destruct (Game.deck g) as [l]. destruct (rev l) as [|top below] eqn:Hl.
    + assert (l = []) as -> by (rewrite <- (rev_involutive l), Hl; reflexivity).
      simpl. discriminate.
    + assert (l = rev below ++ [top]) as ->
        by (rewrite <- (rev_involutive l), Hl; reflexivity).
      rewrite draw_card_last. intros [= <- <-]. simpl. rewrite Hq, !app_nil_r.
      symmetry. apply Permutation_cons_append.
  - intros [= <- <-]. simpl. symmetry. apply Permutation_middle.
Qed.

(** What [list.remove] does to a hand: nothing, or one card less. *)
Lemma list_remove_hand (c : Card.t) (l : list Card.t) :
  snd (list_remove c l) = l \/
  exists pre c' post, l = pre ++ c' :: post /\ snd (list_remove c l) = pre ++ post.
Proof.
  destruct (list_remove_cases c l) as [(pre & c' & post & Hl & _ & _ & Hr)|[_ Hr]];
    rewrite Hr; simpl; [right; eauto | left; reflexivity].
Qed.

Section PlayedRound.

Variable make_bid : nat -> Player.t -> option Card.t -> Game.bid_state -> option Card.t.

(** The hands after a round played to its end: every participant whose
    bid was recorded had [remove_card] called with it, once. *)
Lemma played_round_hands (g g' : Game.t) (rr : Round.t) (r : Resolved.t) :
  Game.play_round make_bid g = Ok (Game.round rr, g') ->
  Round.result rr = Some r ->
  exists c,
    Round.diamond_card rr = Some c /\
    Round.bids rr
    = Ledger.answers_from make_bid 0 (Game.players g) (Some c)
        (Game.make_bid_state (S (Game.round_number g)) (Game.players g)
           (Game.game_history g)) /\
    length (Game.players g') = length (Game.players g) /\
    forall i p,
      nth_error (Game.players g) i = Some p ->
      exists p',
        nth_error (Game.players g') i = Some p' /\
        Player.hand p'
        = match Auction.get_bid i (Round.bids rr) with
          | Some bid => snd (list_remove bid (Player.hand p))
          | None => Player.hand p
          end.
Proof.
  intros Hplay Hres.
  destruct (play_round_resolved_inv make_bid g g' rr r Hplay Hres)
    as (Hover & Hend & c & g2 & Hget).
  destruct (play_round_played make_bid g g2 c Hover Hend Hget)
    as (r0 & ps & _ & _ & _ & _ & Hhands & _ & Hplay0).
  cbv zeta in Hplay0. rewrite Hplay0 in Hplay. clear Hplay0.
  injection Hplay as <- <-. simpl.
  exists c. split; [reflexivity|]. split; [reflexivity|].
  set (b := Ledger.answers_from make_bid 0 (Game.players g) (Some c) _).
  assert (Hlen : length ps = length (Game.players g)).
  { rewrite <- (length_map Player.hand ps), Hhands. apply length_map. }
  split; [rewrite remove_bid_cards_length; exact Hlen|].
  intros i p Hp.
  rewrite remove_bid_cards_nth by apply answers_keys_distinct.
  assert (Hp0 : exists p0, nth_error ps i = Some p0 /\ Player.hand p0 = Player.hand p).
  { pose proof (f_equal (fun l => nth_error l i) Hhands) as E. simpl in E.
    rewrite !nth_error_map, Hp in E.
    destruct (nth_error ps i) as [p0|]; [|discriminate E].
    exists p0. split; [reflexivity|]. simpl in E. congruence. }
  destruct Hp0 as (p0 & -> & Hh). simpl.
  eexists. split; [reflexivity|].
  destruct (Auction.get_bid i b) as [bid|]; [|exact Hh].
  rewrite remove_card_hand, Hh. reflexivity.
Qed.

End PlayedRound.

(** ** A bid that is not in the hand *)

(** C3, as amended.  The card a strategy answers with is recorded as the
    bid of the participant without a look at the hand, and takes part in
    the resolution.  After the round the hand is the hand before with the
    first card of the rank of the bid taken out: it is unchanged when no
    card of the hand has that rank, and a card of that rank under another
    suit is the one that goes. *)
Theorem bid_recorded_unchecked
    (make_bid : nat -> Player.t -> option Card.t -> Game.bid_state -> option Card.t)
    (g g' : Game.t) (rr : Round.t) (r : Resolved.t)
    (i : nat) (p : Player.t) (bid : Card.t) :
  Game.play_round make_bid g = Ok (Game.round rr, g') ->
  Round.result rr = Some r ->
  nth_error (Game.players g) i = Some p ->
  Player.has_cards p = true ->
  make_bid i p (Round.diamond_card rr)
    (Game.make_bid_state (S (Game.round_number g)) (Game.players g) (Game.game_history g))
  = Some bid ->
  Auction.get_bid i (Round.bids rr) = Some bid /\
  Auction.get_bid i (Resolved.bids r) = Some bid /\
  exists p',
    nth_error (Game.players g') i = Some p' /\
    Player.hand p' = snd (list_remove bid (Player.hand p)) /\
    ((forall x, In x (Player.hand p) -> Card.rank x <> Card.rank bid) ->
     Player.hand p' = Player.hand p) /\
    (forall pre x post,
        Player.hand p = pre ++ x :: post ->
        Card.rank x = Card.rank bid ->
        (forall y, In y pre -> Card.rank y <> Card.rank bid) ->
        Player.hand p' = pre ++ post).
Proof.
  intros Hplay Hres Hp Hcards Hbid.
  destruct (played_round_hands make_bid g g' rr r Hplay Hres)
    as (c & Hc & Hb & _ & Hhands).
  assert (Hrec : Auction.get_bid i (Round.bids rr) = Some bid).
  { rewrite Hb. rewrite (get_bid_answers make_bid 0 i _ _ _ p Hp). simpl.
    rewrite Hcards, <- Hc. exact Hbid. }
  assert (Hrb : Resolved.bids r = Round.bids rr).
  { destruct (play_round_resolved_inv make_bid g g' rr r Hplay Hres)
      as (Hover & Hend & c0 & g2 & Hget).
    destruct (play_round_played make_bid g g2 c0 Hover Hend Hget)
      as (r0 & ps & _ & _ & _ & Hb0 & _ & _ & Hplay0).
    cbv zeta in Hplay0. rewrite Hplay0 in Hplay. injection Hplay as <- _.
    simpl in Hres. injection Hres as <-. exact Hb0. }
  split; [exact Hrec|]. split; [rewrite Hrb; exact Hrec|].
  destruct (Hhands i p Hp) as (p' & Hp' & Hh). rewrite Hrec in Hh.
  exists p'. split; [exact Hp'|]. split; [exact Hh|]. split.
  - intros Habs. rewrite Hh, (list_remove_absent bid _ Habs). reflexivity.
  - intros pre x post Hsplit Hx Hpre.
    rewrite Hh, Hsplit, (list_remove_first bid pre post x Hx Hpre). reflexivity.
Qed.

(** The first participant answers with the king of spades, a card of no
    hand: the bid is recorded and wins the ace of diamonds, and the king of
    hearts leaves the hand. *)
Lemma bid_recorded_unchecked_witness :
  let g := Sample.opening "split" in
  let p := Sample.dealt "Human 1" Card.HEARTS in
  let bid := Card.make Card.SPADES Card.KING in
  exists rr g' r,
    Game.play_round Sample.off_hand g = Ok (Game.round rr, g') /\
    Round.result rr = Some r /\
    Auction.get_bid 0 (Round.bids rr) = Some bid /\
    Auction.get_bid 0 (Resolved.bids r) = Some bid /\
    exists p',
      nth_error (Game.players g') 0 = Some p' /\
      Player.hand p' = snd (list_remove bid (Player.hand p)) /\
      ((forall x, In x (Player.hand p) -> Card.rank x <> Card.rank bid) ->
       Player.hand p' = Player.hand p) /\
      (forall pre x post,
          Player.hand p = pre ++ x :: post ->
          Card.rank x = Card.rank bid ->
          (forall y, In y pre -> Card.rank y <> Card.rank bid) ->
          Player.hand p' = pre ++ post).
Proof.
  intros g p bid.
  eexists. eexists. eexists.
  split; [vm_compute; reflexivity|]. split; [reflexivity|].
  apply (bid_recorded_unchecked Sample.off_hand g _ _ _ 0 p bid);
    reflexivity.
Defined.

(** C3, as stated, fails: a card that is in no hand is recorded as a bid
    and wins the auction, and the hand of the bidder loses another card,
    the king of hearts. *)
Lemma unchecked_bid_counterexample :
  let g := Sample.opening "split" in
  let p := Sample.dealt "Human 1" Card.HEARTS in
  let bid := Card.make Card.SPADES Card.KING in
  let st := Game.make_bid_state 1 (Game.players g) (Game.game_history g) in
  nth_error (Game.players g) 0 = Some p /\
  Sample.off_hand 0 p (Some (Card.make Card.DIAMONDS Card.ACE)) st = Some bid /\
  ~ In bid (Player.hand p) /\
  exists rr g' p',
    Game.play_round Sample.off_hand g = Ok (Game.round rr, g') /\
    Auction.get_bid 0 (Round.bids rr) = Some bid /\
    Round.winner rr = Some 0%nat /\
    nth_error (Game.players g') 0 = Some p' /\
    Player.hand p' <> Player.hand p /\
    In (Card.make Card.HEARTS Card.KING) (Player.hand p) /\
    ~ In (Card.make Card.HEARTS Card.KING) (Player.hand p').
Proof.
  intros g p bid st.
  split; [reflexivity|]. split; [reflexivity|].
  split.
  { intros H. vm_compute in H. repeat (destruct H as [H|H]; [discriminate H|]). exact H. }
  eexists. eexists. eexists.
  split; [vm_compute; reflexivity|].
  split; [reflexivity|]. split; [reflexivity|]. split; [reflexivity|].
  split; [discriminate|].
  split.
  { vm_compute. tauto. }
  intros H. vm_compute in H. repeat (destruct H as [H|H]; [discriminate H|]). exact H.
Qed.

(** ** Conservation of the cards *)

(** C1, as amended.  [play_round] always returns, and in every round:
    - each hand is the hand before, or the hand before without one card
      (the bid is discarded, it goes to no pile);
    - after the error answer the game is unchanged, and a round that ends
      the game moves no card;
    - in a round with a winner or a carried-forward tie the cards of the
      pile, the queue and the won-card lists are the same cards as before:
      the revealed card went from the supply to the won cards of the winner
      or to the back of the queue;
    - in a round with no bid or one bid the revealed card leaves the
      supply and is nowhere afterwards.
    Nothing is said of a round with a split tie. *)
Theorem auction_cards_accounted
    (make_bid : nat -> Player.t -> option Card.t -> Game.bid_state -> option Card.t)
    (g : Game.t) :
  exists res g',
    Game.play_round make_bid g = Ok (res, g') /\
    length (Game.players g') = length (Game.players g) /\
    (forall i p,
        nth_error (Game.players g) i = Some p ->
        exists p',
          nth_error (Game.players g') i = Some p' /\
          (Player.hand p' = Player.hand p \/
           exists pre c post,
             Player.hand p = pre ++ c :: post /\ Player.hand p' = pre ++ post)) /\
    match res with
    | Game.error _ => g' = g
    | Game.round rr =>
        match Round.result rr with
        | None =>
            Game.players g' = Game.players g /\
            Game.deck g' = Game.deck g /\
            Game.carry_forward_diamonds g' = Game.carry_forward_diamonds g
        | Some r =>
            match Resolved.result_type r with
            | Resolved.of_enum Resolved.WINNER_DETERMINED
            | Resolved.of_enum Resolved.TIE_CARRY_FORWARD =>
                Permutation (Ledger.in_supply g ++ Ledger.in_won g)
                            (Ledger.in_supply g' ++ Ledger.in_won g')
            | Resolved.no_bids | Resolved.insufficient_bids =>
                exists c,
                  Round.diamond_card rr = Some c /\
                  Permutation (Ledger.in_supply g ++ Ledger.in_won g)
                              (c :: Ledger.in_supply g' ++ Ledger.in_won g')
            | Resolved.of_enum Resolved.TIE_SPLIT => True
            end
        end
    end.
Proof.
  assert (Hsame : forall i p, nth_error (Game.players g) i = Some p ->
    exists p', nth_error (Game.players g) i = Some p' /\
      (Player.hand p' = Player.hand p \/
       exists pre c post,
         Player.hand p = pre ++ c :: post /\ Player.hand p' = pre ++ post)).
  { intros i p Hp. exists p. split; [exact Hp | left; reflexivity]. }
  destruct (Game.game_over g) eqn:Hover.
  { rewrite (play_round_after_over_aux make_bid g Hover).
    eexists. eexists. split; [reflexivity|]. repeat split. exact Hsame. }
  destruct (Game.should_end_game g) eqn:Hend.
  { rewrite (play_round_no_hands make_bid g Hover Hend).
    eexists. eexists. split; [reflexivity|]. simpl. repeat split. exact Hsame. }
  destruct (Game.get_auction_card g) as [[c|] g2] eqn:Hget.
  2:{ assert (Hnone : fst (Game.get_auction_card g) = None) by (rewrite Hget; reflexivity).
      rewrite (play_round_no_supply make_bid g Hover Hend Hnone).
      eexists. eexists. split; [reflexivity|]. simpl. repeat split. exact Hsame. }
  destruct (play_round_played make_bid g g2 c Hover Hend Hget)
    as (r & ps & _ & _ & _ & _ & Hhands & Hcases & Hplay).
  cbv zeta in Hplay.
  eexists. eexists. split; [exact Hplay|].
  destruct (played_round_hands make_bid g _ _ r Hplay eq_refl)
    as (c' & _ & _ & Hlen & Hh).
  split; [exact Hlen|]. split.
  { intros i p Hp. destruct (Hh i p Hp) as (p' & Hp' & Hhand).
    exists p'. split; [exact Hp'|]. rewrite Hhand.
    destruct (Auction.get_bid i _) as [bid|]; [apply list_remove_hand | left; reflexivity]. }
  pose proof (get_auction_card_supply g g2 c Hget) as Hsupply.
  clear Hplay Hh Hlen. simpl.
  set (b := Ledger.answers_from make_bid 0 (Game.players g) (Some c) _) in *.
  unfold Ledger.in_supply, Ledger.in_won in *. simpl.
  rewrite remove_bid_cards_won.
  destruct Hcases as [(_ & Ht & _ & Hc & ->)|[(_ & Ht & _ & Hc & ->)
                     |[(w & Hin & Ht & _ & Hc & ->)
                     |[(tied & _ & Ht & _)|(Ht & _ & Hc & ->)]]]];
    rewrite Ht; try exact I; rewrite Hc, ?app_nil_r.
  - exists c. split; [reflexivity|]. rewrite Hsupply. reflexivity.
  - exists c. split; [reflexivity|]. rewrite Hsupply. reflexivity.
  - assert (Hw : (w < length (Game.players g))%nat).
    { apply answers_keys_range in Hin. lia. }
    rewrite (won_after_award w c _ Hw), Hsupply. simpl. apply Permutation_middle.
  - rewrite Hsupply. simpl. rewrite <- !app_assoc. simpl. rewrite !app_assoc.
    apply Permutation_middle.
Qed.

(** C1, as stated, fails: in the first round of a two-player game the ace
    of hearts wins the ace of diamonds against the two of clubs; both bid
    cards are discarded and thirty-seven of the thirty-nine cards are
    left. *)
Lemma card_conservation_counterexample :
  let g := Sample.opening "split" in
  exists rr g',
    Game.play_round (Sample.typed Sample.ace_against_two) g = Ok (Game.round rr, g') /\
    Round.winner rr = Some 0%nat /\
    length (Ledger.all_cards g) = 39%nat /\
    length (Ledger.all_cards g') = 37%nat /\
    ~ Permutation (Ledger.all_cards g) (Ledger.all_cards g').
Proof.
  intros g. eexists. eexists.
  split; [vm_compute; reflexivity|].
  split; [reflexivity|]. split; [reflexivity|]. split; [reflexivity|].
  intros H. apply Permutation_length in H. vm_compute in H. discriminate H.
Qed.

(** ** A split tie *)

(** C2 on the code.  Two kings are bid for the ace of diamonds under the
    split policy.  The resolution holds the credit 14/2 for each of the two
    tied participants, but [_process_auction_results] appends the ace
    itself to the won cards of both, and [get_score] counts 14 for each:
    28 points are credited for a card worth 14. *)
Theorem split_tie_scores_whole_card :
  let g := Sample.opening "split" in
  let ace := Card.make Card.DIAMONDS Card.ACE in
  exists rr g' r,
    Game.play_round (Sample.typed Sample.both_kings) g = Ok (Game.round rr, g') /\
    Round.diamond_card rr = Some ace /\
    Card.get_numeric_value ace = 14 /\
    Round.result rr = Some r /\
    Resolved.result_type r = Resolved.of_enum Resolved.TIE_SPLIT /\
    Resolved.tied_players r = Some [0%nat; 1%nat] /\
    Resolved.split_values r = [(0%nat, (14 # 2)%Q); (1%nat, (14 # 2)%Q)] /\
    map Player.won_cards (Game.players g') = [[ace]; [ace]] /\
    Game.get_game_scores g = [0; 0] /\
    Game.get_game_scores g' = [14; 14].
Proof.
  intros g ace. eexists. eexists. eexists.
  split; [vm_compute; reflexivity|].
  repeat split.
Qed.

(** * Further properties *)

(** ** The deck *)

Lemma draw_cards_loop_top (k : nat) (m : list Card.t) (acc : list (option Card.t)) :
  (k <= length m)%nat ->
  DeckOps.draw_cards_loop k (Deck.make (rev m)) acc
  = (acc ++ map Some (firstn k m), Deck.make (rev (skipn k m))).
Proof.
  revert m acc. induction k as [|k IH]; intros m acc Hk; simpl.
  - rewrite app_nil_r. reflexivity.
  - destruct m as [|c m]; simpl in Hk; [lia|].
    simpl rev. rewrite draw_card_last, IH by lia.
    simpl. rewrite <- app_assoc. reflexivity.
Qed.

Lemma draw_cards_top (count : Z) (d : Deck.t) :
  let k := Z.to_nat (Z.min count (Z.of_nat (Deck.size d))) in
  DeckOps.draw_cards count d
  = (map Some (firstn k (rev (Deck.cards d))),
     Deck.make (rev (skipn k (rev (Deck.cards d))))).
Proof.
  intros k. unfold DeckOps.draw_cards. fold (Deck.size d). fold k.
  destruct d as [l]. simpl Deck.cards.
  rewrite <- (rev_involutive l) at 1.
  rewrite draw_cards_loop_top; [reflexivity|].
  rewrite length_rev. unfold k, Deck.size. simpl. lia.
Qed.

(** X1.  [draw_cards] takes [min(count, size)] cards, none for a negative
    [count], from the top of the deck downwards; every one of them is a card
    and the deck keeps the cards below, in their order. *)
Theorem draw_cards_from_top (count : Z) (d : Deck.t) :
  let k := Z.to_nat (Z.min count (Z.of_nat (Deck.size d))) in
  DeckOps.draw_cards count d
  = (map Some (firstn k (rev (Deck.cards d))),
     Deck.make (rev (skipn k (rev (Deck.cards d)))))
  /\ (k <= Deck.size d)%nat
  /\ Deck.size (snd (DeckOps.draw_cards count d)) = (Deck.size d - k)%nat.
Proof.
  intros k. split; [apply draw_cards_top|].
  assert (Hk : (k <= Deck.size d)%nat) by (unfold k; lia).
  split; [exact Hk|].
  rewrite draw_cards_top. fold k. unfold Deck.size in *. simpl.
  rewrite length_rev, length_skipn, length_rev. reflexivity.
Qed.

(** X2.  The deck is a stack: cards added with [add_cards] come back from
    [draw_cards], the last one first, and the deck is then the deck it
    was. *)
Theorem add_cards_then_draw_cards (cs : list Card.t) (d : Deck.t) :
  DeckOps.draw_cards (Z.of_nat (length cs)) (DeckOps.add_cards cs d)
  = (map Some (rev cs), d).
Proof.
  rewrite draw_cards_top. cbv zeta. unfold Deck.size, DeckOps.add_cards. simpl.
  rewrite length_app, rev_app_distr.
  replace (Z.to_nat (Z.min (Z.of_nat (length cs))
                           (Z.of_nat (length (Deck.cards d) + length cs))))
    with (length (rev cs)) by (rewrite length_rev; lia).
  rewrite firstn_app, Nat.sub_diag, firstn_all, skipn_app, Nat.sub_diag, skipn_all.
  simpl. rewrite app_nil_r, rev_involutive. destruct d; reflexivity.
Qed.

Lemma contains_card_in (card : Card.t) (d : Deck.t) :
  DeckOps.contains_card card d = true <-> In card (Deck.cards d).
Proof.
  unfold DeckOps.contains_card. rewrite existsb_exists. split.
  - intros [c [Hin Hc]]. apply andb_prop in Hc. destruct Hc as [Hs Hr].
    assert (c = card) as <-; [|exact Hin].
    destruct c as [s r], card as [s' r']. simpl in *.
    unfold DeckOps.rank_eqb in Hr. apply Z.eqb_eq, rank_value_inj in Hr. subst r'.
    destruct s, s'; try discriminate Hs; reflexivity.
  - intros Hin. exists card. split; [exact Hin|].
    unfold DeckOps.rank_eqb. rewrite Z.eqb_refl, andb_true_r.
    destruct (Card.suit card); reflexivity.
Qed.

(** X3.  [Deck.remove_card] goes by rank while [contains_card] goes by suit
    and rank: it succeeds exactly when the deck has a card of the rank, and
    when the first such card is not the card asked for, that other card is
    taken out and the card asked for is still in the deck. *)
Theorem deck_remove_card_by_rank (card : Card.t) (d : Deck.t) :
  (fst (DeckOps.remove_card card d) = true <->
   exists x, In x (Deck.cards d) /\ Card.rank x = Card.rank card)
  /\
  (forall pre x post,
      Deck.cards d = pre ++ x :: post ->
      Card.rank x = Card.rank card ->
      (forall y, In y pre -> Card.rank y <> Card.rank card) ->
      DeckOps.remove_card card d = (true, Deck.make (pre ++ post)) /\
      (In card post ->
       DeckOps.contains_card card (snd (DeckOps.remove_card card d)) = true)).
Proof.
  split.
  - unfold DeckOps.remove_card.
    destruct (list_remove_cases card (Deck.cards d))
      as [(pre & c' & post & Hl & Hc' & _ & Hr)|[Habs Hr]]; rewrite Hr; simpl.
    + split; [intros _|reflexivity]. exists c'. split; [|exact Hc'].
      rewrite Hl. apply in_elt.
    + split; [discriminate|]. intros [x [Hin Hx]]. exfalso. exact (Habs x Hin Hx).
  - intros pre x post Hl Hx Hpre.
    assert (Hr : DeckOps.remove_card card d = (true, Deck.make (pre ++ post))).
    { unfold DeckOps.remove_card. rewrite Hl, (list_remove_first card pre post x Hx Hpre).
      reflexivity. }
    split; [exact Hr|]. intros Hin. rewrite Hr. simpl.
    apply contains_card_in. simpl. apply in_or_app. right. exact Hin.
Qed.

Lemma deck_remove_card_by_rank_witness :
  let five_d := Card.make Card.DIAMONDS Card.FIVE in
  let five_h := Card.make Card.HEARTS Card.FIVE in
  let d := Deck.make [Card.make Card.SPADES Card.TWO; five_d; five_h] in
  Deck.cards d = [Card.make Card.SPADES Card.TWO] ++ five_d :: [five_h] /\
  Card.rank five_d = Card.rank five_h /\
  DeckOps.remove_card five_h d
  = (true, Deck.make ([Card.make Card.SPADES Card.TWO] ++ [five_h])) /\
  (In five_h [five_h] ->
   DeckOps.contains_card five_h (snd (DeckOps.remove_card five_h d)) = true).
Proof.
  intros five_d five_h d.
  split; [reflexivity|]. split; [reflexivity|].
  apply (proj2 (deck_remove_card_by_rank five_h d)
               [Card.make Card.SPADES Card.TWO] five_d [five_h]).
  - reflexivity.
  - reflexivity.
  - intros y [<-|[]]. simpl. discriminate.
Defined.

Section SortedCards.

Let rising (a b : Card.t) : Prop := Card.value a <= Card.value b.

Lemma insert_card_perm (x : Card.t) (l : list Card.t) :
  Permutation (DeckOps.insert_card x l) (x :: l).
Proof.
  induction l as [|y l IH]; simpl; [reflexivity|].
  destruct (Card.lt y x); [|reflexivity].
  rewrite IH. apply perm_swap.
Qed.

Lemma sorted_cards_perm (l : list Card.t) : Permutation (DeckOps.sorted l) l.
Proof.
  induction l as [|x l IH]; simpl; [reflexivity|].
  rewrite insert_card_perm, IH. reflexivity.
Qed.

Lemma insert_card_rising (x : Card.t) (l : list Card.t) :
  StronglySorted rising l -> StronglySorted rising (DeckOps.insert_card x l).
Proof.
  induction 1 as [|y l Hs IH Hy]; simpl.
  - constructor; constructor.
  - unfold Card.lt. destruct (Z.ltb_spec (Card.value y) (Card.value x)) as [Hlt|Hge].
    + constructor; [exact IH|].
      apply (Permutation_Forall (Permutation_sym (insert_card_perm x l))).
      constructor; [unfold rising; lia | exact Hy].
    + constructor; [constructor; assumption|].
      constructor; [unfold rising; lia|].
      eapply Forall_impl; [|exact Hy]. intros z Hz. unfold rising in *. lia.
Qed.

Lemma sorted_cards_rising (l : list Card.t) : StronglySorted rising (DeckOps.sorted l).
Proof.
  induction l as [|x l IH]; simpl; [constructor | apply insert_card_rising, IH].
Qed.

Lemma filter_insert_card (v : Z) (x : Card.t) (l : list Card.t) :
  filter (fun c => Card.value c =? v) (DeckOps.insert_card x l)
  = filter (fun c => Card.value c =? v) (x :: l).
Proof.
  induction l as [|y l IH]; [reflexivity|].
  simpl DeckOps.insert_card. unfold Card.lt.
  destruct (Z.ltb_spec (Card.value y) (Card.value x)) as [Hlt|Hge]; [|reflexivity].
  simpl in *. rewrite IH.
  destruct (Z.eqb_spec (Card.value x) v); destruct (Z.eqb_spec (Card.value y) v);
    try reflexivity.
  lia.
Qed.

Lemma filter_sorted_cards (v : Z) (l : list Card.t) :
  filter (fun c => Card.value c =? v) (DeckOps.sorted l)
  = filter (fun c => Card.value c =? v) l.
Proof.
  induction l as [|x l IH]; [reflexivity|].
  simpl DeckOps.sorted. rewrite filter_insert_card. simpl. rewrite IH. reflexivity.
Qed.

End SortedCards.

(** X4.  [Deck.sort] leaves the same cards in rising order of value, and
    the sort is stable: the cards of one value keep the order they had. *)
Theorem deck_sort_stable (d : Deck.t) :
  StronglySorted (fun a b => Card.value a <= Card.value b) (Deck.cards (DeckOps.sort d))
  /\ Permutation (Deck.cards (DeckOps.sort d)) (Deck.cards d)
  /\ Deck.size (DeckOps.sort d) = Deck.size d
  /\ forall v, filter (fun c => Card.value c =? v) (Deck.cards (DeckOps.sort d))
               = filter (fun c => Card.value c =? v) (Deck.cards d).
Proof.
  split; [apply sorted_cards_rising|].
  split; [apply sorted_cards_perm|].
  split; [apply Permutation_length, sorted_cards_perm|].
  intros v. apply filter_sorted_cards.
Qed.

Lemma suit_eqb_eq (a b : Card.Suit) : DeckOps.suit_eqb a b = true <-> a = b.
Proof. destruct a, b; simpl; split; intros H; try reflexivity; discriminate H. Qed.

Lemma suit_counts_from (l : list Card.t) (a b c e : nat) :
  fold_left (fun counts card => DeckOps.bump (Card.suit card) counts) l
    [(Card.HEARTS, a); (Card.CLUBS, b); (Card.DIAMONDS, c); (Card.SPADES, e)]
  = [(Card.HEARTS, (a + length (DeckOps.get_cards_by_suit Card.HEARTS (Deck.make l)))%nat);
     (Card.CLUBS, (b + length (DeckOps.get_cards_by_suit Card.CLUBS (Deck.make l)))%nat);
     (Card.DIAMONDS, (c + length (DeckOps.get_cards_by_suit Card.DIAMONDS (Deck.make l)))%nat);
     (Card.SPADES, (e + length (DeckOps.get_cards_by_suit Card.SPADES (Deck.make l)))%nat)].
Proof.
  unfold DeckOps.get_cards_by_suit. simpl Deck.cards.
  revert a b c e. induction l as [|x l IH]; intros a b c e.
  - simpl. rewrite !Nat.add_0_r. reflexivity.
  - simpl fold_left. destruct x as [[] r]; simpl; rewrite IH;
      repeat (f_equal; try lia).
Qed.

Lemma suit_lengths_total (l : list Card.t) :
  (length (DeckOps.get_cards_by_suit Card.HEARTS (Deck.make l))
   + length (DeckOps.get_cards_by_suit Card.CLUBS (Deck.make l))
   + length (DeckOps.get_cards_by_suit Card.DIAMONDS (Deck.make l))
   + length (DeckOps.get_cards_by_suit Card.SPADES (Deck.make l)) = length l)%nat.
Proof.
  unfold DeckOps.get_cards_by_suit. simpl Deck.cards.
  induction l as [|[[] r] l IH]; simpl in *; lia.
Qed.

(** X5.  [get_suit_counts] has one entry for each of the four suits, the
    number of cards [get_cards_by_suit] finds for it, and the four counts
    add up to the size of the deck. *)
Theorem suit_counts_are_suit_sizes (d : Deck.t) :
  DeckOps.get_suit_counts d
  = map (fun s => (s, length (DeckOps.get_cards_by_suit s d))) DeckOps.all_suits
  /\ fold_right (fun sn acc => (snd sn + acc)%nat) O (DeckOps.get_suit_counts d)
     = Deck.size d.
Proof.
  destruct d as [l].
  assert (H : DeckOps.get_suit_counts (Deck.make l)
    = map (fun s => (s, length (DeckOps.get_cards_by_suit s (Deck.make l))))
          DeckOps.all_suits).
  { unfold DeckOps.get_suit_counts. simpl map. apply suit_counts_from. }
  split; [exact H|]. rewrite H. simpl map. simpl fold_right. unfold Deck.size. simpl Deck.cards.
  pose proof (suit_lengths_total l). lia.
Qed.

Lemma get_cards_by_suit_filtered (s : Card.Suit) (suits : list Card.Suit) (l : list Card.t) :
  DeckOps.get_cards_by_suit s (DeckOps.filter_by_suits suits (Deck.make l))
  = if existsb (DeckOps.suit_eqb s) suits
    then DeckOps.get_cards_by_suit s (Deck.make l) else [].
Proof.
  unfold DeckOps.get_cards_by_suit, DeckOps.filter_by_suits. simpl Deck.cards.
  induction l as [|x l IH]; simpl.
  - destruct (existsb _ suits); reflexivity.
  - destruct (DeckOps.suit_eqb (Card.suit x) s) eqn:Hx.
    + apply suit_eqb_eq in Hx. subst s.
      destruct (existsb (DeckOps.suit_eqb (Card.suit x)) suits) eqn:E; simpl.
      * rewrite (proj2 (suit_eqb_eq _ _) eq_refl), IH. reflexivity.
      * exact IH.
    + destruct (existsb (DeckOps.suit_eqb (Card.suit x)) suits); simpl;
        rewrite ?Hx; exact IH.
Qed.

(** X6.  After [filter_by_suits] the deck holds the cards of the listed
    suits and no other, in the order they had: [get_cards_by_suit] finds
    what it found before for a listed suit and nothing for another, and
    filtering again changes nothing. *)
Theorem filter_by_suits_keeps_listed (suits : list Card.Suit) (d : Deck.t) :
  (forall c, In c (Deck.cards (DeckOps.filter_by_suits suits d)) <->
             In c (Deck.cards d) /\ In (Card.suit c) suits)
  /\ (forall s, DeckOps.get_cards_by_suit s (DeckOps.filter_by_suits suits d)
                = if existsb (DeckOps.suit_eqb s) suits
                  then DeckOps.get_cards_by_suit s d else [])
  /\ DeckOps.filter_by_suits suits (DeckOps.filter_by_suits suits d)
     = DeckOps.filter_by_suits suits d.
Proof.
  split; [|split].
  - intros c. unfold DeckOps.filter_by_suits. simpl. rewrite filter_In, existsb_exists.
    split; intros [Hin Hs]; (split; [exact Hin|]).
    + destruct Hs as [s [Hs Heq]]. apply suit_eqb_eq in Heq. rewrite Heq. exact Hs.
    + exists (Card.suit c). split; [exact Hs | apply suit_eqb_eq; reflexivity].
  - intros s. destruct d as [l]. apply get_cards_by_suit_filtered.
  - unfold DeckOps.filter_by_suits. simpl. f_equal.
    induction (Deck.cards d) as [|x l IH]; simpl; [reflexivity|].
    destruct (existsb (DeckOps.suit_eqb (Card.suit x)) suits) eqn:E; simpl;
      rewrite ?E, IH; reflexivity.
Qed.

(** ** The player *)

Lemma can_bid_rank (card : Card.t) (p : Player.t) :
  PlayerOps.can_bid card p = true <->
  exists x, In x (Player.hand p) /\ Card.rank x = Card.rank card.
Proof.
  unfold PlayerOps.can_bid. rewrite existsb_exists.
  split; intros [x [Hin Hx]]; exists x; (split; [exact Hin|]); apply card_eq_rank; exact Hx.
Qed.

(** X7.  [can_bid] and [remove_card] agree, and both go by rank: [can_bid]
    answers what [remove_card] would answer, and it is [true] exactly when
    the hand holds a card of the rank, of whatever suit. *)
Theorem can_bid_is_remove_card_answer (card : Card.t) (p : Player.t) :
  PlayerOps.can_bid card p = fst (Player.remove_card card p)
  /\ (PlayerOps.can_bid card p = true <->
      exists x, In x (Player.hand p) /\ Card.rank x = Card.rank card).
Proof.
  split; [|apply can_bid_rank].
  unfold Player.remove_card.
  destruct (list_remove_cases card (Player.hand p))
    as [(pre & c' & post & Hl & Hc' & _ & Hr)|[Habs Hr]]; rewrite Hr; simpl.
  - apply can_bid_rank. exists c'. split; [rewrite Hl; apply in_elt | exact Hc'].
  - destruct (PlayerOps.can_bid card p) eqn:E; [|reflexivity].
    apply can_bid_rank in E. destruct E as [x [Hin Hx]]. exfalso. exact (Habs x Hin Hx).
Qed.

Lemma score_app (name : string) (s : Card.Suit) (h l1 l2 : list Card.t) :
  Player.get_score (Player.make name s h (l1 ++ l2))
  = Player.get_score (Player.make name s h l1) + Player.get_score (Player.make name s h l2).
Proof.
  unfold Player.get_score. simpl. induction l1 as [|x l1 IH]; simpl; [reflexivity|].
  rewrite IH. lia.
Qed.

Lemma score_add_won (c : Card.t) (p : Player.t) :
  Player.get_score (Player.add_won_card c p) = Player.get_score p + Card.value c.
Proof.
  unfold Player.add_won_card. rewrite score_app.
  unfold Player.get_score, Card.get_numeric_value. simpl. lia.
Qed.

Lemma rank_value_bounds (r : Card.Rank) : 2 <= Card.rank_value r <= 14.
Proof. destruct r; simpl; lia. Qed.

(** X8.  The score is the sum over the won cards: a won card adds its
    value, between 2 and 14; [add_card] and [remove_card] leave the score
    alone, [reset] brings it to 0, and a score lies between twice and
    fourteen times the number of won cards. *)
Theorem score_follows_won_cards (c : Card.t) (p : Player.t) :
  Player.get_score (Player.add_won_card c p) = Player.get_score p + Card.value c
  /\ 2 <= Card.value c <= 14
  /\ Player.get_score (Player.add_card c p) = Player.get_score p
  /\ Player.get_score (snd (Player.remove_card c p)) = Player.get_score p
  /\ Player.get_score (PlayerOps.reset p) = 0
  /\ 2 * Z.of_nat (length (Player.won_cards p)) <= Player.get_score p
     <= 14 * Z.of_nat (length (Player.won_cards p)).
Proof.
  split; [apply score_add_won|].
  split; [apply rank_value_bounds|].
  split; [reflexivity|].
  split; [unfold Player.get_score; rewrite remove_card_keeps_won; reflexivity|].
  split; [reflexivity|].
  unfold Player.get_score, Card.get_numeric_value, Card.value.
  induction (Player.won_cards p) as [|x l IH]; simpl length; simpl fold_right; [lia|].
  pose proof (rank_value_bounds (Card.rank x)). lia.
Qed.

(** ** The strategies of the computer player *)

Lemma max_from_snoc (best x : Card.t) (l : list Card.t) :
  ComputerPlayer.max_from best (l ++ [x])
  = if Card.gt x (ComputerPlayer.max_from best l) then x
    else ComputerPlayer.max_from best l.
Proof.
  revert best. induction l as [|y l IH]; intros best; simpl; [reflexivity | apply IH].
Qed.

Lemma min_from_snoc (best x : Card.t) (l : list Card.t) :
  ComputerPlayer.min_from best (l ++ [x])
  = if Card.lt x (ComputerPlayer.min_from best l) then x
    else ComputerPlayer.min_from best l.
Proof.
  revert best. induction l as [|y l IH]; intros best; simpl; [reflexivity | apply IH].
Qed.

(** [max] finds the first card of the largest value. *)
Lemma max_from_first (best : Card.t) (l : list Card.t) :
  exists pre post,
    best :: l = pre ++ ComputerPlayer.max_from best l :: post /\
    (forall y, In y pre -> Card.value y < Card.value (ComputerPlayer.max_from best l)) /\
    (forall y, In y post -> Card.value y <= Card.value (ComputerPlayer.max_from best l)).
Proof.
  induction l as [|x l IH] using rev_ind.
  - exists [], []. simpl. repeat split; intros y [].
  - destruct IH as (pre & post & Hl & Hpre & Hpost).
    rewrite max_from_snoc. unfold Card.gt.
    destruct (Z.ltb_spec (Card.value (ComputerPlayer.max_from best l)) (Card.value x))
      as [Hlt|Hge].
    + exists (best :: l), []. split; [reflexivity|]. split; [|intros y []].
      intros y Hy. rewrite Hl in Hy. apply in_app_or in Hy.
      destruct Hy as [Hy|[<-|Hy]]; [apply Hpre in Hy| |apply Hpost in Hy]; lia.
    + exists pre, (post ++ [x]). split.
      * change (best :: l ++ [x]) with ((best :: l) ++ [x]). rewrite Hl, <- app_assoc.
        reflexivity.
      * split; [exact Hpre|]. intros y Hy. apply in_app_or in Hy.
        destruct Hy as [Hy|[<-|[]]]; [apply Hpost; exact Hy | lia].
Qed.

(** [min] finds the first card of the smallest value. *)
Lemma min_from_first (best : Card.t) (l : list Card.t) :
  exists pre post,
    best :: l = pre ++ ComputerPlayer.min_from best l :: post /\
    (forall y, In y pre -> Card.value (ComputerPlayer.min_from best l) < Card.value y) /\
    (forall y, In y post -> Card.value (ComputerPlayer.min_from best l) <= Card.value y).
Proof.
  induction l as [|x l IH] using rev_ind.
  - exists [], []. simpl. repeat split; intros y [].
  - destruct IH as (pre & post & Hl & Hpre & Hpost).
    rewrite min_from_snoc. unfold Card.lt.
    destruct (Z.ltb_spec (Card.value x) (Card.value (ComputerPlayer.min_from best l)))
      as [Hlt|Hge].
    + exists (best :: l), []. split; [reflexivity|]. split; [|intros y []].
      intros y Hy. rewrite Hl in Hy. apply in_app_or in Hy.
      destruct Hy as [Hy|[<-|Hy]]; [apply Hpre in Hy| |apply Hpost in Hy]; lia.
    + exists pre, (post ++ [x]). split.
      * change (best :: l ++ [x]) with ((best :: l) ++ [x]). rewrite Hl, <- app_assoc.
        reflexivity.
      * split; [exact Hpre|]. intros y Hy. apply in_app_or in Hy.
        destruct Hy as [Hy|[<-|[]]]; [apply Hpost; exact Hy | lia].
Qed.

Lemma max_card_in (l : list Card.t) :
  l <> [] -> exists c, ComputerPlayer.max_card l = inr c /\ In c l.
Proof.
  destruct l as [|x l]; [congruence|]. intros _. unfold ComputerPlayer.max_card.
  eexists. split; [reflexivity|].
  destruct (max_from_first x l) as (pre & post & Hl & _). rewrite Hl. apply in_elt.
Qed.

Lemma min_card_in (l : list Card.t) :
  l <> [] -> exists c, ComputerPlayer.min_card l = inr c /\ In c l.
Proof.
  destruct l as [|x l]; [congruence|]. intros _. unfold ComputerPlayer.min_card.
  eexists. split; [reflexivity|].
  destruct (min_from_first x l) as (pre & post & Hl & _). rewrite Hl. apply in_elt.
Qed.

Lemma item_in (l : list Card.t) (i : nat) :
  (i < length l)%nat -> exists c, ComputerPlayer.item l i = inr c /\ In c l.
Proof.
  intros Hi. unfold ComputerPlayer.item.
  destruct (nth_error l i) as [c|] eqn:E.
  - exists c. split; [reflexivity | eapply nth_error_In; exact E].
  - apply nth_error_None in E. lia.
Qed.

Section ComputerBids.

Variable randbelow : nat -> nat.
Variable above_average : Z -> list Z -> bool.
Hypothesis randbelow_lt : forall n, (0 < n)%nat -> (randbelow n < n)%nat.

Lemma strategy_func_in_hand (strategy : string) (self : Player.t) (card : Card.t)
    (st : Game.bid_state) :
  Player.hand self <> [] ->
  exists c,
    ComputerPlayer.strategy_func randbelow above_average strategy self card st = inr c /\
    In c (Player.hand self).
Proof.
  intros Hne.
  assert (Hrandom : exists c,
    ComputerPlayer.random_bid randbelow self card st = inr c /\ In c (Player.hand self)).
  { unfold ComputerPlayer.random_bid, ComputerPlayer.choice.
    destruct (Player.hand self) as [|x l] eqn:Hh; [congruence|].
    apply item_in. apply randbelow_lt. simpl. lia. }
  assert (Hsmart : exists c,
    ComputerPlayer.smart_bid self card st = inr c /\ In c (Player.hand self)).
  { unfold ComputerPlayer.smart_bid.
    destruct (11 <=? Card.get_numeric_value card); [apply max_card_in; exact Hne|].
    destruct (7 <=? Card.get_numeric_value card); [|apply min_card_in; exact Hne].
    pose proof (sorted_cards_perm (Player.hand self)) as Hp.
    destruct (item_in (DeckOps.sorted (Player.hand self))
                (length (DeckOps.sorted (Player.hand self)) / 2)) as (c & Hc & Hin).
    - apply Nat.div_lt; [|lia]. rewrite (Permutation_length Hp).
      destruct (Player.hand self); [congruence | simpl; lia].
    - exists c. split; [exact Hc | eapply Permutation_in; eassumption]. }
  assert (Hbalanced : exists c,
    ComputerPlayer.balanced_bid above_average self card st = inr c /\
    In c (Player.hand self)).
  { unfold ComputerPlayer.balanced_bid.
    destruct (Player.hand self) as [|x l] eqn:Hh; [congruence|]. simpl map. cbv iota.
    destruct (above_average _ _); [apply max_card_in | apply min_card_in]; discriminate. }
  unfold ComputerPlayer.strategy_func.
  destruct (String.eqb strategy "random"); [exact Hrandom|].
  destruct (String.eqb strategy "smart"); [exact Hsmart|].
  destruct (String.eqb strategy "conservative"); [apply min_card_in; exact Hne|].
  destruct (String.eqb strategy "aggressive"); [apply max_card_in; exact Hne|].
  destruct (String.eqb strategy "balanced"); [exact Hbalanced | exact Hrandom].
Qed.

End ComputerBids.

(** X9.  Whatever the strategy name, a known one or not, the computer
    player keeps the contract of [make_bid]: it raises nothing, passes
    exactly when the hand is empty, and otherwise bids a card that is in
    the hand. *)
Theorem computer_bid_is_in_hand
    (randbelow : nat -> nat) (above_average : Z -> list Z -> bool)
    (strategy : string) (self : Player.t) (card : Card.t) (st : Game.bid_state) :
  (forall n, (0 < n)%nat -> (randbelow n < n)%nat) ->
  (Player.hand self = [] ->
   ComputerPlayer.make_bid randbelow above_average strategy self card st = inr None)
  /\
  (Player.hand self <> [] ->
   exists c,
     ComputerPlayer.make_bid randbelow above_average strategy self card st
     = inr (Some c) /\
     In c (Player.hand self) /\
     PlayerOps.can_bid c self = true).
Proof.
  intros Hrand. unfold ComputerPlayer.make_bid. split.
  - intros ->. reflexivity.
  - intros Hne.
    destruct (strategy_func_in_hand randbelow above_average Hrand strategy self card st Hne)
      as (c & Hc & Hin).
    rewrite Hc. destruct (Player.hand self) eqn:Hh; [congruence|].
    exists c. split; [reflexivity|]. split; [exact Hin|].
    apply can_bid_rank. exists c. split; [rewrite Hh; exact Hin | reflexivity].
Qed.

Lemma computer_bid_is_in_hand_witness :
  let randbelow := fun n : nat => O in
  let above_average := fun (v : Z) (values : list Z) =>
    fold_right Z.add 0 values <? v * Z.of_nat (length values) in
  let self := Sample.dealt "Machine 2" Card.CLUBS in
  let card := Card.make Card.DIAMONDS Card.NINE in
  let st := Game.make_bid_state 1 [self] [] in
  (forall n, (0 < n)%nat -> (randbelow n < n)%nat) /\
  (Player.hand self <> [] ->
   exists c,
     ComputerPlayer.make_bid randbelow above_average "smart" self card st
     = inr (Some c) /\
     In c (Player.hand self) /\
     PlayerOps.can_bid c self = true).
Proof.
  intros randbelow above_average self card st.
  assert (H : forall n, (0 < n)%nat -> (randbelow n < n)%nat) by (intros n Hn; exact Hn).
  split; [exact H|].
  exact (proj2 (computer_bid_is_in_hand randbelow above_average "smart" self card st H)).
Defined.

Lemma strategy_func_named (randbelow : nat -> nat) (above_average : Z -> list Z -> bool) :
  ComputerPlayer.strategy_func randbelow above_average "aggressive"
  = ComputerPlayer.aggressive_bid
  /\ ComputerPlayer.strategy_func randbelow above_average "conservative"
     = ComputerPlayer.conservative_bid
  /\ ComputerPlayer.strategy_func randbelow above_average "smart"
     = ComputerPlayer.smart_bid
  /\ ComputerPlayer.strategy_func randbelow above_average "balanced"
     = ComputerPlayer.balanced_bid above_average.
Proof. repeat split. Qed.

(** X10.  The aggressive strategy bids the first card of the largest value
    in the hand and the conservative one the first card of the smallest;
    the smart strategy bids as the aggressive one for a jack or better and
    as the conservative one below seven, and the balanced one as either.
    [remove_card] with such a bid takes that very card out of the hand. *)
Theorem extreme_bids_are_first
    (randbelow : nat -> nat) (above_average : Z -> list Z -> bool)
    (self : Player.t) (card : Card.t) (st : Game.bid_state) :
  Player.hand self <> [] ->
  let bid := fun strategy : string =>
    ComputerPlayer.make_bid randbelow above_average strategy self card st in
  (exists pre c post,
      Player.hand self = pre ++ c :: post /\
      (forall y, In y pre -> Card.value y < Card.value c) /\
      (forall y, In y post -> Card.value y <= Card.value c) /\
      bid "aggressive"%string = inr (Some c) /\
      (11 <= Card.value card -> bid "smart"%string = inr (Some c)) /\
      Player.hand (snd (Player.remove_card c self)) = pre ++ post)
  /\
  (exists pre c post,
      Player.hand self = pre ++ c :: post /\
      (forall y, In y pre -> Card.value c < Card.value y) /\
      (forall y, In y post -> Card.value c <= Card.value y) /\
      bid "conservative"%string = inr (Some c) /\
      (Card.value card < 7 -> bid "smart"%string = inr (Some c)) /\
      Player.hand (snd (Player.remove_card c self)) = pre ++ post)
  /\
  bid "balanced"%string
  = (if above_average (Card.value card) (map Card.get_numeric_value (Player.hand self))
     then bid "aggressive"%string else bid "conservative"%string).
Proof.
  intros Hne bid. unfold bid, ComputerPlayer.make_bid.
  destruct (Player.hand self) as [|x l] eqn:Hh; [congruence|]. clear Hne.
  destruct (strategy_func_named randbelow above_average) as (-> & -> & -> & ->).
  unfold ComputerPlayer.aggressive_bid, ComputerPlayer.conservative_bid,
    ComputerPlayer.smart_bid, ComputerPlayer.balanced_bid, Card.get_numeric_value.
  rewrite Hh. simpl map. cbv iota. unfold ComputerPlayer.max_card, ComputerPlayer.min_card.
  split; [|split].
  - destruct (max_from_first x l) as (pre & post & Hl & Hpre & Hpost).
    exists pre, (ComputerPlayer.max_from x l), post.
    split; [exact Hl|]. split; [exact Hpre|]. split; [exact Hpost|].
    split; [reflexivity|]. split.
    + intros Hhigh.
      replace (11 <=? Card.value card) with true by (symmetry; apply Z.leb_le; exact Hhigh).
      reflexivity.
    + rewrite remove_card_hand, Hh, Hl, list_remove_first; [reflexivity..|].
      intros y Hy Heq. apply Hpre in Hy. unfold Card.value in Hy. rewrite Heq in Hy. lia.
  - destruct (min_from_first x l) as (pre & post & Hl & Hpre & Hpost).
    exists pre, (ComputerPlayer.min_from x l), post.
    split; [exact Hl|]. split; [exact Hpre|]. split; [exact Hpost|].
    split; [reflexivity|]. split.
    + intros Hlow.
      replace (11 <=? Card.value card) with false by (symmetry; apply Z.leb_gt; lia).
      replace (7 <=? Card.value card) with false by (symmetry; apply Z.leb_gt; lia).
      reflexivity.
    + rewrite remove_card_hand, Hh, Hl, list_remove_first; [reflexivity..|].
      intros y Hy Heq. apply Hpre in Hy. unfold Card.value in Hy. rewrite Heq in Hy. lia.
  - destruct (above_average _ _); reflexivity.
Qed.

Lemma extreme_bids_are_first_witness :
  let randbelow := fun n : nat => O in
  let above_average := fun (v : Z) (values : list Z) =>
    fold_right Z.add 0 values <? v * Z.of_nat (length values) in
  let self := Sample.dealt "Machine 2" Card.CLUBS in
  let card := Card.make Card.DIAMONDS Card.QUEEN in
  let st := Game.make_bid_state 1 [self] [] in
  Player.hand self <> [] /\
  ComputerPlayer.make_bid randbelow above_average "balanced" self card st
  = (if above_average (Card.value card) (map Card.get_numeric_value (Player.hand self))
     then ComputerPlayer.make_bid randbelow above_average "aggressive" self card st
     else ComputerPlayer.make_bid randbelow above_average "conservative" self card st).
Proof.
  intros randbelow above_average self card st.
  assert (H : Player.hand self <> []) by discriminate.
  split; [exact H|].
  exact (proj2 (proj2 (extreme_bids_are_first randbelow above_average self card st H))).
Defined.

(** ** Queries on the auction *)

Lemma get_bid_some_iff (player : nat) (b : list (nat * Card.t)) :
  (exists c, Auction.get_bid player b = Some c) <-> In player (map fst b).
Proof.
  induction b as [|[p c] b IH]; simpl.
  - split; [intros [c H]; discriminate H | intros []].
  - destruct (Nat.eqb_spec p player) as [->|Hne].
    + split; [intros _; left; reflexivity | intros _; eauto].
    + rewrite IH. split; [intros H; right; exact H | intros [H|H]; [contradiction | exact H]].
Qed.

Lemma get_bid_value_none (player : nat) (a : Auction.t) :
  AuctionOps.get_bid_value player a = None <->
  Auction.has_bid player (Auction.bids a) = false.
Proof.
  unfold AuctionOps.get_bid_value.
  destruct (Auction.has_bid player (Auction.bids a)) eqn:E; [|split; reflexivity].
  apply has_bid_in, get_bid_some_iff in E. destruct E as [c ->]. simpl.
  split; discriminate.
Qed.

Lemma get_bid_app_last (player q : nat) (card : Card.t) (b : list (nat * Card.t)) :
  Auction.get_bid q (b ++ [(player, card)])
  = match Auction.get_bid q b with
    | Some c => Some c
    | None => if Nat.eqb player q then Some card else None
    end.
Proof.
  induction b as [|[p c] b IH]; simpl; [reflexivity|].
  destruct (Nat.eqb p q); [reflexivity | exact IH].
Qed.

(** X11.  A bid that [place_bid] accepts is the bid [get_bid_value] reads
    back for that participant, the values of the other participants are
    not touched and the map has one entry more; [get_bid_value] is [None]
    exactly for the participants [place_bid] would accept, and for every
    participant after [start_auction] and after [clear_bids]. *)
Theorem place_bid_then_get_bid_value (player : nat) (card : Card.t) (a : Auction.t) :
  (AuctionOps.get_bid_value player a = None <->
   fst (Auction.place_bid player card a) = true)
  /\
  (fst (Auction.place_bid player card a) = true ->
   let a' := snd (Auction.place_bid player card a) in
   AuctionOps.get_bid_value player a' = Some (Card.value card) /\
   (forall q, q <> player ->
      AuctionOps.get_bid_value q a' = AuctionOps.get_bid_value q a) /\
   length (Auction.bids a') = S (length (Auction.bids a)))
  /\
  (forall d n,
      AuctionOps.get_bid_value player (Auction.start_auction d n a) = None)
  /\ AuctionOps.get_bid_value player (Auction.clear_bids a) = None.
Proof.
  split; [|split; [|split]].
  - rewrite get_bid_value_none. unfold Auction.place_bid.
    destruct (Auction.has_bid player (Auction.bids a)); simpl; split; congruence.
  - unfold Auction.place_bid.
    destruct (Auction.has_bid player (Auction.bids a)) eqn:E; simpl; [discriminate|].
    intros _. split; [|split].
    + unfold AuctionOps.get_bid_value. simpl.
      assert (Hin : Auction.has_bid player (Auction.bids a ++ [(player, card)]) = true).
      { apply has_bid_in. rewrite map_app. apply in_or_app. right. left. reflexivity. }
      rewrite Hin, get_bid_app_last, Nat.eqb_refl.
      rewrite get_bid_absent by (apply has_bid_not_in; exact E). reflexivity.
    + intros q Hq. unfold AuctionOps.get_bid_value. simpl.
      assert (Hhas : Auction.has_bid q (Auction.bids a ++ [(player, card)])
                     = Auction.has_bid q (Auction.bids a)).
      { unfold Auction.has_bid. rewrite existsb_app. simpl.
        replace (Nat.eqb player q) with false by (symmetry; apply Nat.eqb_neq; congruence).
        rewrite !orb_false_r. reflexivity. }
      rewrite Hhas, get_bid_app_last.
      replace (Nat.eqb player q) with false by (symmetry; apply Nat.eqb_neq; congruence).
      destruct (Auction.get_bid q (Auction.bids a)); reflexivity.
    + rewrite length_app. simpl. lia.
  - intros d n. reflexivity.
  - reflexivity.
Qed.

Lemma place_bid_then_get_bid_value_witness :
  let a := Auction.start_auction (Card.make Card.DIAMONDS Card.TEN) 1 Auction.init in
  let card := Card.make Card.HEARTS Card.QUEEN in
  fst (Auction.place_bid 0 card a) = true /\
  AuctionOps.get_bid_value 0 (snd (Auction.place_bid 0 card a)) = Some (Card.value card).
Proof.
  intros a card.
  assert (H : fst (Auction.place_bid 0 card a) = true) by reflexivity.
  split; [exact H|].
  exact (proj1 (proj1 (proj2 (place_bid_then_get_bid_value 0 card a)) H)).
Defined.

Lemma hd_insert_bid (x : nat * Card.t) (s : list (nat * Card.t)) :
  hd_error (Auction.insert_bid x s)
  = Some (match hd_error s with
          | Some y =>
              if Card.get_numeric_value (snd x) <? Card.get_numeric_value (snd y)
              then y else x
          | None => x
          end).
Proof.
  destruct s as [|y s]; simpl; [reflexivity|].
  destruct (Card.get_numeric_value (snd x) <? Card.get_numeric_value (snd y)); reflexivity.
Qed.

Lemma highest_from_head (best : nat * Card.t) (l : list (nat * Card.t)) :
  hd_error (Auction.sorted_bids_of (best :: l)) = Some (AuctionOps.highest_from best l).
Proof.
  revert best. induction l as [|x r IH]; intros best; [reflexivity|].
  simpl AuctionOps.highest_from. rewrite <- IH.
  simpl Auction.sorted_bids_of. rewrite !hd_insert_bid.
  destruct (hd_error (Auction.sorted_bids_of r)) as [h|];
    repeat (match goal with
            | |- context [Card.get_numeric_value (snd ?p)
                          <? Card.get_numeric_value (snd ?q)] =>
                is_var p; is_var q;
                destruct (Z.ltb_spec (Card.get_numeric_value (snd p))
                                     (Card.get_numeric_value (snd q)))
            end; cbv iota);
    try reflexivity; lia.
Qed.

Lemma lowest_from_least (best : nat * Card.t) (l : list (nat * Card.t)) :
  In (AuctionOps.lowest_from best l) (best :: l) /\
  forall pc, In pc (best :: l) ->
    Card.get_numeric_value (snd (AuctionOps.lowest_from best l))
    <= Card.get_numeric_value (snd pc).
Proof.
  revert best. induction l as [|x r IH]; intros best; simpl.
  - split; [left; reflexivity|]. intros pc [<-|[]]. lia.
  - destruct (Z.ltb_spec (Card.get_numeric_value (snd x)) (Card.get_numeric_value (snd best)))
      as [Hlt|Hge]; destruct (IH x) as [Hin1 Hle1]; destruct (IH best) as [Hin2 Hle2].
    + split; [right; exact Hin1|].
      intros pc [<-|Hpc]; [|apply Hle1; exact Hpc].
      specialize (Hle1 x (or_introl eq_refl)). lia.
    + split; [destruct Hin2 as [H|H]; [left; exact H | right; right; exact H]|].
      intros pc [<-|[<-|Hpc]].
      * apply Hle2. left. reflexivity.
      * specialize (Hle2 best (or_introl eq_refl)). lia.
      * apply Hle2. right. exact Hpc.
Qed.

(** X12.  [get_highest_bid] is the head of the order [determine_winner]
    sorts the bids in: [None] exactly for an empty map, else a recorded bid
    of the largest value, and the bid of the winner whenever
    [determine_winner] names one.  [get_lowest_bid] is a recorded bid of
    the smallest value. *)
Theorem highest_bid_heads_the_order (a : Auction.t) :
  AuctionOps.get_highest_bid a = hd_error (Auction.sorted_bids_of (Auction.bids a))
  /\ (AuctionOps.get_highest_bid a = None <-> Auction.bids a = [])
  /\ (forall p c,
        AuctionOps.get_highest_bid a = Some (p, c) ->
        In (p, c) (Auction.bids a) /\
        forall q c', In (q, c') (Auction.bids a) -> Card.value c' <= Card.value c)
  /\ (forall w tied,
        Auction.determine_winner a = (Resolved.WINNER_DETERMINED, Some w, tied) ->
        exists c, AuctionOps.get_highest_bid a = Some (w, c))
  /\ (AuctionOps.get_lowest_bid a = None <-> Auction.bids a = [])
  /\ (forall p c,
        AuctionOps.get_lowest_bid a = Some (p, c) ->
        In (p, c) (Auction.bids a) /\
        forall q c', In (q, c') (Auction.bids a) -> Card.value c <= Card.value c').
Proof.
  assert (Hhd : AuctionOps.get_highest_bid a
                = hd_error (Auction.sorted_bids_of (Auction.bids a))).
  { unfold AuctionOps.get_highest_bid. destruct (Auction.bids a) as [|x r]; [reflexivity|].
    rewrite highest_from_head. reflexivity. }
  split; [exact Hhd|]. split; [|split; [|split; [|split]]].
  - unfold AuctionOps.get_highest_bid. destruct (Auction.bids a); split; congruence.
  - intros p c H. rewrite Hhd in H.
    destruct (Auction.sorted_bids_of (Auction.bids a)) as [|first rest] eqn:E;
      [discriminate H|].
    injection H as ->. destruct (sorted_bids_head _ _ _ E) as [Hin Hmax].
    split; [exact Hin|]. intros q c' Hq. apply (Hmax (q, c') Hq).
  - intros w tied. rewrite Hhd. unfold Auction.determine_winner.
    destruct (length (Auction.bids a) <? 2)%nat; [discriminate|].
    destruct (Auction.sorted_bids_of (Auction.bids a)) as [|[p c] rest]; [discriminate|].
    destruct (1 <? _)%nat.
    + destruct (String.eqb _ _); discriminate.
    + intros [= <- _]. exists c. reflexivity.
  - unfold AuctionOps.get_lowest_bid. destruct (Auction.bids a); split; congruence.
  - unfold AuctionOps.get_lowest_bid. intros p c H.
    destruct (Auction.bids a) as [|x r]; [discriminate H|]. injection H as H.
    destruct (lowest_from_least x r) as [Hin Hle]. rewrite H in Hin, Hle.
    split; [exact Hin|]. intros q c' Hq. apply (Hle (q, c') Hq).
Qed.

Lemma highest_bid_heads_the_order_witness :
  let a := Auction.make (Some (Card.make Card.DIAMONDS Card.ACE))
             [(0%nat, Card.make Card.HEARTS Card.FOUR);
              (1%nat, Card.make Card.CLUBS Card.KING)] "split" 1 in
  Auction.determine_winner a = (Resolved.WINNER_DETERMINED, Some 1%nat, Some [1%nat]) /\
  exists c, AuctionOps.get_highest_bid a = Some (1%nat, c).
Proof.
  intros a.
  assert (H : Auction.determine_winner a
              = (Resolved.WINNER_DETERMINED, Some 1%nat, Some [1%nat])) by reflexivity.
  split; [exact H|].
  exact (proj1 (proj2 (proj2 (proj2 (highest_bid_heads_the_order a)))) 1%nat _ H).
Defined.

(** ** The shape of a resolution *)

Lemma resolve_auction_shape (a : Auction.t) (d : Card.t) :
  Auction.current_diamond a = Some d ->
  exists r,
    Auction.resolve_auction a = Ok r /\
    Resolved.bids r = Auction.bids a /\
    Resolved.diamond_card r = Some d /\
    (Resolved.diamond_awarded r = true <->
     Resolved.winner r <> None \/
     Resolved.result_type r = Resolved.of_enum Resolved.TIE_SPLIT) /\
    (Resolved.carry_forward r = true <->
     Resolved.result_type r = Resolved.of_enum Resolved.TIE_CARRY_FORWARD) /\
    (forall w, Resolved.winner r = Some w ->
       In w (map fst (Auction.bids a)) /\
       Resolved.tied_players r = Some [w] /\
       Resolved.result_type r = Resolved.of_enum Resolved.WINNER_DETERMINED) /\
    (forall t, Resolved.tied_players r = Some t ->
       forall p, In p t -> In p (map fst (Auction.bids a))) /\
    (Resolved.result_type r = Resolved.of_enum Resolved.TIE_SPLIT ->
     Auction.tie_handling_method a = "split"%string /\
     exists t, (2 <= length t)%nat /\ Resolved.tied_players r = Some t /\
       Resolved.split_values r
       = map (fun player => (player, Auction.split_value_of d (length t))) t) /\
    (Resolved.result_type r <> Resolved.of_enum Resolved.TIE_SPLIT ->
     Resolved.split_values r = []) /\
    (Resolved.result_type r = Resolved.of_enum Resolved.TIE_CARRY_FORWARD ->
     Auction.tie_handling_method a <> "split"%string).
Proof.
  intros Hd.
  destruct (Auction.bids a) as [|x [|y l]] eqn:Hb.
  - unfold Auction.resolve_auction. rewrite Hb.
    eexists. split; [reflexivity|]. simpl.
    split; [reflexivity|]. split; [exact Hd|].
    split; [split; [discriminate | intros [H|H]; [congruence | discriminate H]]|].
    split; [split; discriminate|].
    split; [discriminate|].
    split; [intros t [= <-] p []|].
    split; [discriminate|]. split; [reflexivity | discriminate].
  - unfold Auction.resolve_auction, Auction.determine_winner. rewrite Hb. simpl.
    eexists. split; [reflexivity|]. simpl.
    split; [reflexivity|]. split; [exact Hd|].
    split; [split; [discriminate | intros [H|H]; [congruence | discriminate H]]|].
    split; [split; discriminate|].
    split; [discriminate|].
    split; [discriminate|].
    split; [discriminate|]. split; [reflexivity | discriminate].
  - assert (Hlen : (2 <= length (Auction.bids a))%nat) by (rewrite Hb; simpl; lia).
    destruct (determine_winner_cases a Hlen) as (first & Hin & _ & Hcases).
    cbv zeta in Hcases. unfold Auction.resolve_auction. rewrite Hb, <- Hb.
    assert (Hsub : forall p,
      In p (map fst (filter (fun pc => Card.get_numeric_value (snd pc)
                                       =? Card.get_numeric_value (snd first))
                            (Auction.bids a))) ->
      In p (map fst (Auction.bids a))).
    { intros p Hp. apply in_map_iff in Hp. destruct Hp as (pc & <- & Hpc).
      apply filter_In in Hpc. apply in_map. exact (proj1 Hpc). }
    destruct Hcases as [[_ Hdw]|[Htied Hdw]]; rewrite Hdw.
    + eexists. split; [reflexivity|]. simpl.
      split; [reflexivity|]. split; [exact Hd|].
      split; [split; [intros _; left; discriminate | reflexivity]|].
      split; [split; discriminate|].
      split; [intros w [= <-]; repeat split; apply in_map; exact Hin|].
      split; [intros t [= <-] p [<-|[]]; apply in_map; exact Hin|].
      split; [discriminate|]. split; [reflexivity | discriminate].
    + destruct (String.eqb_spec (Auction.tie_handling_method a) "split") as [Hm|Hm].
      * rewrite Hd.
        replace (length _ =? 0)%nat with false by (symmetry; apply Nat.eqb_neq; lia).
        eexists. split; [reflexivity|]. simpl.
        split; [reflexivity|]. split; [reflexivity|].
        split; [split; [intros _; right; reflexivity | reflexivity]|].
        split; [split; discriminate|].
        split; [discriminate|].
        split; [intros t [= <-]; exact Hsub|].
        split; [intros _; split; [exact Hm|]; eexists; split; [exact Htied|];
                split; reflexivity|].
        split; [congruence | discriminate].
      * eexists. split; [reflexivity|]. simpl.
        split; [reflexivity|]. split; [exact Hd|].
        split; [split; [discriminate | intros [H|H]; [congruence | discriminate H]]|].
        split; [split; reflexivity|].
        split; [discriminate|].
        split; [intros t [= <-]; exact Hsub|].
        split; [discriminate|]. split; [reflexivity | intros _; exact Hm].
Qed.

(** X13.  Once a card is revealed [resolve_auction] returns, with a copy of
    the bids and the card, and its answer is coherent: the card is awarded
    exactly when there is a winner or the tie is split, carried forward
    exactly on a carry-forward tie and never both; a winner and every tied
    participant hold a recorded bid; the split values are there exactly on
    a split tie, one equal share for each tied participant. *)
Theorem resolve_auction_is_coherent (a : Auction.t) (d : Card.t) :
  Auction.current_diamond a = Some d ->
  exists r,
    Auction.resolve_auction a = Ok r /\
    Resolved.bids r = Auction.bids a /\
    Resolved.diamond_card r = Some d /\
    (Resolved.diamond_awarded r = true <->
     Resolved.winner r <> None \/
     Resolved.result_type r = Resolved.of_enum Resolved.TIE_SPLIT) /\
    (Resolved.carry_forward r = true <->
     Resolved.result_type r = Resolved.of_enum Resolved.TIE_CARRY_FORWARD) /\
    Resolved.diamond_awarded r && Resolved.carry_forward r = false /\
    (forall w, Resolved.winner r = Some w ->
       In w (map fst (Auction.bids a)) /\ Resolved.tied_players r = Some [w]) /\
    (forall t, Resolved.tied_players r = Some t ->
       forall p, In p t -> In p (map fst (Auction.bids a))) /\
    (Resolved.result_type r = Resolved.of_enum Resolved.TIE_SPLIT ->
     exists t, (2 <= length t)%nat /\ Resolved.tied_players r = Some t /\
       Resolved.split_values r
       = map (fun player => (player, Auction.split_value_of d (length t))) t) /\
    (Resolved.result_type r <> Resolved.of_enum Resolved.TIE_SPLIT ->
     Resolved.split_values r = []).
Proof.
  intros Hd.
  destruct (resolve_auction_shape a d Hd)
    as (r & Hr & Hb & Hdc & Haw & Hcf & Hw & Ht & Hsp & Hnsp & _).
  exists r. split; [exact Hr|]. split; [exact Hb|]. split; [exact Hdc|].
  split; [exact Haw|]. split; [exact Hcf|]. split.
  { destruct (Resolved.diamond_awarded r) eqn:Ea; [|reflexivity].
    destruct (Resolved.carry_forward r) eqn:Ec; [|reflexivity].
    exfalso. apply proj1 in Haw. apply proj1 in Hcf.
    specialize (Haw eq_refl). specialize (Hcf eq_refl).
    destruct Haw as [Hne|Hs]; [|congruence].
    destruct (Resolved.winner r) as [w|] eqn:Ew; [|congruence].
    destruct (Hw w eq_refl) as (_ & _ & Hk). congruence. }
  split; [intros w Hwin; destruct (Hw w Hwin) as (H1 & H2 & _); split; assumption|].
  split; [exact Ht|]. split; [|exact Hnsp].
  intros Hs. exact (proj2 (Hsp Hs)).
Qed.

Lemma resolve_auction_is_coherent_witness :
  let d := Card.make Card.DIAMONDS Card.ACE in
  let a := Auction.make (Some d)
             [(0%nat, Card.make Card.HEARTS Card.KING);
              (1%nat, Card.make Card.CLUBS Card.KING)] "carry_forward" 3 in
  Auction.current_diamond a = Some d /\
  exists r,
    Auction.resolve_auction a = Ok r /\
    Resolved.diamond_awarded r && Resolved.carry_forward r = false.
Proof.
  intros d a.
  assert (H : Auction.current_diamond a = Some d) by reflexivity.
  split; [exact H|].
  destruct (resolve_auction_is_coherent a d H) as (r & Hr & _ & _ & _ & _ & Hx & _).
  exists r. split; [exact Hr | exact Hx].
Defined.

(** X14.  [set_tie_handling] takes the two method names and raises
    [ValueError] for every other string; when it succeeds only the method
    changes, and from then on a tie is split only under ["split"] and
    carried forward only under ["carry_forward"]. *)
Theorem set_tie_handling_two_methods (method : string) (a : Auction.t) :
  (Auction.set_tie_handling method a = None <->
   method <> "split"%string /\ method <> "carry_forward"%string)
  /\
  (forall a',
      Auction.set_tie_handling method a = Some a' ->
      Auction.bids a' = Auction.bids a /\
      Auction.current_diamond a' = Auction.current_diamond a /\
      Auction.tie_handling_method a' = method /\
      forall d, Auction.current_diamond a = Some d ->
        exists r,
          Auction.resolve_auction a' = Ok r /\
          (Resolved.result_type r = Resolved.of_enum Resolved.TIE_SPLIT ->
           method = "split"%string) /\
          (Resolved.result_type r = Resolved.of_enum Resolved.TIE_CARRY_FORWARD ->
           method = "carry_forward"%string)).
Proof.
  unfold Auction.set_tie_handling.
  destruct (String.eqb_spec method "split") as [Hs|Hs];
    destruct (String.eqb_spec method "carry_forward") as [Hc|Hc]; simpl.
  1-3: split; [split; [discriminate | intros [H1 H2]; congruence]|].
  4: split; [split; [intros _; split; assumption | reflexivity]|]; discriminate.
  all: intros a' [= <-]; simpl; repeat split; intros d Hd;
    destruct (resolve_auction_shape
                (Auction.make (Auction.current_diamond a) (Auction.bids a) method
                              (Auction.round_number a)) d Hd)
      as (r & Hr & _ & _ & _ & _ & _ & _ & Hsp & _ & Hcf);
    exists r; (split; [exact Hr|]); simpl in Hsp, Hcf;
    (split; [intros H; exact (proj1 (Hsp H)) | intros H; specialize (Hcf H); congruence]).
Qed.

Lemma set_tie_handling_two_methods_witness :
  let a := Auction.init in
  exists a',
    Auction.set_tie_handling "carry_forward" a = Some a' /\
    Auction.tie_handling_method a' = "carry_forward"%string.
Proof.
  intros a. eexists. split; [reflexivity|].
  exact (proj1 (proj2 (proj2 (proj2 (set_tie_handling_two_methods "carry_forward" a) _
                                    eq_refl)))).
Defined.

(** ** The full game *)

Section FullGame.

Variable make_bid : nat -> Player.t -> option Card.t -> Game.bid_state -> option Card.t.

Lemma display_ending_round (n : nat) :
  GameFlow.display_round_results (Round.make n None [] None None false true)
  = GameFlow.Raised (GameFlow.Inner AttributeError).
Proof. reflexivity. Qed.

(** Every round of a game that is not over: it ends the game, or it is
    played and the game goes on. *)
Lemma play_round_step (g : Game.t) :
  Game.game_over g = false ->
  (exists g',
      Game.play_round make_bid g
      = Ok (Game.round (Round.make (S (Game.round_number g)) None [] None None false true),
            g'))
  \/
  (exists rr g' c g2 r,
      Game.get_auction_card g = (Some c, g2) /\
      Game.play_round make_bid g = Ok (Game.round rr, g') /\
      Round.result rr = Some r /\
      Round.game_over rr = false /\ Game.game_over g' = false /\
      GameFlow.display_round_results rr = GameFlow.Returned tt /\
      Game.carry_forward_diamonds g'
      = Game.carry_forward_diamonds g2 ++ (if Resolved.carry_forward r then [c] else []) /\
      Game.deck g' = Game.deck g2 /\
      (Resolved.carry_forward r = true -> Round.bids rr <> [])).
Proof.
  intros Hover.
  destruct (Game.should_end_game g) eqn:Hend.
  { left. eexists. apply (play_round_no_hands make_bid g Hover Hend). }
  destruct (Game.get_auction_card g) as [[c|] g2] eqn:Hget.
  2:{ left. eexists. apply (play_round_no_supply make_bid g Hover Hend).
      rewrite Hget. reflexivity. }
  right.
  destruct (play_round_played make_bid g g2 c Hover Hend Hget)
    as (r & ps & Hr & _ & Hd & _ & _ & Hcases & Hplay).
  cbv zeta in Hplay.
  eexists. eexists. exists c, g2, r.
  split; [reflexivity|]. split; [exact Hplay|]. simpl.
  split; [reflexivity|]. split; [reflexivity|]. split; [reflexivity|].
  split; [|split; [reflexivity|split; [reflexivity|]]].
  - unfold GameFlow.display_round_results. simpl.
    destruct Hcases as [(_ & Ht & _)|[(_ & Ht & _)|[(w & _ & Ht & Hw & _)
                       |[(tied & Hlen & Ht & _ & _ & Htp & _)|(Ht & _)]]]];
      rewrite Ht; simpl; try reflexivity.
    + rewrite Hw. reflexivity.
    + rewrite Htp, Hd.
      replace (length tied =? 0)%nat with false by (symmetry; apply Nat.eqb_neq; lia).
      reflexivity.
  - intros Hc Hb. revert Hr. unfold Auction.resolve_auction. simpl Auction.bids.
    rewrite Hb. intros [= <-]. discriminate Hc.
Qed.

Lemma play_rounds_never_return (fuel : nat) (g g' : Game.t) :
  Game.game_over g = false ->
  GameFlow.play_rounds make_bid fuel g <> GameFlow.Returned g'.
Proof.
  revert g. induction fuel as [|k IH]; intros g Hover; simpl; [discriminate|].
  rewrite Hover.
  destruct (play_round_step g Hover)
    as [(g1 & Hplay)|(rr & g1 & c & g2 & r & _ & Hplay & _ & Hgo & Hover1 & Hdisp & _)];
    rewrite Hplay.
  - rewrite display_ending_round. discriminate.
  - rewrite Hdisp, Hgo. apply IH. exact Hover1.
Qed.

End FullGame.

Lemma play_full_game_not_returned
    (make_bid : nat -> Player.t -> option Card.t -> Game.bid_state -> option Card.t)
    (shuffle : nat -> list Card.t -> list Card.t) (fuel : nat) (g : Game.t)
    (result : GameFlow.final) :
  GameFlow.play_full_game make_bid shuffle fuel g <> GameFlow.Returned result.
Proof.
  unfold GameFlow.play_full_game, GameFlow.setup_game.
  destruct (GameFlow.deal_cards_to_players _ _) as [ps d].
  destruct (Auction.set_tie_handling _ _) as [a|]; [|discriminate].
  match goal with
  | |- context [GameFlow.play_rounds make_bid fuel ?g0] =>
      pose proof (play_rounds_never_return make_bid fuel g0) as Hnever;
      destruct (GameFlow.play_rounds make_bid fuel g0) as [g1| |]
  end; try discriminate.
  exfalso. apply (Hnever g1); reflexivity.
Qed.

(** X15.  [play_full_game] never returns its result: whatever the
    strategies, the shuffles and the number of rounds allowed, it is still
    running or it has raised.  The loop leaves only through a round that
    sets the game-over flag; the dictionary of that round has no diamond
    card, and [_display_round_results], which is called before the flag is
    looked at, raises on it. *)
Theorem play_full_game_never_returns
    (make_bid : nat -> Player.t -> option Card.t -> Game.bid_state -> option Card.t)
    (shuffle : nat -> list Card.t -> list Card.t) (fuel : nat) (g : Game.t) :
  GameFlow.play_full_game make_bid shuffle fuel g = GameFlow.Running \/
  exists e, GameFlow.play_full_game make_bid shuffle fuel g = GameFlow.Raised e.
Proof.
  pose proof (play_full_game_not_returned make_bid shuffle fuel g) as Hnever.
  destruct (GameFlow.play_full_game make_bid shuffle fuel g) as [result|e|].
  - exfalso. apply (Hnever result). reflexivity.
  - right. exists e. reflexivity.
  - left. reflexivity.
Qed.

(** ** The game comes to an end *)

Lemma answers_in
    (make_bid : nat -> Player.t -> option Card.t -> Game.bid_state -> option Card.t)
    (i : nat) (todo : list Player.t) (d : option Card.t) (st : Game.bid_state)
    (k : nat) (c : Card.t) :
  In (k, c) (Ledger.answers_from make_bid i todo d st) ->
  exists p,
    nth_error todo (k - i) = Some p /\ (i <= k)%nat /\
    Player.has_cards p = true /\ make_bid k p d st = Some c.
Proof.
  revert i. induction todo as [|q todo IH]; intros i; simpl; [intros []|].
  intros H. apply in_app_or in H. destruct H as [H|H].
  - destruct (Player.has_cards q) eqn:Hq; [|destruct H].
    destruct (make_bid i q d st) as [bid|] eqn:Hb; [|destruct H].
    destruct H as [[= <- <-]|[]]. exists q. rewrite Nat.sub_diag. repeat split; auto.
  - destruct (IH (S i) H) as (p & Hp & Hle & Hc & Hm).
    exists p. replace (k - i)%nat with (S (k - S i)) by lia.
    repeat split; auto. lia.
Qed.

Lemma list_remove_length (c : Card.t) (l : list Card.t) :
  (length (snd (list_remove c l)) <= length l)%nat /\
  ((exists x, In x l /\ Card.rank x = Card.rank c) ->
   S (length (snd (list_remove c l))) = length l).
Proof.
  destruct (list_remove_cases c l) as [(pre & c' & post & Hl & _ & _ & Hr)|[Habs Hr]];
    rewrite Hr; simpl.
  - rewrite Hl, !length_app. simpl. split; [lia | intros _; lia].
  - split; [lia|]. intros [x [Hin Hx]]. exfalso. exact (Habs x Hin Hx).
Qed.

Lemma hands_after_remove (k : nat) (c : Card.t) (ps : list Player.t) :
  (length (concat (map Player.hand
             (modify k (fun p => snd (Player.remove_card c p)) ps)))
   <= length (concat (map Player.hand ps)))%nat /\
  (forall p, nth_error ps k = Some p -> PlayerOps.can_bid c p = true ->
     S (length (concat (map Player.hand
                  (modify k (fun p => snd (Player.remove_card c p)) ps))))
     = length (concat (map Player.hand ps))).
Proof.
  revert k. induction ps as [|q ps IH]; intros k.
  - destruct k; simpl; (split; [lia|]); intros p Hp; discriminate Hp.
  - destruct k as [|k]; simpl; rewrite !length_app.
    + rewrite remove_card_hand.
      destruct (list_remove_length c (Player.hand q)) as [Hle Heq].
      split; [lia|]. intros p [= <-] Hcan. apply can_bid_rank in Hcan.
      specialize (Heq Hcan). lia.
    + destruct (IH k) as [Hle Heq]. split; [lia|].
      intros p Hp Hcan. specialize (Heq p Hp Hcan). lia.
Qed.

Lemma hands_after_bids (b : list (nat * Card.t)) (ps : list Player.t) :
  (length (concat (map Player.hand (Game.remove_bid_cards b ps)))
   <= length (concat (map Player.hand ps)))%nat.
Proof.
  revert ps. induction b as [|[k c] b IH]; intros ps; simpl; [lia|].
  etransitivity; [apply IH|]. apply hands_after_remove.
Qed.

Lemma hands_after_first_bid (k : nat) (c : Card.t) (b : list (nat * Card.t))
    (ps : list Player.t) (p : Player.t) :
  nth_error ps k = Some p -> PlayerOps.can_bid c p = true ->
  (length (concat (map Player.hand (Game.remove_bid_cards ((k, c) :: b) ps)))
   < length (concat (map Player.hand ps)))%nat.
Proof.
  intros Hp Hcan. simpl.
  pose proof (hands_after_bids b (modify k (fun p => snd (Player.remove_card c p)) ps)).
  pose proof (proj2 (hands_after_remove k c ps) p Hp Hcan). lia.
Qed.

Section Abiding.

Variable make_bid : nat -> Player.t -> option Card.t -> Game.bid_state -> option Card.t.

(** The strategies keep their contract, up to the suit: a card they answer
    with has the rank of a card of the hand. *)
Hypothesis abiding :
  forall i p d st c, make_bid i p d st = Some c -> PlayerOps.can_bid c p = true.

Lemma round_shrinks (g g' : Game.t) (rr : Round.t) (r : Resolved.t) :
  Game.play_round make_bid g = Ok (Game.round rr, g') ->
  Round.result rr = Some r ->
  (length (Ledger.in_hands g') + length (Ledger.in_supply g')
   < length (Ledger.in_hands g) + length (Ledger.in_supply g))%nat.
Proof.
  intros Hplay Hres.
  destruct (play_round_resolved_inv make_bid g g' rr r Hplay Hres)
    as (Hover & Hend & c & g2 & Hget).
  destruct (play_round_played make_bid g g2 c Hover Hend Hget)
    as (r0 & ps & Hr & _ & _ & _ & Hhands & _ & Hplay0).
  cbv zeta in Hplay0. rewrite Hplay0 in Hplay. clear Hplay0.
  injection Hplay as <- <-. simpl in Hres. injection Hres as ->.
  pose proof (Permutation_length (get_auction_card_supply g g2 c Hget)) as Hsupply.
  unfold Ledger.in_hands, Ledger.in_supply in *. simpl in Hsupply |- *.
  set (b := Ledger.answers_from make_bid 0 (Game.players g) (Some c) _) in *.
  rewrite <- Hhands. rewrite !length_app in *.
  pose proof (hands_after_bids b ps) as Hle.
  destruct (Resolved.carry_forward r) eqn:Hc; simpl; [|lia].
  assert (Hne : b <> []).
  { intros Hb. revert Hr. unfold Auction.resolve_auction. simpl Auction.bids.
    rewrite Hb. intros [= <-]. discriminate Hc. }
  destruct b as [|[k c1] rest] eqn:Eb; [congruence|].
  assert (Hin : In (k, c1) (Ledger.answers_from make_bid 0 (Game.players g) (Some c)
            (Game.make_bid_state (S (Game.round_number g)) (Game.players g)
               (Game.game_history g)))).
  { fold b. rewrite Eb. left. reflexivity. }
  apply answers_in in Hin. destruct Hin as (p & Hp & _ & _ & Hm).
  rewrite Nat.sub_0_r in Hp. apply abiding in Hm.
  assert (Hp0 : exists p0, nth_error ps k = Some p0 /\ Player.hand p0 = Player.hand p).
  { pose proof (f_equal (fun l => nth_error l k) Hhands) as E. simpl in E.
    rewrite !nth_error_map, Hp in E.
    destruct (nth_error ps k) as [p0|]; [|discriminate E].
    exists p0. split; [reflexivity|]. simpl in E. congruence. }
  destruct Hp0 as (p0 & Hp0 & Hh).
  assert (Hcan : PlayerOps.can_bid c1 p0 = true).
  { unfold PlayerOps.can_bid in *. rewrite Hh. exact Hm. }
  pose proof (hands_after_first_bid k c1 rest ps p0 Hp0 Hcan). lia.
Qed.

Lemma play_rounds_raise (fuel : nat) (g : Game.t) :
  Game.game_over g = false ->
  (length (Ledger.in_hands g) + length (Ledger.in_supply g) < fuel)%nat ->
  GameFlow.play_rounds make_bid fuel g = GameFlow.Raised (GameFlow.Inner AttributeError).
Proof.
  revert g. induction fuel as [|k IH]; intros g Hover Hfuel; [lia|].
  simpl. rewrite Hover.
  destruct (play_round_step make_bid g Hover)
    as [(g1 & Hplay)|(rr & g1 & c & g2 & r & _ & Hplay & Hres & Hgo & Hover1 & Hdisp & _)].
  - rewrite Hplay, display_ending_round. reflexivity.
  - pose proof (round_shrinks g g1 rr r Hplay Hres) as Hlt.
    rewrite Hplay, Hdisp, Hgo. apply IH; [exact Hover1 | lia].
Qed.

End Abiding.

(** X16.  With strategies that bid a card the player can bid, a played
    round makes the cards in the hands and in the supply (pile and queue)
    fewer: a round without carry-forward uses up the revealed card, and a
    carry-forward tie costs the bidders their cards.  So the game cannot go
    on for ever. *)
Theorem played_round_uses_cards
    (make_bid : nat -> Player.t -> option Card.t -> Game.bid_state -> option Card.t)
    (g g' : Game.t) (rr : Round.t) (r : Resolved.t) :
  (forall i p d st c, make_bid i p d st = Some c -> PlayerOps.can_bid c p = true) ->
  Game.play_round make_bid g = Ok (Game.round rr, g') ->
  Round.result rr = Some r ->
  (length (Ledger.in_hands g') + length (Ledger.in_supply g')
   < length (Ledger.in_hands g) + length (Ledger.in_supply g))%nat.
Proof.
  intros Habide. apply round_shrinks. exact Habide.
Qed.

Lemma played_round_uses_cards_witness :
  let make_bid := Sample.typed Sample.both_kings in
  let g := Sample.opening "carry_forward" in
  exists rr g' r,
    Game.play_round make_bid g = Ok (Game.round rr, g') /\
    Round.result rr = Some r /\
    Resolved.carry_forward r = true /\
    (length (Ledger.in_hands g') + length (Ledger.in_supply g')
     < length (Ledger.in_hands g) + length (Ledger.in_supply g))%nat.
Proof.
  intros make_bid g. eexists. eexists. eexists.
  split; [vm_compute; reflexivity|]. split; [reflexivity|]. split; [reflexivity|].
  eapply (played_round_uses_cards make_bid g);
    [|vm_compute; reflexivity|reflexivity].
  intros i p d st c. unfold make_bid, Sample.typed, Sample.both_kings.
  intros H. apply find_some in H. destruct H as [Hin _].
  apply can_bid_rank. exists c. split; [exact Hin | reflexivity].
Defined.

(** X17.  With such strategies the loop of [play_full_game] always comes to
    the round that ends the game, after as many played rounds as there are
    cards in the hands and the supply at most, and raises [AttributeError]
    there; an
    unknown tie-handling name makes [setup_game] raise [ValueError]
    before. *)
Theorem play_full_game_raises
    (make_bid : nat -> Player.t -> option Card.t -> Game.bid_state -> option Card.t)
    (shuffle : nat -> list Card.t -> list Card.t) (g : Game.t) :
  (forall i p d st c, make_bid i p d st = Some c -> PlayerOps.can_bid c p = true) ->
  (forall g0 fuel,
      Game.game_over g0 = false ->
      (length (Ledger.in_hands g0) + length (Ledger.in_supply g0) < fuel)%nat ->
      GameFlow.play_rounds make_bid fuel g0
      = GameFlow.Raised (GameFlow.Inner AttributeError))
  /\
  exists rounds,
    forall fuel, (rounds <= fuel)%nat ->
      GameFlow.play_full_game make_bid shuffle fuel g
      = GameFlow.Raised
          (if String.eqb (Game.tie_handling g) "split"
              || String.eqb (Game.tie_handling g) "carry_forward"
           then GameFlow.Inner AttributeError else GameFlow.ValueError).
Proof.
  intros Habide. split.
  - intros g0 fuel. apply play_rounds_raise. exact Habide.
  - unfold GameFlow.play_full_game, GameFlow.setup_game, Auction.set_tie_handling.
    destruct (GameFlow.deal_cards_to_players _ _) as [ps d].
    destruct (String.eqb (Game.tie_handling g) "split"
              || String.eqb (Game.tie_handling g) "carry_forward").
    + match goal with
      | |- context [GameFlow.play_rounds make_bid _ ?g0] =>
          exists (S (length (Ledger.in_hands g0) + length (Ledger.in_supply g0)));
          intros fuel Hfuel;
          rewrite (play_rounds_raise make_bid Habide fuel g0 eq_refl) by lia
      end.
      reflexivity.
    + exists O. intros fuel _. reflexivity.
Qed.

Lemma play_full_game_raises_witness :
  let make_bid := Sample.typed Sample.both_kings in
  let g := Sample.late in
  (forall i p d st c, make_bid i p d st = Some c -> PlayerOps.can_bid c p = true) /\
  GameFlow.play_rounds make_bid 4 g = GameFlow.Raised (GameFlow.Inner AttributeError).
Proof.
  intros make_bid g.
  assert (H : forall i p d st c,
             make_bid i p d st = Some c -> PlayerOps.can_bid c p = true).
  { intros i p d st c. unfold make_bid, Sample.typed, Sample.both_kings.
    intros H. apply find_some in H. destruct H as [Hin _].
    apply can_bid_rank. exists c. split; [exact Hin | reflexivity]. }
  split; [exact H|].
  apply (proj1 (play_full_game_raises make_bid (fun _ l => l) g H) g 4%nat).
  - reflexivity.
  - vm_compute. lia.
Defined.

(** ** The winner of the game *)

Lemma dict_set_fresh (key : string) (value : Z) (scores : list (string * Z)) :
  ~ In key (map fst scores) ->
  GameFlow.dict_set key value scores = scores ++ [(key, value)].
Proof.
  induction scores as [|[k v] scores IH]; simpl; intros Hk; [reflexivity|].
  destruct (String.eqb_spec k key) as [->|Hne].
  - exfalso. apply Hk. left. reflexivity.
  - rewrite IH; [reflexivity|]. intros H. apply Hk. right. exact H.
Qed.

Lemma scores_of_distinct_names (ps : list Player.t) (acc : list (string * Z)) :
  NoDup (map fst acc ++ map Player.name ps) ->
  fold_left (fun scores player =>
               GameFlow.dict_set (Player.name player) (Player.get_score player) scores)
            ps acc
  = acc ++ map (fun p => (Player.name p, Player.get_score p)) ps.
Proof.
  revert acc. induction ps as [|p ps IH]; intros acc Hnd; simpl.
  - rewrite app_nil_r. reflexivity.
  - rewrite dict_set_fresh.
    + rewrite IH.
      * rewrite <- app_assoc. reflexivity.
      * rewrite map_app. simpl. rewrite <- app_assoc. exact Hnd.
    + simpl in Hnd. apply NoDup_remove_2 in Hnd. intros H. apply Hnd.
      apply in_or_app. left. exact H.
Qed.

Lemma game_scores_distinct_names (g : Game.t) :
  NoDup (map Player.name (Game.players g)) ->
  map snd (GameFlow.get_game_scores g) = map Player.get_score (Game.players g).
Proof.
  intros Hnd. unfold GameFlow.get_game_scores.
  rewrite scores_of_distinct_names by exact Hnd. simpl.
  rewrite map_map. reflexivity.
Qed.

Lemma fold_max_bounds (v : Z) (r : list Z) :
  In (fold_left Z.max r v) (v :: r) /\
  forall x, In x (v :: r) -> x <= fold_left Z.max r v.
Proof.
  revert v. induction r as [|y r IH]; intros v; simpl.
  - split; [left; reflexivity|]. intros x [<-|[]]. lia.
  - destruct (IH (Z.max v y)) as [Hin Hle]. split.
    + destruct Hin as [H|H]; [|right; right; exact H].
      rewrite <- H. destruct (Z.max_spec v y) as [[_ ->]|[_ ->]]; [right|]; left; reflexivity.
    + intros x [Hx|[Hx|Hx]].
      * specialize (Hle (Z.max v y) (or_introl eq_refl)). lia.
      * specialize (Hle (Z.max v y) (or_introl eq_refl)). lia.
      * apply Hle. right. exact Hx.
Qed.

Lemma in_combine_seq {A : Type} (l : list A) (a i : nat) (x : A) :
  In (i, x) (combine (seq a (length l)) l) <->
  (a <= i)%nat /\ nth_error l (i - a) = Some x.
Proof.
  revert a. induction l as [|y l IH]; intros a; simpl.
  - split; [intros [] | intros [_ H]; destruct (i - a)%nat; discriminate H].
  - rewrite IH. split.
    + intros [[= <- <-]|[Hle Hn]].
      * rewrite Nat.sub_diag. split; [lia | reflexivity].
      * split; [lia|]. replace (i - a)%nat with (S (i - S a)) by lia. exact Hn.
    + intros [Hle Hn]. destruct (Nat.eq_dec a i) as [->|Hne].
      * rewrite Nat.sub_diag in Hn. left. simpl in Hn. congruence.
      * right. split; [lia|].
        replace (i - a)%nat with (S (i - S a)) in Hn by lia. exact Hn.
Qed.

Lemma map_fst_combine_seq {A : Type} (l : list A) (a : nat) :
  map fst (combine (seq a (length l)) l) = seq a (length l).
Proof.
  revert a. induction l as [|y l IH]; intros a; simpl; [reflexivity|].
  rewrite IH. reflexivity.
Qed.

Lemma NoDup_map_fst_filter {A B : Type} (f : A * B -> bool) (l : list (A * B)) :
  NoDup (map fst l) -> NoDup (map fst (filter f l)).
Proof.
  induction l as [|x l IH]; simpl; intros Hnd; [constructor|].
  inversion Hnd as [|? ? Hx Hl]; subst.
  destruct (f x); simpl; [|apply IH; exact Hl].
  constructor; [|apply IH; exact Hl].
  intros H. apply Hx. apply in_map_iff in H. destruct H as (y & Hy & Hin).
  apply filter_In in Hin. rewrite <- Hy. apply in_map. exact (proj1 Hin).
Qed.

Lemma winners_in (g : Game.t) (m : Z) (w : nat) :
  In w (GameFlow.winners g m) <->
  exists p, nth_error (Game.players g) w = Some p /\ Player.get_score p = m.
Proof.
  unfold GameFlow.winners. rewrite in_map_iff. split.
  - intros ([i p] & <- & Hin). apply filter_In in Hin. destruct Hin as [Hin Hp].
    apply in_combine_seq in Hin. destruct Hin as [_ Hn]. rewrite Nat.sub_0_r in Hn.
    exists p. split; [exact Hn | apply Z.eqb_eq; exact Hp].
  - intros (p & Hn & Hp). exists (w, p). split; [reflexivity|].
    apply filter_In. split; [|apply Z.eqb_eq; exact Hp].
    apply in_combine_seq. rewrite Nat.sub_0_r. split; [lia | exact Hn].
Qed.

Lemma winners_distinct (g : Game.t) (m : Z) : NoDup (GameFlow.winners g m).
Proof.
  unfold GameFlow.winners. apply NoDup_map_fst_filter.
  rewrite map_fst_combine_seq. apply seq_NoDup.
Qed.

(** X18.  For a finished game with one player or more, under pairwise
    distinct names: [get_winner] and [is_draw] raise nothing and exclude
    each other.  Either [get_winner] names the one participant whose score
    is the largest and [is_draw] is [False], or two participants or more
    share the largest score, [get_winner] is [None] and [is_draw] is
    [True]. *)
Theorem winner_or_draw (g : Game.t) :
  Game.game_over g = true ->
  Game.players g <> [] ->
  NoDup (map Player.name (Game.players g)) ->
  exists m,
    (forall p, In p (Game.players g) -> Player.get_score p <= m) /\
    ((exists w p,
        GameFlow.get_winner g = inr (Some w) /\
        GameFlow.is_draw g = inr false /\
        nth_error (Game.players g) w = Some p /\ Player.get_score p = m /\
        forall j q, nth_error (Game.players g) j = Some q ->
                    Player.get_score q = m -> j = w)
     \/
     (GameFlow.get_winner g = inr None /\
      GameFlow.is_draw g = inr true /\
      exists i j p q,
        i <> j /\
        nth_error (Game.players g) i = Some p /\ Player.get_score p = m /\
        nth_error (Game.players g) j = Some q /\ Player.get_score q = m)).
Proof.
  intros Hover Hne Hnd.
  unfold GameFlow.get_winner, GameFlow.is_draw. rewrite Hover. simpl negb. cbv iota.
  rewrite (game_scores_distinct_names g Hnd).
  destruct (Game.players g) as [|p0 ps] eqn:Hps; [congruence|].
  simpl map. unfold GameFlow.max_score.
  set (m := fold_left Z.max (map Player.get_score ps) (Player.get_score p0)).
  destruct (fold_max_bounds (Player.get_score p0) (map Player.get_score ps))
    as [Hin Hmax]. fold m in Hin, Hmax.
  exists m. split.
  { intros p Hp. apply Hmax. change (In (Player.get_score p) (map Player.get_score (p0 :: ps))).
    apply in_map. exact Hp. }
  assert (Hsome : exists w0, In w0 (GameFlow.winners g m)).
  { change (In m (map Player.get_score (p0 :: ps))) in Hin.
    apply in_map_iff in Hin. destruct Hin as (p & Hp & Hin).
    apply In_nth_error in Hin. destruct Hin as [w0 Hw0].
    exists w0. apply winners_in. exists p. rewrite Hps. split; assumption. }
  pose proof (winners_distinct g m) as Hdist.
  pose proof (winners_in g m) as Hwin. rewrite Hps in Hwin.
  destruct (GameFlow.winners g m) as [|w [|w' rest]].
  - destruct Hsome as [w0 []].
  - left. destruct (proj1 (Hwin w) (or_introl eq_refl)) as (p & Hp & Hs).
    exists w, p. repeat split; try assumption.
    intros j q Hq Hsq.
    assert (Hj : In j [w]) by (apply Hwin; exists q; split; assumption).
    destruct Hj as [<-|[]]. reflexivity.
  - right. split; [reflexivity|]. split; [reflexivity|].
    destruct (proj1 (Hwin w) (or_introl eq_refl)) as (p & Hp & Hs).
    destruct (proj1 (Hwin w') (or_intror (or_introl eq_refl))) as (q & Hq & Hsq).
    exists w, w', p, q. repeat split; try assumption.
    inversion Hdist as [|? ? Hnotin _]; subst. intros ->. apply Hnotin. left. reflexivity.
Qed.

Lemma winner_or_draw_witness :
  let g := Game.with_game_over true Sample.late in
  Game.game_over g = true /\ Game.players g <> [] /\
  NoDup (map Player.name (Game.players g)) /\
  exists m,
    (forall p, In p (Game.players g) -> Player.get_score p <= m) /\
    ((exists w p,
        GameFlow.get_winner g = inr (Some w) /\
        GameFlow.is_draw g = inr false /\
        nth_error (Game.players g) w = Some p /\ Player.get_score p = m /\
        forall j q, nth_error (Game.players g) j = Some q ->
                    Player.get_score q = m -> j = w)
     \/
     (GameFlow.get_winner g = inr None /\
      GameFlow.is_draw g = inr true /\
      exists i j p q,
        i <> j /\
        nth_error (Game.players g) i = Some p /\ Player.get_score p = m /\
        nth_error (Game.players g) j = Some q /\ Player.get_score q = m)).
Proof.
  intros g.
  assert (H1 : Game.game_over g = true) by reflexivity.
  assert (H2 : Game.players g <> []) by discriminate.
  assert (H3 : NoDup (map Player.name (Game.players g))).
  { simpl. constructor; [intros [H|[]]; discriminate H|]. constructor; [intros []|constructor]. }
  split; [exact H1|]. split; [exact H2|]. split; [exact H3|].
  exact (winner_or_draw g H1 H2 H3).
Defined.

(** X19.  Before the end of the game [get_winner] is [None] and [is_draw]
    is [False]; for a finished game without players both raise
    [ValueError].  The scores are keyed by name: of two players with one
    name the dictionary keeps the score of the second, so for such a pair
    [get_winner] names the second player whenever the two scores differ,
    also when the first has more points. *)
Theorem winner_edge_cases (g : Game.t) :
  (Game.game_over g = false ->
   GameFlow.get_winner g = inr None /\ GameFlow.is_draw g = inr false)
  /\
  (Game.game_over g = true -> Game.players g = [] ->
   GameFlow.get_winner g = inl GameFlow.ValueError /\
   GameFlow.is_draw g = inl GameFlow.ValueError)
  /\
  (forall p q,
      Game.game_over g = true -> Game.players g = [p; q] ->
      Player.name p = Player.name q ->
      GameFlow.get_game_scores g = [(Player.name p, Player.get_score q)] /\
      GameFlow.get_winner g
      = inr (if Player.get_score p =? Player.get_score q then None else Some 1%nat) /\
      GameFlow.is_draw g = inr (Player.get_score p =? Player.get_score q)).
Proof.
  unfold GameFlow.get_winner, GameFlow.is_draw, GameFlow.get_game_scores, GameFlow.winners.
  split; [|split].
  - intros ->. split; reflexivity.
  - intros -> ->. split; reflexivity.
  - intros p q -> -> Hname. simpl.
    rewrite Hname, String.eqb_refl. simpl. rewrite Z.eqb_refl.
    destruct (Player.get_score p =? Player.get_score q); repeat split.
Qed.

Lemma winner_edge_cases_witness :
  let p := Player.make "A" Card.HEARTS [] [Card.make Card.DIAMONDS Card.TEN] in
  let q := Player.make "A" Card.CLUBS [] [Card.make Card.DIAMONDS Card.FIVE] in
  let g := Game.with_game_over true (Game.init [p; q] [Card.DIAMONDS]) in
  Game.game_over g = true /\ Game.players g = [p; q] /\ Player.name p = Player.name q /\
  Player.get_score p = 10 /\ Player.get_score q = 5 /\
  GameFlow.get_winner g
  = inr (if Player.get_score p =? Player.get_score q then None else Some 1%nat).
Proof.
  intros p q g.
  assert (H1 : Game.game_over g = true) by reflexivity.
  assert (H2 : Game.players g = [p; q]) by reflexivity.
  assert (H3 : Player.name p = Player.name q) by reflexivity.
  split; [exact H1|]. split; [exact H2|]. split; [exact H3|].
  split; [reflexivity|]. split; [reflexivity|].
  exact (proj1 (proj2 (proj2 (proj2 (winner_edge_cases g)) p q H1 H2 H3))).
Defined.

(** ** Dealing *)

Section ByRank.

Variable r : Card.Rank.

Let of_rank (l : list Card.t) : list Card.t :=
  filter (fun x => DeckOps.rank_eqb (Card.rank x) r) l.

Lemma rank_eqb_eq (a b : Card.Rank) : DeckOps.rank_eqb a b = true <-> a = b.
Proof.
  unfold DeckOps.rank_eqb. rewrite Z.eqb_eq. split; [apply rank_value_inj | congruence].
Qed.

Lemma of_rank_after_remove (c : Card.t) (l : list Card.t) :
  of_rank (snd (list_remove c l))
  = if DeckOps.rank_eqb (Card.rank c) r then tl (of_rank l) else of_rank l.
Proof.
  unfold of_rank. induction l as [|y l IH]; simpl.
  - destruct (DeckOps.rank_eqb (Card.rank c) r); reflexivity.
  - destruct (Card.eq y c) eqn:Hy; simpl.
    + apply card_eq_rank in Hy. rewrite Hy.
      destruct (DeckOps.rank_eqb (Card.rank c) r); reflexivity.
    + destruct (list_remove c l) as [found l'] eqn:Hl. simpl in *.
      destruct (DeckOps.rank_eqb (Card.rank y) r) eqn:Hyr.
      * rewrite IH. destruct (DeckOps.rank_eqb (Card.rank c) r) eqn:Hcr; [|reflexivity].
        apply rank_eqb_eq in Hyr, Hcr. apply card_eq_rank_false in Hy. congruence.
      * exact IH.
Qed.

Lemma of_rank_after_removals (cs l : list Card.t) :
  of_rank (fold_left (fun l c => snd (list_remove c l)) cs l)
  = skipn (length (of_rank cs)) (of_rank l).
Proof.
  revert l. induction cs as [|c cs IH]; intros l; [reflexivity|].
  simpl fold_left. rewrite IH, of_rank_after_remove.
  change (of_rank (c :: cs))
    with (if DeckOps.rank_eqb (Card.rank c) r then c :: of_rank cs else of_rank cs).
  destruct (DeckOps.rank_eqb (Card.rank c) r); [|reflexivity].
  simpl length. destruct (of_rank l); [rewrite !skipn_nil|]; reflexivity.
Qed.

End ByRank.

Lemma removals_size (cs l : list Card.t) :
  (forall r, (length (filter (fun x => DeckOps.rank_eqb (Card.rank x) r) cs)
              <= length (filter (fun x => DeckOps.rank_eqb (Card.rank x) r) l))%nat) ->
  (length (fold_left (fun l c => snd (list_remove c l)) cs l) + length cs = length l)%nat.
Proof.
  revert l. induction cs as [|c cs IH]; intros l Hle; simpl; [lia|].
  assert (Hex : exists x, In x l /\ Card.rank x = Card.rank c).
  { specialize (Hle (Card.rank c)). simpl in Hle.
    rewrite (proj2 (rank_eqb_eq _ _) eq_refl) in Hle. simpl in Hle.
    destruct (filter _ l) as [|x f] eqn:Hf; [simpl in Hle; lia|].
    assert (Hx : In x (filter (fun x => DeckOps.rank_eqb (Card.rank x) (Card.rank c)) l))
      by (rewrite Hf; left; reflexivity).
    apply filter_In in Hx. exists x. split; [exact (proj1 Hx)|].
    apply rank_eqb_eq. exact (proj2 Hx). }
  pose proof (proj2 (list_remove_length c l) Hex) as Hlen.
  assert (Hrest : forall r,
    (length (filter (fun x => DeckOps.rank_eqb (Card.rank x) r) cs)
     <= length (filter (fun x => DeckOps.rank_eqb (Card.rank x) r)
                       (snd (list_remove c l))))%nat).
  { intros r. rewrite of_rank_after_remove. specialize (Hle r). simpl in Hle.
    destruct (DeckOps.rank_eqb (Card.rank c) r); [|exact Hle].
    simpl in Hle. destruct (filter _ l); simpl in *; lia. }
  pose proof (IH (snd (list_remove c l)) Hrest) as E. lia.
Qed.

Lemma filter_filter_shorter {A : Type} (f g : A -> bool) (l : list A) :
  (length (filter f (filter g l)) <= length (filter f l))%nat.
Proof.
  induction l as [|x l IH]; simpl; [lia|].
  destruct (g x); simpl; destruct (f x); simpl; lia.
Qed.

Lemma deck_removals (cs : list Card.t) (d : Deck.t) :
  Deck.cards (fold_left (fun deck card => snd (DeckOps.remove_card card deck)) cs d)
  = fold_left (fun l c => snd (list_remove c l)) cs (Deck.cards d).
Proof.
  revert d. induction cs as [|c cs IH]; intros d; [reflexivity|].
  simpl. rewrite IH. unfold DeckOps.remove_card.
  destruct (list_remove c (Deck.cards d)). reflexivity.
Qed.

Lemma hand_after_adds (cs : list Card.t) (p : Player.t) :
  fold_left (fun p card => Player.add_card card p) cs p
  = Player.make (Player.name p) (Player.suit p) (Player.hand p ++ cs) (Player.won_cards p).
Proof.
  revert p. induction cs as [|c cs IH]; intros p; simpl.
  - rewrite app_nil_r. destruct p; reflexivity.
  - rewrite IH. simpl. rewrite <- app_assoc. reflexivity.
Qed.

Lemma deal_to_result (p : Player.t) (d : Deck.t) :
  let dealt := DeckOps.get_cards_by_suit (Player.suit p) d in
  fst (GameFlow.deal_to p d)
  = Player.make (Player.name p) (Player.suit p) (Player.hand p ++ dealt)
                (Player.won_cards p)
  /\ (Deck.size (snd (GameFlow.deal_to p d)) + length dealt = Deck.size d)%nat
  /\ forall r,
       filter (fun x => DeckOps.rank_eqb (Card.rank x) r)
              (Deck.cards (snd (GameFlow.deal_to p d)))
       = skipn (length (filter (fun x => DeckOps.rank_eqb (Card.rank x) r) dealt))
               (filter (fun x => DeckOps.rank_eqb (Card.rank x) r) (Deck.cards d)).
Proof.
  intros dealt. unfold GameFlow.deal_to. fold dealt. simpl fst. simpl snd.
  split; [apply hand_after_adds|]. unfold Deck.size. rewrite deck_removals. split.
  - apply removals_size. intros r. unfold dealt, DeckOps.get_cards_by_suit.
    apply filter_filter_shorter.
  - intros r. apply of_rank_after_removals.
Qed.

(** X20.  Dealing to one player: the hand gets, behind the cards it had,
    the cards of the player's suit that are in the deck, in deck order; the
    deck gets smaller by that many cards, but the cards that leave it are
    chosen by rank: of every rank the deck loses its first cards, as many
    as the player got of that rank, whatever their suits. *)
Theorem deal_to_takes_by_rank (p : Player.t) (d : Deck.t) :
  let dealt := DeckOps.get_cards_by_suit (Player.suit p) d in
  let p' := fst (GameFlow.deal_to p d) in
  let d' := snd (GameFlow.deal_to p d) in
  Player.hand p' = Player.hand p ++ dealt
  /\ Player.won_cards p' = Player.won_cards p
  /\ (forall c, In c dealt <-> In c (Deck.cards d) /\ Card.suit c = Player.suit p)
  /\ (Deck.size d' + length dealt = Deck.size d)%nat
  /\ forall r,
       filter (fun x => DeckOps.rank_eqb (Card.rank x) r) (Deck.cards d')
       = skipn (length (filter (fun x => DeckOps.rank_eqb (Card.rank x) r) dealt))
               (filter (fun x => DeckOps.rank_eqb (Card.rank x) r) (Deck.cards d)).
Proof.
  intros dealt p' d'.
  destruct (deal_to_result p d) as (Hp & Hsize & Hrank). fold dealt in Hp, Hsize, Hrank.
  unfold p', d'. rewrite Hp. simpl.
  split; [reflexivity|]. split; [reflexivity|].
  split; [|split; [exact Hsize | exact Hrank]].
  intros c. unfold dealt, DeckOps.get_cards_by_suit. rewrite filter_In, suit_eqb_eq.
  reflexivity.
Qed.

Lemma filter_none {A : Type} (f : A -> bool) (l : list A) :
  (forall z, In z l -> f z = false) -> filter f l = [].
Proof.
  induction l as [|y l IH]; intros H; simpl; [reflexivity|].
  rewrite (H y (or_introl eq_refl)). apply IH. intros z Hz. apply H. right. exact Hz.
Qed.

Lemma filter_only {A : Type} (f : A -> bool) (l : list A) (c : A) :
  NoDup l -> In c l -> f c = true ->
  (forall y, In y l -> f y = true -> y = c) ->
  filter f l = [c].
Proof.
  intros Hnd Hin Hc Hf. induction l as [|y l IH]; [destruct Hin|].
  inversion Hnd as [|? ? Hy Hl]; subst. simpl.
  destruct (f y) eqn:E.
  - assert (y = c) as -> by (apply Hf; [left; reflexivity | exact E]).
    f_equal. apply filter_none. intros z Hz.
    destruct (f z) eqn:Ez; [|reflexivity].
    assert (z = c) as -> by (apply Hf; [right; exact Hz | exact Ez]). contradiction.
  - apply IH; [exact Hl| |].
    + destruct Hin as [->|Hin]; [congruence | exact Hin].
    + intros z Hz. apply Hf. right. exact Hz.
Qed.

(** X21.  So dealing can take the wrong card.  In a deck without
    duplicates, when the first card of some rank is not of the player's
    suit, the player's own card of that rank goes to the hand and stays in
    the deck as well, and the card of the other suit is the one that leaves
    the deck. *)
Theorem deal_to_takes_wrong_card (p : Player.t) (d : Deck.t)
    (pre post : list Card.t) (x c : Card.t) :
  NoDup (Deck.cards d) ->
  Deck.cards d = pre ++ x :: post ->
  (forall y, In y pre -> Card.rank y <> Card.rank c) ->
  Card.rank x = Card.rank c ->
  Card.suit x <> Player.suit p ->
  In c post ->
  Card.suit c = Player.suit p ->
  In c (Player.hand (fst (GameFlow.deal_to p d)))
  /\ In c (Deck.cards (snd (GameFlow.deal_to p d)))
  /\ ~ In x (Deck.cards (snd (GameFlow.deal_to p d))).
Proof.
  intros Hnd Hd Hpre Hx Hxs Hc Hcs.
  destruct (deal_to_result p d) as (Hp & _ & Hrank). cbv zeta in Hp, Hrank.
  assert (Hcd : In c (Deck.cards d)).
  { rewrite Hd. apply in_or_app. right. right. exact Hc. }
  split.
  { rewrite Hp. simpl. apply in_or_app. right.
    unfold DeckOps.get_cards_by_suit. apply filter_In. split; [exact Hcd|].
    apply suit_eqb_eq. exact Hcs. }
  specialize (Hrank (Card.rank c)).
  assert (Hone : filter (fun y => DeckOps.rank_eqb (Card.rank y) (Card.rank c))
                   (DeckOps.get_cards_by_suit (Player.suit p) d) = [c]).
  { unfold DeckOps.get_cards_by_suit.
    apply filter_only.
    - apply NoDup_filter. exact Hnd.
    - apply filter_In. split; [exact Hcd | apply suit_eqb_eq; exact Hcs].
    - apply rank_eqb_eq. reflexivity.
    - intros y Hy Hr. apply filter_In in Hy. destruct Hy as [_ Hs].
      apply suit_eqb_eq in Hs. apply rank_eqb_eq in Hr.
      destruct y as [sy ry], c as [sc rc]. simpl in *. congruence. }
  rewrite Hone in Hrank. simpl length in Hrank.
  assert (Hfirst : filter (fun y => DeckOps.rank_eqb (Card.rank y) (Card.rank c))
                     (Deck.cards d)
                   = x :: filter (fun y => DeckOps.rank_eqb (Card.rank y) (Card.rank c)) post).
  { rewrite Hd, filter_app. simpl.
    rewrite (proj2 (rank_eqb_eq _ _) Hx).
    replace (filter _ pre) with (@nil Card.t); [reflexivity|].
    symmetry. clear -Hpre. induction pre as [|y pre IH]; [reflexivity|]. simpl.
    destruct (DeckOps.rank_eqb (Card.rank y) (Card.rank c)) eqn:E.
    - apply rank_eqb_eq in E. exfalso. exact (Hpre y (or_introl eq_refl) E).
    - apply IH. intros z Hz. apply Hpre. right. exact Hz. }
  rewrite Hfirst in Hrank. simpl skipn in Hrank.
  split.
  - assert (H : In c (filter (fun y => DeckOps.rank_eqb (Card.rank y) (Card.rank c))
                        (Deck.cards (snd (GameFlow.deal_to p d))))).
    { rewrite Hrank. apply filter_In. split; [exact Hc | apply rank_eqb_eq; reflexivity]. }
    apply filter_In in H. exact (proj1 H).
  - intros Hin.
    assert (H : In x (filter (fun y => DeckOps.rank_eqb (Card.rank y) (Card.rank c))
                        (Deck.cards (snd (GameFlow.deal_to p d))))).
    { apply filter_In. split; [exact Hin | apply rank_eqb_eq; exact Hx]. }
    rewrite Hrank in H. apply filter_In in H. destruct H as [Hpost _].
    rewrite Hd in Hnd. apply NoDup_remove_2 in Hnd. apply Hnd.
    apply in_or_app. right. exact Hpost.
Qed.

(** ** What a round does to the queue, the scores and the history *)

Section RoundEffects.

Variable make_bid : nat -> Player.t -> option Card.t -> Game.bid_state -> option Card.t.

Lemma carried_round (g g' : Game.t) (rr : Round.t) (r : Resolved.t) :
  Game.play_round make_bid g = Ok (Game.round rr, g') ->
  Round.result rr = Some r ->
  Resolved.result_type r = Resolved.of_enum Resolved.TIE_CARRY_FORWARD ->
  exists c g2,
    Game.get_auction_card g = (Some c, g2) /\
    Round.diamond_card rr = Some c /\
    Round.carry_forward rr = true /\ Round.winner rr = None /\
    Game.carry_forward_diamonds g' = Game.carry_forward_diamonds g2 ++ [c] /\
    Game.deck g' = Game.deck g2 /\
    map Player.won_cards (Game.players g') = map Player.won_cards (Game.players g).
Proof.
  intros Hplay Hres Hkind.
  destruct (play_round_resolved_inv make_bid g g' rr r Hplay Hres)
    as (Hover & Hend & c & g2 & Hget).
  exists c, g2. split; [exact Hget|].
  destruct (play_round_played make_bid g g2 c Hover Hend Hget)
    as (r0 & ps & _ & _ & _ & _ & _ & Hcases & Hplay0).
  cbv zeta in Hplay0. rewrite Hplay0 in Hplay. clear Hplay0.
  injection Hplay as <- <-. simpl in Hres. injection Hres as ->. simpl.
  destruct Hcases as [(_ & Ht & _)|[(_ & Ht & _)|[(w & _ & Ht & _)
                     |[(tied & _ & Ht & _)|(_ & Hw & Hc & ->)]]]];
    try congruence.
  rewrite Hw, Hc. repeat split. apply remove_bid_cards_won.
Qed.

Lemma award_split_nth (d : Card.t) (q : Q) (tied : list nat) (ps : list Player.t) :
  NoDup tied ->
  exists ps',
    Game.award_split (Some d) (map (fun player => (player, q)) tied) ps = Ok ps' /\
    forall k,
      nth_error ps' k
      = option_map (fun p => if existsb (Nat.eqb k) tied
                             then Player.add_won_card d p else p)
                   (nth_error ps k).
Proof.
  revert ps. induction tied as [|t tied IH]; intros ps Hnd; simpl.
  - exists ps. split; [reflexivity|]. intros k. destruct (nth_error ps k); reflexivity.
  - inversion Hnd as [|? ? Ht Hnd']; subst.
    destruct (IH (modify t (Player.add_won_card d) ps) Hnd') as (ps' & Hps' & Hnth).
    exists ps'. split; [exact Hps'|]. intros k. rewrite Hnth.
    destruct (Nat.eqb_spec k t) as [->|Hne]; simpl.
    + rewrite nth_error_modify_same.
      assert (Hno : existsb (Nat.eqb t) tied = false).
      { destruct (existsb (Nat.eqb t) tied) eqn:E; [|reflexivity].
        apply existsb_exists in E. destruct E as (x & Hx & Heq).
        apply Nat.eqb_eq in Heq. subst x. contradiction. }
      rewrite Hno. destruct (nth_error ps t); reflexivity.
    + rewrite nth_error_modify_other by congruence. reflexivity.
Qed.

Lemma split_tied_distinct (a : Auction.t) (r : Resolved.t) :
  NoDup (map fst (Auction.bids a)) ->
  Auction.resolve_auction a = Ok r ->
  Resolved.result_type r = Resolved.of_enum Resolved.TIE_SPLIT ->
  exists tied d,
    Auction.current_diamond a = Some d /\
    Resolved.tied_players r = Some tied /\ NoDup tied /\
    Resolved.split_values r
    = map (fun player => (player, Auction.split_value_of d (length tied))) tied.
Proof.
  intros Hnd. unfold Auction.resolve_auction.
  destruct (Auction.bids a) as [|x [|y l]] eqn:Hb.
  - intros [= <-]. discriminate.
  - unfold Auction.determine_winner. rewrite Hb. simpl. intros [= <-]. discriminate.
  - assert (Hlen : (2 <= length (Auction.bids a))%nat) by (rewrite Hb; simpl; lia).
    destruct (determine_winner_cases a Hlen) as (first & _ & _ & Hcases).
    cbv zeta in Hcases. rewrite <- Hb.
    destruct Hcases as [[_ Hdw]|[Htied Hdw]]; rewrite Hdw.
    + intros [= <-]. discriminate.
    + destruct (String.eqb (Auction.tie_handling_method a) "split").
      * destruct (Auction.current_diamond a) as [d|]; [|discriminate].
        destruct (length _ =? 0)%nat; [discriminate|].
        intros [= <-] _. simpl. eexists. exists d.
        split; [reflexivity|]. split; [reflexivity|]. split; [|reflexivity].
        apply NoDup_map_fst_filter. rewrite Hb. exact Hnd.
      * intros [= <-]. discriminate.
Qed.

Lemma round_scores (g g' : Game.t) (rr : Round.t) (r : Resolved.t) :
  Game.play_round make_bid g = Ok (Game.round rr, g') ->
  Round.result rr = Some r ->
  exists c,
    Round.diamond_card rr = Some c /\
    forall i p,
      nth_error (Game.players g) i = Some p ->
      exists p',
        nth_error (Game.players g') i = Some p' /\
        Player.get_score p'
        = Player.get_score p
          + (if match Resolved.result_type r with
                | Resolved.of_enum Resolved.WINNER_DETERMINED =>
                    match Resolved.winner r with
                    | Some w => Nat.eqb i w
                    | None => false
                    end
                | Resolved.of_enum Resolved.TIE_SPLIT =>
                    match Resolved.tied_players r with
                    | Some tied => existsb (Nat.eqb i) tied
                    | None => false
                    end
                | _ => false
                end
             then Card.value c else 0).
Proof.
  intros Hplay Hres.
  destruct (play_round_resolved_inv make_bid g g' rr r Hplay Hres)
    as (Hover & Hend & c & g2 & Hget).
  destruct (play_round_played make_bid g g2 c Hover Hend Hget)
    as (r0 & ps & Hr & _ & _ & _ & _ & Hcases & Hplay0).
  cbv zeta in Hplay0. rewrite Hplay0 in Hplay. clear Hplay0.
  injection Hplay as <- <-. simpl in Hres. injection Hres as ->. simpl.
  exists c. split; [reflexivity|]. intros i p Hp.
  set (b := Ledger.answers_from make_bid 0 (Game.players g) (Some c) _) in *.
  rewrite remove_bid_cards_nth by apply answers_keys_distinct.
  assert (Hps : exists p0,
    nth_error ps i = Some p0 /\
    Player.get_score p0
    = Player.get_score p
      + (if match Resolved.result_type r with
            | Resolved.of_enum Resolved.WINNER_DETERMINED =>
                match Resolved.winner r with
                | Some w => Nat.eqb i w
                | None => false
                end
            | Resolved.of_enum Resolved.TIE_SPLIT =>
                match Resolved.tied_players r with
                | Some tied => existsb (Nat.eqb i) tied
                | None => false
                end
            | _ => false
            end
         then Card.value c else 0)).
  { destruct Hcases as [(_ & Ht & _ & _ & ->)|[(_ & Ht & _ & _ & ->)
                       |[(w & _ & Ht & Hw & _ & ->)
                       |[(tied & _ & Ht & _ & _ & _ & _ & Haward)|(Ht & _ & _ & ->)]]]];
      rewrite Ht.
    - exists p. split; [exact Hp | lia].
    - exists p. split; [exact Hp | lia].
    - rewrite Hw. destruct (Nat.eqb_spec i w) as [->|Hne].
      + rewrite nth_error_modify_same, Hp. simpl. eexists. split; [reflexivity|].
        apply score_add_won.
      + rewrite nth_error_modify_other by congruence. exists p. split; [exact Hp | lia].
    - assert (Hndb : NoDup (map fst b)) by apply answers_keys_distinct.
      match type of Hr with
      | Auction.resolve_auction ?a = _ =>
          destruct (split_tied_distinct a r Hndb Hr Ht)
            as (tied' & d & Hd & Htp & Hnd & Hsv)
      end.
      simpl in Hd. injection Hd as <-. rewrite Htp.
      rewrite Hsv in Haward.
      destruct (award_split_nth c (Auction.split_value_of c (length tied')) tied'
                  (Game.players g) Hnd) as (ps' & Hps' & Hnth).
      rewrite Hps' in Haward. injection Haward as <-.
      rewrite Hnth, Hp. simpl. eexists. split; [reflexivity|].
      destruct (existsb (Nat.eqb i) tied'); [apply score_add_won | lia].
    - exists p. split; [exact Hp | lia]. }
  destruct Hps as (p0 & -> & Hscore). simpl. eexists. split; [reflexivity|].
  rewrite <- Hscore.
  destruct (Auction.get_bid i b); [|reflexivity].
  unfold Player.get_score. rewrite remove_card_keeps_won. reflexivity.
Qed.

Lemma round_keeps_history (g : Game.t) :
  exists res g',
    Game.play_round make_bid g = Ok (res, g') /\
    match res with
    | Game.error _ => Game.game_over g = true /\ g' = g
    | Game.round rr =>
        Game.game_over g = false /\
        Game.round_number g' = S (Game.round_number g) /\
        Round.round_number rr = S (Game.round_number g) /\
        Game.game_over g' = Round.game_over rr /\
        Game.auction_suits g' = Game.auction_suits g /\
        Game.max_rounds g' = Game.max_rounds g /\
        Game.tie_handling g' = Game.tie_handling g /\
        Auction.tie_handling_method (Game.auction g')
        = Auction.tie_handling_method (Game.auction g) /\
        (if Round.game_over rr
         then Round.result rr = None /\
              Game.game_history g' = Game.game_history g /\
              Game.auction g' = Game.auction g /\
              Game.players g' = Game.players g
         else Round.result rr <> None /\ Round.diamond_card rr <> None /\
              Game.game_history g' = Game.game_history g ++ [rr] /\
              Auction.bids (Game.auction g') = [] /\
              Auction.current_diamond (Game.auction g') = Round.diamond_card rr)
    end.
Proof.
  destruct (Game.game_over g) eqn:Hover.
  { rewrite (play_round_after_over_aux make_bid g Hover).
    eexists. eexists. split; [reflexivity|]. split; reflexivity. }
  destruct (Game.should_end_game g) eqn:Hend.
  { rewrite (play_round_no_hands make_bid g Hover Hend).
    eexists. eexists. split; [reflexivity|]. simpl. repeat split. }
  destruct (Game.get_auction_card g) as [[c|] g2] eqn:Hget.
  2:{ assert (Hnone : fst (Game.get_auction_card g) = None) by (rewrite Hget; reflexivity).
      rewrite (play_round_no_supply make_bid g Hover Hend Hnone).
      eexists. eexists. split; [reflexivity|]. simpl. repeat split. }
  destruct (play_round_played make_bid g g2 c Hover Hend Hget)
    as (r & ps & _ & _ & _ & _ & _ & _ & Hplay).
  cbv zeta in Hplay. rewrite Hplay.
  eexists. eexists. split; [reflexivity|]. simpl.
  repeat split; discriminate.
Qed.

End RoundEffects.

(** X22.  A card that a carry-forward tie leaves unawarded goes to the back
    of the queue and changes no won-card list; it is revealed again after
    the cards that were queued before it and before any card of the pile:
    taking as many auction cards as the queue holds yields the queue in
    order, that card last, with the pile untouched. *)
Theorem carried_card_comes_back
    (make_bid : nat -> Player.t -> option Card.t -> Game.bid_state -> option Card.t)
    (g g' : Game.t) (rr : Round.t) (r : Resolved.t) :
  Game.play_round make_bid g = Ok (Game.round rr, g') ->
  Round.result rr = Some r ->
  Resolved.result_type r = Resolved.of_enum Resolved.TIE_CARRY_FORWARD ->
  exists c g2,
    Game.get_auction_card g = (Some c, g2) /\
    Round.diamond_card rr = Some c /\
    Round.carry_forward rr = true /\ Round.winner rr = None /\
    Game.carry_forward_diamonds g' = Game.carry_forward_diamonds g2 ++ [c] /\
    map Player.won_cards (Game.players g') = map Player.won_cards (Game.players g) /\
    Ledger.take_auction_cards (S (length (Game.carry_forward_diamonds g2))) g'
    = (map Some (Game.carry_forward_diamonds g2) ++ [Some c],
       Game.with_carry_forward_diamonds [] g') /\
    Game.deck g' = Game.deck g2.
Proof.
  intros Hplay Hres Hkind.
  destruct (carried_round make_bid g g' rr r Hplay Hres Hkind)
    as (c & g2 & Hget & Hd & Hcf & Hw & Hq & Hdeck & Hwon).
  exists c, g2. repeat split; try assumption.
  replace (S (length (Game.carry_forward_diamonds g2)))
    with (length (Game.carry_forward_diamonds g2 ++ [c]))
    by (rewrite length_app; simpl; lia).
  rewrite (take_queue_in_order _ g' Hq), map_app. reflexivity.
Qed.

Lemma carried_card_comes_back_witness :
  let make_bid := Sample.typed Sample.both_kings in
  let g := Sample.opening "carry_forward" in
  exists rr g' r c g2,
    Game.play_round make_bid g = Ok (Game.round rr, g') /\
    Round.result rr = Some r /\
    Resolved.result_type r = Resolved.of_enum Resolved.TIE_CARRY_FORWARD /\
    Game.get_auction_card g = (Some c, g2) /\
    Game.carry_forward_diamonds g' = Game.carry_forward_diamonds g2 ++ [c].
Proof.
  intros make_bid g.
  eexists. eexists. eexists.
  assert (H1 : Game.play_round make_bid g = Ok (Game.round _, _))
    by (vm_compute; reflexivity).
  destruct (carried_card_comes_back make_bid g _ _ _ H1 eq_refl eq_refl)
    as (c & g2 & Hget & _ & _ & _ & Hq & _).
  exists c, g2. split; [exact H1|]. split; [reflexivity|]. split; [reflexivity|].
  split; [exact Hget | exact Hq].
Defined.

(** X23.  The scores after a round played to its end: the winner of a
    round gains the value of the revealed card; on a split tie every tied
    participant gains the whole value of the card, not a share of it; in
    every other case, and for every other participant, the score is the
    score before. *)
Theorem round_changes_scores
    (make_bid : nat -> Player.t -> option Card.t -> Game.bid_state -> option Card.t)
    (g g' : Game.t) (rr : Round.t) (r : Resolved.t) :
  Game.play_round make_bid g = Ok (Game.round rr, g') ->
  Round.result rr = Some r ->
  exists c,
    Round.diamond_card rr = Some c /\
    forall i p,
      nth_error (Game.players g) i = Some p ->
      exists p',
        nth_error (Game.players g') i = Some p' /\
        Player.get_score p'
        = Player.get_score p
          + (if match Resolved.result_type r with
                | Resolved.of_enum Resolved.WINNER_DETERMINED =>
                    match Resolved.winner r with
                    | Some w => Nat.eqb i w
                    | None => false
                    end
                | Resolved.of_enum Resolved.TIE_SPLIT =>
                    match Resolved.tied_players r with
                    | Some tied => existsb (Nat.eqb i) tied
                    | None => false
                    end
                | _ => false
                end
             then Card.value c else 0).
Proof.
  apply round_scores.
Qed.

Lemma round_changes_scores_witness :
  let make_bid := Sample.typed Sample.both_kings in
  let g := Sample.opening "split" in
  exists rr g' r c,
    Game.play_round make_bid g = Ok (Game.round rr, g') /\
    Round.result rr = Some r /\
    Round.diamond_card rr = Some c /\
    Card.value c = 14 /\
    Resolved.tied_players r = Some [0%nat; 1%nat] /\
    exists p', nth_error (Game.players g') 1 = Some p' /\ Player.get_score p' = 0 + 14.
Proof.
  intros make_bid g.
  eexists. eexists. eexists.
  assert (H1 : Game.play_round make_bid g = Ok (Game.round _, _))
    by (vm_compute; reflexivity).
  destruct (round_changes_scores make_bid g _ _ _ H1 eq_refl) as (c & Hc & Hscores).
  exists c. split; [exact H1|]. split; [reflexivity|]. split; [exact Hc|].
  simpl in Hc. injection Hc as <-.
  split; [reflexivity|]. split; [reflexivity|].
  exact (Hscores 1%nat (Sample.dealt "Human 2" Card.CLUBS) eq_refl).
Defined.

(** X24.  The books of a round.  A round other than the error answer adds
    one to the round counter, also the round that ends the game; it never
    changes the suits, the round limit or the tie handling.  The round that
    ends the game touches neither players, auction nor history; a round
    played to its end appends its dictionary to the history and leaves the
    auction with the revealed card and an empty bid map.  So the history
    holds rounds played to their end only, never more than the round
    counter says. *)
Theorem round_keeps_books
    (make_bid : nat -> Player.t -> option Card.t -> Game.bid_state -> option Card.t)
    (g : Game.t) :
  exists res g',
    Game.play_round make_bid g = Ok (res, g') /\
    match res with
    | Game.error _ => Game.game_over g = true /\ g' = g
    | Game.round rr =>
        Game.game_over g = false /\
        Game.round_number g' = S (Game.round_number g) /\
        Round.round_number rr = S (Game.round_number g) /\
        Game.game_over g' = Round.game_over rr /\
        Game.auction_suits g' = Game.auction_suits g /\
        Game.max_rounds g' = Game.max_rounds g /\
        Game.tie_handling g' = Game.tie_handling g /\
        Auction.tie_handling_method (Game.auction g')
        = Auction.tie_handling_method (Game.auction g) /\
        (if Round.game_over rr
         then Round.result rr = None /\
              Game.game_history g' = Game.game_history g /\
              Game.auction g' = Game.auction g /\
              Game.players g' = Game.players g
         else Round.result rr <> None /\ Round.diamond_card rr <> None /\
              Game.game_history g' = Game.game_history g ++ [rr] /\
              Auction.bids (Game.auction g') = [] /\
              Auction.current_diamond (Game.auction g') = Round.diamond_card rr)
    end
    /\ (Books.history_ok g -> Books.history_ok g').
Proof.
  destruct (round_keeps_history make_bid g) as (res & g' & Hplay & Hbooks).
  exists res, g'. split; [exact Hplay|]. split; [exact Hbooks|].
  unfold Books.history_ok. intros [Hlen Hall].
  destruct res as [msg|rr].
  - destruct Hbooks as [_ ->]. split; assumption.
  - destruct Hbooks as (_ & Hn & Hrn & _ & _ & _ & _ & _ & Hrest).
    rewrite Hn. destruct (Round.game_over rr) eqn:Hgo.
    + destruct Hrest as (_ & -> & _). split; [lia|].
      eapply Forall_impl; [|exact Hall]. simpl. intros a (H1 & H2 & H3). repeat split; try tauto; lia.
    + destruct Hrest as (Hres & Hd & -> & _). rewrite length_app. simpl. split; [lia|].
      apply Forall_app. split.
      * eapply Forall_impl; [|exact Hall]. simpl. intros a (H1 & H2 & H3).
        repeat split; try tauto; lia.
      * constructor; [|constructor]. rewrite Hrn. repeat split; try assumption; lia.
Qed.

Lemma deal_to_takes_wrong_card_witness :
  let five_d := Card.make Card.DIAMONDS Card.FIVE in
  let five_h := Card.make Card.HEARTS Card.FIVE in
  let p := Player.make "Human 1" Card.HEARTS [] [] in
  let d := Deck.make [five_d; five_h] in
  NoDup (Deck.cards d) /\
  In five_h (Player.hand (fst (GameFlow.deal_to p d)))
  /\ In five_h (Deck.cards (snd (GameFlow.deal_to p d)))
  /\ ~ In five_d (Deck.cards (snd (GameFlow.deal_to p d))).
Proof.
  intros five_d five_h p d.
  assert (Hnd : NoDup (Deck.cards d)).
  { simpl. constructor; [intros [H|[]]; discriminate H|].
    constructor; [intros []|constructor]. }
  split; [exact Hnd|].
  apply (deal_to_takes_wrong_card p d [] [five_h] five_d five_h Hnd).
  - reflexivity.
  - intros y [].
  - reflexivity.
  - simpl. discriminate.
  - left. reflexivity.
  - reflexivity.
Defined.

(** ** Setting the game up *)

Lemma Permutation_filter_cards (f : Card.t -> bool) (l l' : list Card.t) :
  Permutation l l' -> Permutation (filter f l) (filter f l').
Proof.
  induction 1 as [|x l l' _ IH|x y l|l l' l'' _ IH1 _ IH2]; simpl.
  - constructor.
  - destruct (f x); [constructor|]; exact IH.
  - destruct (f x), (f y); try reflexivity. apply perm_swap.
  - etransitivity; eassumption.
Qed.

Lemma list_remove_sub (c x : Card.t) (l : list Card.t) :
  In x (snd (list_remove c l)) -> In x l.
Proof.
  destruct (list_remove_cases c l) as [(pre & c' & post & Hl & _ & _ & Hr)|[_ Hr]];
    rewrite Hr; simpl; [|tauto].
  rewrite Hl. intros H. apply in_app_or in H. apply in_or_app.
  destruct H; [left | right; right]; assumption.
Qed.

Lemma removals_sub (cs l : list Card.t) (x : Card.t) :
  In x (fold_left (fun l c => snd (list_remove c l)) cs l) -> In x l.
Proof.
  revert l. induction cs as [|c cs IH]; intros l; simpl; [tauto|].
  intros H. apply IH in H. eapply list_remove_sub. exact H.
Qed.

Lemma deal_to_deck_sub (p : Player.t) (d : Deck.t) (x : Card.t) :
  In x (Deck.cards (snd (GameFlow.deal_to p d))) -> In x (Deck.cards d).
Proof.
  unfold GameFlow.deal_to. simpl snd. rewrite deck_removals. apply removals_sub.
Qed.

Lemma deal_cards_result (ps : list Player.t) (d : Deck.t) :
  length (fst (GameFlow.deal_cards_to_players ps d)) = length ps /\
  (Deck.size (snd (GameFlow.deal_cards_to_players ps d)) <= Deck.size d)%nat /\
  (forall x, In x (Deck.cards (snd (GameFlow.deal_cards_to_players ps d))) ->
             In x (Deck.cards d)) /\
  forall i p,
    nth_error ps i = Some p ->
    exists p' dealt,
      nth_error (fst (GameFlow.deal_cards_to_players ps d)) i = Some p' /\
      p' = Player.make (Player.name p) (Player.suit p) (Player.hand p ++ dealt)
                       (Player.won_cards p) /\
      (forall c, In c dealt -> Card.suit c = Player.suit p /\ In c (Deck.cards d)) /\
      (i = O ->
       dealt = DeckOps.get_cards_by_suit (Player.suit p) d /\
       (Deck.size (snd (GameFlow.deal_cards_to_players ps d)) + length dealt
        <= Deck.size d)%nat).
Proof.
  revert d. induction ps as [|q ps IH]; intros d.
  - simpl. split; [reflexivity|]. split; [lia|]. split; [tauto|].
    intros i p Hp. destruct i; discriminate Hp.
  - assert (E : GameFlow.deal_cards_to_players (q :: ps) d
                = let '(q', d') := GameFlow.deal_to q d in
                  let '(rest', d'') := GameFlow.deal_cards_to_players ps d' in
                  (q' :: rest', d'')) by reflexivity.
    rewrite E. clear E.
    destruct (GameFlow.deal_to q d) as [q' d'] eqn:Hq.
    destruct (GameFlow.deal_cards_to_players ps d') as [ps' d''] eqn:Hps.
    destruct (IH d') as (Hlen & Hsize & Hsub & Hnth). rewrite Hps in Hlen, Hsize, Hsub, Hnth.
    simpl in Hlen, Hsize, Hsub, Hnth.
    destruct (deal_to_result q d) as (Hq' & Hqsize & _). cbv zeta in Hq', Hqsize.
    rewrite Hq in Hq', Hqsize. simpl in Hq', Hqsize.
    assert (Hdsub : forall x, In x (Deck.cards d') -> In x (Deck.cards d)).
    { intros x Hx. apply (deal_to_deck_sub q d). rewrite Hq. exact Hx. }
    simpl. split; [lia|]. split; [lia|]. split; [intros x Hx; auto|].
    intros [|i] p Hp; simpl in Hp.
    + injection Hp as <-. exists q', (DeckOps.get_cards_by_suit (Player.suit q) d).
      split; [reflexivity|]. split; [exact Hq'|]. split.
      * intros c Hc. unfold DeckOps.get_cards_by_suit in Hc. apply filter_In in Hc.
        destruct Hc as [Hin Hs]. apply suit_eqb_eq in Hs. split; assumption.
      * intros _. split; [reflexivity | lia].
    + destruct (Hnth i p Hp) as (p' & dealt & Hp' & Heq & Hdealt & _).
      exists p', dealt. split; [exact Hp'|]. split; [exact Heq|]. split.
      * intros c Hc. destruct (Hdealt c Hc) as [Hs Hin]. split; [exact Hs | auto].
      * discriminate.
Qed.

Lemma set_tie_handling_two_methods_aux (method : string) (a : Auction.t) :
  (Auction.set_tie_handling method a = None <->
   method <> "split"%string /\ method <> "carry_forward"%string)
  /\ (forall a', Auction.set_tie_handling method a = Some a' ->
                 Auction.tie_handling_method a' = method).
Proof.
  unfold Auction.set_tie_handling.
  destruct (String.eqb_spec method "split") as [Hs|Hs];
    destruct (String.eqb_spec method "carry_forward") as [Hc|Hc]; simpl.
  1-3: split; [split; [discriminate | intros [H1 H2]; congruence]|];
       intros a' [= <-]; reflexivity.
  split; [split; [intros _; split; assumption | reflexivity] | discriminate].
Qed.

Lemma standard_suit_cards (s : Card.Suit) :
  DeckOps.get_cards_by_suit s DeckOps.create_standard_deck = Sample.suit_cards s.
Proof. destruct s; reflexivity. Qed.

(** X25.  [setup_game] raises [ValueError] exactly for an unknown
    tie-handling name, after the cards are dealt.  Otherwise the game
    starts at round 0, not over, with empty queue and history and the
    auction on the chosen method.  Every player keeps name, suit and won
    cards and gets cards of the own suit only, taken from the standard
    deck, behind the cards already held; the player listed first gets all
    thirteen cards of the suit.  The auction pile holds cards of the
    auction suits only, thirty-nine at most once a player was dealt to. *)
Theorem setup_game_deals_by_suit
    (shuffle : nat -> list Card.t -> list Card.t) (g : Game.t) :
  (forall n l, Permutation (shuffle n l) l) ->
  (GameFlow.setup_game shuffle g = GameFlow.Raised GameFlow.ValueError <->
   Game.tie_handling g <> "split"%string /\
   Game.tie_handling g <> "carry_forward"%string)
  /\
  (forall e, GameFlow.setup_game shuffle g = GameFlow.Raised e -> e = GameFlow.ValueError)
  /\ GameFlow.setup_game shuffle g <> GameFlow.Running
  /\
  (forall g',
      GameFlow.setup_game shuffle g = GameFlow.Returned g' ->
      Game.round_number g' = O /\ Game.game_over g' = false /\
      Game.carry_forward_diamonds g' = [] /\ Game.game_history g' = [] /\
      Auction.tie_handling_method (Game.auction g') = Game.tie_handling g /\
      length (Game.players g') = length (Game.players g) /\
      (forall c, In c (Deck.cards (Game.deck g')) ->
                 In (Card.suit c) (Game.auction_suits g) /\
                 In c (Deck.cards DeckOps.create_standard_deck)) /\
      (forall i p,
          nth_error (Game.players g) i = Some p ->
          exists p' dealt,
            nth_error (Game.players g') i = Some p' /\
            p' = Player.make (Player.name p) (Player.suit p) (Player.hand p ++ dealt)
                             (Player.won_cards p) /\
            (forall c, In c dealt ->
                       Card.suit c = Player.suit p /\
                       In c (Deck.cards DeckOps.create_standard_deck)) /\
            (i = O -> Permutation dealt (Sample.suit_cards (Player.suit p)))) /\
      (Game.players g <> [] -> (Deck.size (Game.deck g') <= 39)%nat)).
Proof.
  intros Hshuffle.
  unfold GameFlow.setup_game.
  remember (Deck.cards DeckOps.create_standard_deck) as std eqn:Hstd.
  remember (Deck.make (shuffle 0%nat std)) as d0 eqn:Ed0.
  assert (Hd0 : Permutation (Deck.cards d0) std) by (rewrite Ed0; apply Hshuffle).
  assert (H13 : forall s, Permutation (DeckOps.get_cards_by_suit s d0)
                                      (Sample.suit_cards s)).
  { intros s. rewrite <- standard_suit_cards. unfold DeckOps.get_cards_by_suit.
    rewrite <- Hstd. apply Permutation_filter_cards. exact Hd0. }
  assert (H52 : Deck.size d0 = 52%nat).
  { unfold Deck.size. rewrite (Permutation_length Hd0), Hstd. reflexivity. }
  clear Ed0.
  destruct (deal_cards_result (Game.players g) d0) as (Hlen & Hsize & Hsub & Hnth).
  destruct (GameFlow.deal_cards_to_players (Game.players g) d0) as [ps d] eqn:Hdeal.
  cbn [fst snd] in Hlen, Hsize, Hsub, Hnth.
  pose proof (set_tie_handling_two_methods_aux (Game.tie_handling g) (Game.auction g))
    as [Hnone Hsome].
  destruct (Auction.set_tie_handling (Game.tie_handling g) (Game.auction g)) as [a|] eqn:Ha.
  - split; [split; [discriminate | intros H; apply Hnone in H; discriminate H]|].
    split; [discriminate|]. split; [discriminate|].
    intros g' [= <-]. cbn [Game.round_number Game.game_over Game.carry_forward_diamonds
                           Game.game_history Game.auction Game.players Game.deck].
    split; [reflexivity|]. split; [reflexivity|]. split; [reflexivity|].
    split; [reflexivity|]. split; [exact (Hsome a eq_refl)|]. split; [exact Hlen|].
    assert (Hpile : forall c,
      In c (Deck.cards (GameFlow.setup_auction_deck shuffle (Game.auction_suits g) d)) ->
      In c (filter (fun card => existsb (DeckOps.suit_eqb (Card.suit card))
                                        (Game.auction_suits g)) (Deck.cards d))).
    { intros c Hc. apply (Permutation_in _ (Hshuffle 1%nat _)). exact Hc. }
    split; [|split].
    + intros c Hc. apply Hpile in Hc.
      apply filter_In in Hc. destruct Hc as [Hin Hs]. split.
      * apply existsb_exists in Hs. destruct Hs as (s & Hs & Heq).
        apply suit_eqb_eq in Heq. rewrite Heq. exact Hs.
      * apply (Permutation_in _ Hd0). apply Hsub. exact Hin.
    + intros i p Hp. destruct (Hnth i p Hp) as (p' & dealt & Hp' & Heq & Hdealt & Hfirst).
      exists p', dealt. split; [exact Hp'|]. split; [exact Heq|]. split.
      * intros c Hc. destruct (Hdealt c Hc) as [Hs Hin]. split; [exact Hs|].
        apply (Permutation_in _ Hd0). exact Hin.
      * intros Hi. destruct (Hfirst Hi) as [-> _]. apply H13.
    + intros Hne.
      destruct (Game.players g) as [|q qs] eqn:Hps; [congruence|].
      destruct (Hnth O q eq_refl) as (p' & dealt & _ & _ & _ & Hfirst).
      destruct (Hfirst eq_refl) as [-> Hbound].
      rewrite (Permutation_length (H13 (Player.suit q))) in Hbound.
      assert (H13' : length (Sample.suit_cards (Player.suit q)) = 13%nat)
        by (destruct (Player.suit q); reflexivity).
      assert (Hfl : (Deck.size (GameFlow.setup_auction_deck shuffle
                                  (Game.auction_suits g) d) <= Deck.size d)%nat).
      { unfold GameFlow.setup_auction_deck, Deck.size. cbn [Deck.cards].
        rewrite (Permutation_length (Hshuffle 1%nat _)).
        unfold DeckOps.filter_by_suits. cbn [Deck.cards].
        generalize (Deck.cards d). intros l. induction l as [|x l IH]; simpl; [lia|].
        destruct (existsb _ _); simpl; lia. }
      lia.
  - split; [split; [intros _; apply Hnone; reflexivity | reflexivity]|].
    split; [intros e [= <-]; reflexivity|]. split; [discriminate|].
    intros g' H. discriminate H.
Qed.

Lemma setup_game_deals_by_suit_witness :
  let shuffle := fun (_ : nat) (l : list Card.t) => l in
  let g := Game.init [Player.make "Human 1" Card.HEARTS [] [];
                      Player.make "Machine 2" Card.CLUBS [] []] [Card.DIAMONDS] in
  (forall n l, Permutation (shuffle n l) l) /\
  GameFlow.setup_game shuffle g <> GameFlow.Running.
Proof.
  intros shuffle g.
  assert (H : forall n l, Permutation (shuffle n l) l) by (intros n l; reflexivity).
  split; [exact H|].
  exact (proj1 (proj2 (proj2 (setup_game_deals_by_suit shuffle g H)))).
Defined.

(** ** A game that does not end *)

Section Stubborn.

(** The card every strategy answers with. *)
Variable k : Card.t.

Let stubborn : nat -> Player.t -> option Card.t -> Game.bid_state -> option Card.t :=
  fun _ _ _ _ => Some k.

Lemma answers_stubborn (i : nat) (todo : list Player.t) (d : option Card.t)
    (st : Game.bid_state) :
  length (Ledger.answers_from stubborn i todo d st)
  = length (filter Player.has_cards todo)
  /\ forall pc, In pc (Ledger.answers_from stubborn i todo d st) -> snd pc = k.
Proof.
  revert i. induction todo as [|p todo IH]; intros i; simpl.
  - split; [reflexivity | intros pc []].
  - destruct (IH (S i)) as [Hlen Hall].
    destruct (Player.has_cards p); simpl.
    + split; [rewrite Hlen; reflexivity|]. intros pc [<-|Hpc]; [reflexivity | auto].
    + split; assumption.
Qed.

Lemma remove_absent_bids (b : list (nat * Card.t)) (ps : list Player.t) :
  (forall pc, In pc b -> snd pc = k) ->
  (forall p x, In p ps -> In x (Player.hand p) -> Card.rank x <> Card.rank k) ->
  Game.remove_bid_cards b ps = ps.
Proof.
  intros Hb Hps. induction b as [|[j c] b IH]; simpl; [reflexivity|].
  assert (c = k) as -> by (apply (Hb (j, c)); left; reflexivity).
  assert (Hsame : modify j (fun p => snd (Player.remove_card k p)) ps = ps).
  { clear IH Hb. revert j. induction ps as [|p ps IHp]; intros [|j]; simpl;
      try reflexivity.
    - unfold Player.remove_card.
      rewrite list_remove_absent; [destruct p; reflexivity|].
      intros x Hx. apply (Hps p x); [left; reflexivity | exact Hx].
    - rewrite IHp; [reflexivity|]. intros q x Hq. apply Hps. right. exact Hq. }
  rewrite Hsame. apply IH. intros pc Hpc. apply Hb. right. exact Hpc.
Qed.

Lemma stubborn_round (g : Game.t) :
  Game.game_over g = false ->
  Auction.tie_handling_method (Game.auction g) <> "split"%string ->
  (forall p x, In p (Game.players g) -> In x (Player.hand p) ->
               Card.rank x <> Card.rank k) ->
  (2 <= length (filter Player.has_cards (Game.players g)))%nat ->
  Ledger.in_supply g <> [] ->
  exists rr g',
    Game.play_round stubborn g = Ok (Game.round rr, g') /\
    GameFlow.display_round_results rr = GameFlow.Returned tt /\
    Round.game_over rr = false /\ Round.carry_forward rr = true /\
    Game.game_over g' = false /\
    Auction.tie_handling_method (Game.auction g')
    = Auction.tie_handling_method (Game.auction g) /\
    Game.players g' = Game.players g /\
    length (Ledger.in_supply g') = length (Ledger.in_supply g).
Proof.
  intros Hover Hmethod Hranks Htwo Hsupply.
  assert (Hend : Game.should_end_game g = false).
  { unfold Game.should_end_game.
    destruct (forallb _ (Game.players g)) eqn:E; [|reflexivity].
    rewrite forallb_forall in E.
    destruct (filter Player.has_cards (Game.players g)) as [|p l] eqn:F;
      [simpl in Htwo; lia|].
    assert (Hp : In p (filter Player.has_cards (Game.players g)))
      by (rewrite F; left; reflexivity).
    apply filter_In in Hp. destruct Hp as [Hin Hc].
    specialize (E p Hin). rewrite Hc in E. discriminate E. }
  destruct (Game.get_auction_card g) as [[c|] g2] eqn:Hget.
  2:{ exfalso. apply Hsupply.
      assert (Hnone : fst (Game.get_auction_card g) = None) by (rewrite Hget; reflexivity).
      apply get_auction_card_none in Hnone. destruct Hnone as [Hq Hd].
      unfold Ledger.in_supply. rewrite Hq, Hd. reflexivity. }
  destruct (play_round_played stubborn g g2 c Hover Hend Hget)
    as (r & ps & Hr & Hps & Hd & _ & _ & _ & Hplay).
  cbv zeta in Hplay.
  set (b := Ledger.answers_from stubborn 0 (Game.players g) (Some c) _) in *.
  destruct (answers_stubborn 0 (Game.players g) (Some c)
              (Game.make_bid_state (S (Game.round_number g)) (Game.players g)
                 (Game.game_history g))) as [Hblen Hball].
  fold b in Hblen, Hball.
  set (a := Auction.make (Some c) b (Auction.tie_handling_method (Game.auction g))
                         (S (Game.round_number g))) in *.
  assert (Hlen : (2 <= length (Auction.bids a))%nat) by (simpl; lia).
  destruct (determine_winner_cases a Hlen) as (first & Hin & _ & Hcases).
  cbv zeta in Hcases.
  assert (Hall : filter (fun pc => Card.get_numeric_value (snd pc)
                                   =? Card.get_numeric_value (snd first))
                        (Auction.bids a) = Auction.bids a).
  { rewrite (Hball first Hin). simpl Auction.bids.
    clear -Hball. induction b as [|pc b IH]; simpl; [reflexivity|].
    rewrite (Hball pc (or_introl eq_refl)), Z.eqb_refl, IH; [reflexivity|].
    intros x Hx. apply Hball. right. exact Hx. }
  rewrite Hall in Hcases.
  destruct Hcases as [[Hone _]|[_ Hdw]].
  { apply (f_equal (@length nat)) in Hone. rewrite length_map in Hone.
    simpl in Hone. lia. }
  replace (String.eqb (Auction.tie_handling_method a) "split") with false in Hdw
    by (symmetry; apply String.eqb_neq; exact Hmethod).
  assert (Hr' : Resolved.result_type r = Resolved.of_enum Resolved.TIE_CARRY_FORWARD /\
                Resolved.winner r = None /\ Resolved.carry_forward r = true).
  { revert Hr. unfold Auction.resolve_auction. rewrite Hdw.
    destruct (Auction.bids a); intros [= <-]; [simpl in Hlen; lia|]. repeat split. }
  destruct Hr' as (Ht & Hw & Hc).
  assert (ps = Game.players g) as ->.
  { revert Hps. unfold Game.process_auction_results. rewrite Ht. simpl. congruence. }
  rewrite (remove_absent_bids b (Game.players g) Hball Hranks) in Hplay.
  rewrite Hc, Hw in Hplay.
  eexists. eexists. split; [exact Hplay|].
  split.
  { unfold GameFlow.display_round_results. simpl. rewrite Ht. reflexivity. }
  simpl. repeat split.
  pose proof (Permutation_length (get_auction_card_supply g g2 c Hget)) as Hs.
  unfold Ledger.in_supply in *. simpl in Hs |- *. rewrite !length_app in *. simpl. lia.
Qed.

Lemma stubborn_rounds (fuel : nat) (g : Game.t) :
  Game.game_over g = false ->
  Auction.tie_handling_method (Game.auction g) <> "split"%string ->
  (forall p x, In p (Game.players g) -> In x (Player.hand p) ->
               Card.rank x <> Card.rank k) ->
  (2 <= length (filter Player.has_cards (Game.players g)))%nat ->
  Ledger.in_supply g <> [] ->
  GameFlow.play_rounds stubborn fuel g = GameFlow.Running.
Proof.
  revert g. induction fuel as [|n IH]; intros g Hover Hmethod Hranks Htwo Hsupply;
    [reflexivity|].
  destruct (stubborn_round g Hover Hmethod Hranks Htwo Hsupply)
    as (rr & g' & Hplay & Hdisp & Hgo & _ & Hover' & Hm & Hp & Hs).
  simpl. rewrite Hover, Hplay, Hdisp, Hgo.
  apply IH; [exact Hover'| | | |].
  - rewrite Hm. exact Hmethod.
  - rewrite Hp. exact Hranks.
  - rewrite Hp. exact Htwo.
  - intros E. apply Hsupply. apply length_zero_iff_nil.
    rewrite <- Hs, E. reflexivity.
Qed.

End Stubborn.

(** X26.  Without the contract the game need not end.  Under carry-forward
    handling, when two players or more hold cards, the supply is not empty
    and every strategy answers with one card whose rank is in no hand,
    every round is a tie: the revealed card goes back to the queue, no hand
    changes, and the loop of [play_full_game] runs without end. *)
Theorem stubborn_bids_never_end (k : Card.t) (g : Game.t) (fuel : nat) :
  Game.game_over g = false ->
  Auction.tie_handling_method (Game.auction g) <> "split"%string ->
  (forall p x, In p (Game.players g) -> In x (Player.hand p) ->
               Card.rank x <> Card.rank k) ->
  (2 <= length (filter Player.has_cards (Game.players g)))%nat ->
  Ledger.in_supply g <> [] ->
  GameFlow.play_rounds (fun _ _ _ _ => Some k) fuel g = GameFlow.Running.
Proof.
  intros. apply (stubborn_rounds k fuel g); assumption.
Qed.

Lemma stubborn_bids_never_end_witness :
  let k := Card.make Card.SPADES Card.KING in
  let g := Game.make
             [Player.make "Human 1" Card.HEARTS [Card.make Card.HEARTS Card.TWO] [];
              Player.make "Human 2" Card.CLUBS [Card.make Card.CLUBS Card.NINE] []]
             [Card.DIAMONDS] (Deck.make [Card.make Card.DIAMONDS Card.SIX])
             (Auction.make None [] "carry_forward" 0) 0 13 false [] "carry_forward" [] in
  Game.game_over g = false /\
  GameFlow.play_rounds (fun _ _ _ _ => Some k) 1000 g = GameFlow.Running.
Proof.
  intros k g.
  assert (H : Game.game_over g = false) by reflexivity.
  split; [exact H|].
  apply (stubborn_bids_never_end k g 1000 H).
  - discriminate.
  - intros p x [<-|[<-|[]]] [<-|[]]; simpl; discriminate.
  - simpl. lia.
  - discriminate.
Defined.

(** ** The middle bid *)

Lemma sorted_split_bounds (pre post : list Card.t) (c : Card.t) :
  StronglySorted (fun a b => Card.value a <= Card.value b) (pre ++ c :: post) ->
  (forall y, In y pre -> Card.value y <= Card.value c) /\
  (forall y, In y post -> Card.value c <= Card.value y).
Proof.
  induction pre as [|x pre IH]; simpl; intros Hs.
  - inversion Hs as [|? ? _ Hall]; subst. rewrite Forall_forall in Hall.
    split; [intros y [] | exact Hall].
  - inversion Hs as [|? ? Hs' Hall]; subst. rewrite Forall_forall in Hall.
    destruct (IH Hs') as [Hpre Hpost]. split; [|exact Hpost].
    intros y [<-|Hy]; [|apply Hpre; exact Hy].
    apply Hall. apply in_elt.
Qed.

Lemma middle_of_sorted (s : list Card.t) (m : nat) (c : Card.t) :
  StronglySorted (fun a b => Card.value a <= Card.value b) s ->
  nth_error s m = Some c ->
  (length (filter (fun y => (Card.value y <? Card.value c)%Z) s) <= m)%nat /\
  (length (filter (fun y => (Card.value c <? Card.value y)%Z) s) <= length s - 1 - m)%nat.
Proof.
  intros Hs Hm.
  destruct (nth_error_split s m Hm) as (pre & post & -> & Hlen).
  destruct (sorted_split_bounds pre post c Hs) as [Hpre Hpost].
  rewrite !filter_app, !length_app. simpl. rewrite Z.ltb_irrefl. simpl.
  assert (Hlow : filter (fun y => (Card.value y <? Card.value c)%Z) post = []).
  { apply filter_none. intros z Hz. apply Z.ltb_ge. apply Hpost. exact Hz. }
  assert (Hhigh : filter (fun y => (Card.value c <? Card.value y)%Z) pre = []).
  { apply filter_none. intros z Hz. apply Z.ltb_ge. apply Hpre. exact Hz. }
  rewrite Hlow, Hhigh. simpl.
  pose proof (filter_length_le (fun y => (Card.value y <? Card.value c)%Z) pre).
  pose proof (filter_length_le (fun y => (Card.value c <? Card.value y)%Z) post).
  lia.
Qed.

(** X27.  For an auction card of value seven to ten the smart strategy
    bids a middle card of the hand, the upper one of the two when the hand
    is even: at most half of the cards of the hand are lower than the bid
    and fewer than half are higher. *)
Theorem smart_bids_the_middle
    (randbelow : nat -> nat) (above_average : Z -> list Z -> bool)
    (self : Player.t) (card : Card.t) (st : Game.bid_state) :
  Player.hand self <> [] ->
  7 <= Card.value card <= 10 ->
  exists c,
    ComputerPlayer.make_bid randbelow above_average "smart" self card st
    = inr (Some c) /\
    In c (Player.hand self) /\
    (length (filter (fun y => (Card.value y <? Card.value c)%Z) (Player.hand self))
     <= length (Player.hand self) / 2)%nat /\
    (length (filter (fun y => (Card.value c <? Card.value y)%Z) (Player.hand self))
     <= length (Player.hand self) - 1 - length (Player.hand self) / 2)%nat.
Proof.
  intros Hne Hv. unfold ComputerPlayer.make_bid.
  destruct (strategy_func_named randbelow above_average) as (_ & _ & -> & _).
  unfold ComputerPlayer.smart_bid, Card.get_numeric_value.
  replace (11 <=? Card.value card) with false by (symmetry; apply Z.leb_gt; lia).
  replace (7 <=? Card.value card) with true by (symmetry; apply Z.leb_le; lia).
  pose proof (sorted_cards_perm (Player.hand self)) as Hp.
  pose proof (sorted_cards_rising (Player.hand self)) as Hs.
  pose proof (Permutation_length Hp) as Hl.
  destruct (item_in (DeckOps.sorted (Player.hand self))
              (length (DeckOps.sorted (Player.hand self)) / 2)) as (c & Hc & Hin).
  { apply Nat.div_lt; [|lia]. rewrite Hl.
    destruct (Player.hand self); [congruence | simpl; lia]. }
  rewrite Hc. destruct (Player.hand self) as [|x l] eqn:Hh; [congruence|].
  exists c. split; [reflexivity|].
  split; [eapply Permutation_in; eassumption|].
  assert (Hnth : nth_error (DeckOps.sorted (x :: l))
                   (length (DeckOps.sorted (x :: l)) / 2) = Some c).
  { revert Hc. unfold ComputerPlayer.item.
    destruct (nth_error _ _); [intros [= ->]; reflexivity | discriminate]. }
  destruct (middle_of_sorted _ _ c Hs Hnth) as [Hlow Hhigh].
  rewrite <- (Permutation_length (Permutation_filter_cards
                (fun y => (Card.value y <? Card.value c)%Z) _ _ Hp)).
  rewrite <- (Permutation_length (Permutation_filter_cards
                (fun y => (Card.value c <? Card.value y)%Z) _ _ Hp)).
  rewrite <- Hl. split; assumption.
Qed.

Lemma smart_bids_the_middle_witness :
  let randbelow := fun n : nat => O in
  let above_average := fun (v : Z) (values : list Z) => false in
  let self := Sample.dealt "Machine 2" Card.CLUBS in
  let card := Card.make Card.DIAMONDS Card.NINE in
  let st := Game.make_bid_state 1 [self] [] in
  Player.hand self <> [] /\ 7 <= Card.value card <= 10 /\
  exists c,
    ComputerPlayer.make_bid randbelow above_average "smart" self card st
    = inr (Some c) /\
    In c (Player.hand self) /\
    (length (filter (fun y => (Card.value y <? Card.value c)%Z) (Player.hand self))
     <= length (Player.hand self) / 2)%nat /\
    (length (filter (fun y => (Card.value c <? Card.value y)%Z) (Player.hand self))
     <= length (Player.hand self) - 1 - length (Player.hand self) / 2)%nat.
Proof.
  intros randbelow above_average self card st.
  assert (H1 : Player.hand self <> []) by discriminate.
  assert (H2 : 7 <= Card.value card <= 10) by (unfold card, Card.value; simpl; lia).
  split; [exact H1|]. split; [exact H2|].
  exact (smart_bids_the_middle randbelow above_average self card st H1 H2).
Defined.

(** ** The console game *)

Lemma get_human_bid_skips (player : Player.t) (card : Card.t)
    (skipped rest : Main.console) :
  (forall z, In (Some z) skipped ->
             ~ (1 <= z <= Z.of_nat (length (Player.hand player)))) ->
  Main.get_human_bid player card (skipped ++ rest)
  = Main.get_human_bid player card rest.
Proof.
  intros H. induction skipped as [|[z|] skipped IH]; simpl; [reflexivity| |].
  - assert (Hz : ~ (1 <= z <= Z.of_nat (length (Player.hand player))))
      by (apply H; left; reflexivity).
    replace ((1 <=? z) && (z <=? Z.of_nat (length (Player.hand player)))) with false.
    + apply IH. intros z' Hz'. apply H. right. exact Hz'.
    + symmetry. apply andb_false_iff.
      destruct (Z.leb_spec 1 z); [right; apply Z.leb_gt; lia | left; reflexivity].
  - apply IH. intros z' Hz'. apply H. right. exact Hz'.
Qed.

Lemma get_human_bid_valid (player : Player.t) (card : Card.t) (z : Z)
    (rest : Main.console) :
  1 <= z <= Z.of_nat (length (Player.hand player)) ->
  exists c,
    nth_error (Player.hand player) (Z.to_nat (z - 1)) = Some c /\
    Main.get_human_bid player card (Some z :: rest) = Main.Returned (c, rest).
Proof.
  intros Hz. simpl.
  replace ((1 <=? z) && (z <=? Z.of_nat (length (Player.hand player)))) with true
    by (symmetry; apply andb_true_iff; split; apply Z.leb_le; lia).
  destruct (nth_error (Player.hand player) (Z.to_nat (z - 1))) as [c|] eqn:E.
  - exists c. split; reflexivity.
  - apply nth_error_None in E. lia.
Qed.

Lemma get_human_bid_in (player : Player.t) (card : Card.t) (lines rest : Main.console)
    (c : Card.t) :
  Main.get_human_bid player card lines = Main.Returned (c, rest) ->
  In c (Player.hand player).
Proof.
  induction lines as [|[z|] lines IH]; simpl; [discriminate| |exact IH].
  destruct ((1 <=? z) && (z <=? Z.of_nat (length (Player.hand player))));
    [|exact IH].
  destruct (nth_error (Player.hand player) (Z.to_nat (z - 1))) as [x|] eqn:E;
    [|discriminate].
  intros [= <- _]. eapply nth_error_In. exact E.
Qed.


Lemma get_human_bid_no_valid_line (player : Player.t) (card : Card.t)
    (lines : Main.console) :
  (forall z, In (Some z) lines ->
             ~ (1 <= z <= Z.of_nat (length (Player.hand player)))) ->
  Main.get_human_bid player card lines = Main.Raised Main.EOFError.
Proof.
  intros H. rewrite <- (app_nil_r lines).
  rewrite (get_human_bid_skips player card lines [] H). reflexivity.
Qed.

Lemma get_human_bid_no_cards (player : Player.t) (card : Card.t) (lines : Main.console) :
  Player.hand player = [] ->
  Main.get_human_bid player card lines = Main.Raised Main.EOFError.
Proof.
  intros Hh. apply get_human_bid_no_valid_line.
  intros z _. rewrite Hh. simpl. lia.
Qed.

(** X28.  [get_human_bid] reads the console up to the first line that is a
    number between 1 and the size of the hand and returns the card of the
    hand at that place; lines that are no number or out of range are
    passed over.  When no line is valid the console is read to its end and
    [EOFError] is raised; for a player without cards no line is valid, so
    the call never returns a bid. *)
Theorem human_bid_reads_console (player : Player.t) (auction_card : Card.t) :
  (forall lines,
      (forall z, In (Some z) lines ->
                 ~ (1 <= z <= Z.of_nat (length (Player.hand player)))) ->
      Main.get_human_bid player auction_card lines = Main.Raised Main.EOFError)
  /\
  (forall skipped z rest,
      (forall z', In (Some z') skipped ->
                  ~ (1 <= z' <= Z.of_nat (length (Player.hand player)))) ->
      1 <= z <= Z.of_nat (length (Player.hand player)) ->
      exists c,
        nth_error (Player.hand player) (Z.to_nat (z - 1)) = Some c /\
        PlayerOps.can_bid c player = true /\
        Main.get_human_bid player auction_card (skipped ++ Some z :: rest)
        = Main.Returned (c, rest))
  /\
  (Player.hand player = [] ->
   forall lines,
     Main.get_human_bid player auction_card lines = Main.Raised Main.EOFError).
Proof.
  split; [apply get_human_bid_no_valid_line|].
  split; [|intros Hh lines; apply get_human_bid_no_cards; exact Hh].
  intros skipped z rest Hskipped Hz.
  destruct (get_human_bid_valid player auction_card z rest Hz) as (c & Hc & Hbid).
  exists c. split; [exact Hc|]. split.
  - unfold PlayerOps.can_bid. apply existsb_exists. exists c.
    split; [eapply nth_error_In; exact Hc | unfold Card.eq; apply Z.eqb_refl].
  - rewrite (get_human_bid_skips player auction_card skipped _ Hskipped). exact Hbid.
Qed.

Lemma human_bid_reads_console_witness :
  let player := Player.make "Human 1" Card.HEARTS
                  [Card.make Card.HEARTS Card.FIVE; Card.make Card.HEARTS Card.KING] [] in
  let auction_card := Card.make Card.DIAMONDS Card.ACE in
  (forall z', In (Some z') [None; Some 5] ->
              ~ (1 <= z' <= Z.of_nat (length (Player.hand player)))) /\
  1 <= 2 <= Z.of_nat (length (Player.hand player)) /\
  exists c,
    nth_error (Player.hand player) (Z.to_nat (2 - 1)) = Some c /\
    PlayerOps.can_bid c player = true /\
    Main.get_human_bid player auction_card ([None; Some 5] ++ Some 2 :: [Some 1])
    = Main.Returned (c, [Some 1]).
Proof.
  intros player auction_card.
  assert (H1 : forall z', In (Some z') [None; Some 5] ->
                          ~ (1 <= z' <= Z.of_nat (length (Player.hand player)))).
  { intros z' [E|[E|[]]]; [discriminate E|]. injection E as <-. simpl. lia. }
  assert (H2 : 1 <= 2 <= Z.of_nat (length (Player.hand player))) by (simpl; lia).
  split; [exact H1|]. split; [exact H2|].
  exact (proj1 (proj2 (human_bid_reads_console player auction_card))
           [None; Some 5] 2 [Some 1] H1 H2).
Defined.

Lemma max_card_from (l : list Card.t) (x : Card.t) :
  ComputerPlayer.max_card l = inr x -> In x l.
Proof.
  destruct l as [|y l]; [discriminate|]. intros H.
  destruct (max_card_in (y :: l)) as (c & Hc & Hin); [discriminate|].
  rewrite Hc in H. injection H as <-. exact Hin.
Qed.

Lemma min_card_from (l : list Card.t) (x : Card.t) :
  ComputerPlayer.min_card l = inr x -> In x l.
Proof.
  destruct l as [|y l]; [discriminate|]. intros H.
  destruct (min_card_in (y :: l)) as (c & Hc & Hin); [discriminate|].
  rewrite Hc in H. injection H as <-. exact Hin.
Qed.

Lemma item_from (l : list Card.t) (i : nat) (x : Card.t) :
  ComputerPlayer.item l i = inr x -> In x l.
Proof.
  unfold ComputerPlayer.item. destruct (nth_error l i) as [c|] eqn:E; [|discriminate].
  intros [= <-]. eapply nth_error_In. exact E.
Qed.

Lemma strategy_func_from_hand (randbelow : nat -> nat)
    (above_average : Z -> list Z -> bool) (strategy : string) (self : Player.t)
    (card : Card.t) (st : Game.bid_state) (x : Card.t) :
  ComputerPlayer.strategy_func randbelow above_average strategy self card st = inr x ->
  In x (Player.hand self).
Proof.
  assert (Hrandom : ComputerPlayer.random_bid randbelow self card st = inr x ->
                    In x (Player.hand self)).
  { unfold ComputerPlayer.random_bid, ComputerPlayer.choice.
    destruct (Player.hand self) as [|y l]; [discriminate|]. apply item_from. }
  assert (Hsmart : ComputerPlayer.smart_bid self card st = inr x ->
                   In x (Player.hand self)).
  { unfold ComputerPlayer.smart_bid.
    destruct (11 <=? Card.get_numeric_value card); [apply max_card_from|].
    destruct (7 <=? Card.get_numeric_value card); [|apply min_card_from].
    intros H. apply item_from in H.
    eapply Permutation_in; [apply sorted_cards_perm | exact H]. }
  assert (Hbalanced : ComputerPlayer.balanced_bid above_average self card st = inr x ->
                      In x (Player.hand self)).
  { unfold ComputerPlayer.balanced_bid.
    destruct (map Card.get_numeric_value (Player.hand self)); [discriminate|].
    destruct (above_average _ _); [apply max_card_from | apply min_card_from]. }
  unfold ComputerPlayer.strategy_func.
  destruct (String.eqb strategy "random"); [exact Hrandom|].
  destruct (String.eqb strategy "smart"); [exact Hsmart|].
  destruct (String.eqb strategy "conservative"); [apply min_card_from|].
  destruct (String.eqb strategy "aggressive"); [apply max_card_from|].
  destruct (String.eqb strategy "balanced"); [exact Hbalanced | exact Hrandom].
Qed.

Lemma make_bid_from_hand (randbelow : nat -> nat)
    (above_average : Z -> list Z -> bool) (strategy : string) (self : Player.t)
    (card : Card.t) (st : Game.bid_state) (b : option Card.t) :
  ComputerPlayer.make_bid randbelow above_average strategy self card st = inr b ->
  match b with
  | Some x => In x (Player.hand self)
  | None => Player.hand self = []
  end.
Proof.
  unfold ComputerPlayer.make_bid.
  destruct (Player.hand self) as [|y l] eqn:E.
  - intros [= <-]. reflexivity.
  - destruct (ComputerPlayer.strategy_func randbelow above_average strategy self card st)
      as [e|c] eqn:F; [discriminate|].
    intros [= <-]. rewrite <- E. eapply strategy_func_from_hand. exact F.
Qed.

Lemma fold_modify_length {A : Type} (f : A -> A) (js : list nat) (ps : list A) :
  length (fold_left (fun l j => modify j f l) js ps) = length ps.
Proof.
  revert ps. induction js as [|j js IH]; intros ps; simpl; [reflexivity|].
  rewrite IH. apply length_modify.
Qed.

Lemma fold_modify_nth {A : Type} (f : A -> A) (js : list nat) (ps : list A) (k : nat) :
  NoDup js ->
  nth_error (fold_left (fun l j => modify j f l) js ps) k
  = option_map (fun p => if existsb (Nat.eqb k) js then f p else p) (nth_error ps k).
Proof.
  revert ps. induction js as [|j js IH]; intros ps Hnd; simpl.
  - destruct (nth_error ps k); reflexivity.
  - inversion Hnd as [|? ? Hj Hnd']; subst. rewrite (IH _ Hnd').
    destruct (Nat.eqb_spec k j) as [->|Hkj].
    + rewrite nth_error_modify_same.
      assert (Hout : existsb (Nat.eqb j) js = false).
      { destruct (existsb (Nat.eqb j) js) eqn:E; [|reflexivity].
        apply existsb_exists in E. destruct E as (x & Hx & Hjx).
        apply Nat.eqb_eq in Hjx. subst x. contradiction. }
      rewrite Hout. destruct (nth_error ps j); reflexivity.
    + rewrite nth_error_modify_other by congruence. reflexivity.
Qed.

Lemma get_bid_in_nodup (k : nat) (c : Card.t) (b : list (nat * Card.t)) :
  NoDup (map fst b) -> In (k, c) b -> Auction.get_bid k b = Some c.
Proof.
  induction b as [|[j x] b IH]; simpl; intros Hnd Hin; [contradiction|].
  inversion Hnd as [|? ? Hj Hnd']; subst.
  destruct Hin as [E|Hin].
  - injection E as -> ->. rewrite Nat.eqb_refl. reflexivity.
  - destruct (Nat.eqb_spec j k) as [->|Hjk]; [|apply IH; assumption].
    exfalso. apply Hj. apply in_map_iff. exists (k, c). split; [reflexivity | exact Hin].
Qed.

Lemma tied_member (f : nat * Card.t -> bool) (k : nat) (c : Card.t)
    (b : list (nat * Card.t)) :
  NoDup (map fst b) -> In (k, c) b ->
  existsb (Nat.eqb k) (map fst (filter f b)) = f (k, c).
Proof.
  induction b as [|[j x] b IH]; simpl; intros Hnd Hin; [contradiction|].
  inversion Hnd as [|? ? Hj Hnd']; subst.
  assert (Hout : forall i, ~ In i (map fst b) ->
                           existsb (Nat.eqb i) (map fst (filter f b)) = false).
  { intros i Hi. destruct (existsb (Nat.eqb i) (map fst (filter f b))) eqn:E;
      [|reflexivity].
    apply existsb_exists in E. destruct E as (y & Hy & Hiy).
    apply Nat.eqb_eq in Hiy. subst y. exfalso. apply Hi.
    apply in_map_iff in Hy. destruct Hy as (pc & Hpc & Hf).
    apply filter_In in Hf. apply in_map_iff. exists pc. split; [exact Hpc | apply Hf]. }
  destruct Hin as [E|Hin].
  - injection E as -> ->. destruct (f (k, c)); simpl.
    + rewrite Nat.eqb_refl. reflexivity.
    + apply Hout. exact Hj.
  - assert (Hkj : k <> j).
    { intros ->. apply Hj. apply in_map_iff. exists (j, c).
      split; [reflexivity | exact Hin]. }
    destruct (f (j, x)); simpl.
    + replace (Nat.eqb k j) with false by (symmetry; apply Nat.eqb_neq; exact Hkj).
      simpl. apply IH; assumption.
    + apply IH; assumption.
Qed.

Section MainRound.

Variable kind_of : nat -> Main.kind.
Variable randbelow : nat -> nat.
Variable above_average : Z -> list Z -> bool.

Lemma bid_of_result (i : nat) (p : Player.t) (c : Card.t) (n : nat)
    (lines lines' : Main.console) (b : option Card.t) :
  Main.bid_of kind_of randbelow above_average i p c n lines = Main.Returned (b, lines') ->
  match b with
  | Some x => In x (Player.hand p)
  | None => Player.hand p = []
  end.
Proof.
  unfold Main.bid_of. destruct (kind_of i) as [|strategy].
  - destruct (Main.get_human_bid p c lines) as [[x l]| |] eqn:E; try discriminate.
    intros [= <- _]. eapply get_human_bid_in. exact E.
  - destruct (ComputerPlayer.make_bid _ _ _ _ _ _) as [e|b'] eqn:E; [discriminate|].
    intros [= <- _]. eapply make_bid_from_hand. exact E.
Qed.



Lemma collect_cards (todo : list Player.t) (i : nat) (c : Card.t) (n : nat)
    (lines lines' : Main.console) (bids : list (nat * option Card.t))
    (cards : list (nat * Card.t)) :
  Main.collect kind_of randbelow above_average i todo c n lines
  = Main.Returned (bids, lines') ->
  Main.bid_cards bids = Some cards ->
  map fst cards = seq i (length todo) /\
  forall k p, nth_error todo k = Some p ->
    exists b, nth_error cards k = Some ((i + k)%nat, b) /\ In b (Player.hand p).
Proof.
  revert i lines bids cards.
  induction todo as [|p todo IH]; intros i lines bids cards; simpl.
  - intros [= <- _] [= <-]. split; [reflexivity|]. intros [|k] q; discriminate.
  - destruct (Main.bid_of kind_of randbelow above_average i p c n lines)
      as [[b l]| |] eqn:B; try discriminate.
    destruct (Main.collect kind_of randbelow above_average (S i) todo c n l)
      as [[bs l2]| |] eqn:C; try discriminate.
    intros [= <- <-]. simpl.
    destruct b as [x|]; [|discriminate].
    destruct (Main.bid_cards bs) as [cs|] eqn:K; [|discriminate].
    intros [= <-].
    destruct (IH (S i) l bs cs C K) as [Hk Hn].
    split; [simpl; rewrite Hk; reflexivity|].
    intros [|k] q Hq; simpl in Hq.
    + injection Hq as <-. exists x. rewrite Nat.add_0_r.
      split; [reflexivity|]. apply (bid_of_result i p c n lines l (Some x) B).
    + destruct (Hn k q Hq) as (b & Hb & Hin). exists b.
      rewrite Nat.add_succ_r. split; [exact Hb | exact Hin].
Qed.


Lemma main_round_result (players : list Player.t) (deck deck' : Deck.t) (n : nat)
    (lines lines' : Main.console) (c : Card.t) (bids : list (nat * option Card.t))
    (cards : list (nat * Card.t)) :
  players <> [] ->
  Deck.draw_card deck = (Some c, deck') ->
  Main.collect kind_of randbelow above_average 0 players c n lines
  = Main.Returned (bids, lines') ->
  Main.bid_cards bids = Some cards ->
  exists players' m,
    Main.play_round kind_of randbelow above_average players deck n lines
    = Main.Returned (Some c, players', deck', lines') /\
    length players' = length players /\
    (exists i b, In (i, b) cards /\ Card.value b = m) /\
    forall i p,
      nth_error players i = Some p ->
      exists b,
        In (i, b) cards /\ In b (Player.hand p) /\ Card.value b <= m /\
        nth_error players' i
        = Some (Player.make (Player.name p) (Player.suit p)
                  (snd (list_remove b (Player.hand p)))
                  (Player.won_cards p ++ (if Card.value b =? m then [c] else []))) /\
        S (length (snd (list_remove b (Player.hand p)))) = length (Player.hand p).
Proof.
  intros Hne Hdraw Hcol Hcards.
  destruct (collect_cards players 0 c n lines lines' bids cards Hcol Hcards)
    as [Hkeys Hnth].
  assert (Hnd : NoDup (map fst cards)) by (rewrite Hkeys; apply seq_NoDup).
  unfold Main.play_round. rewrite Hdraw, Hcol, Hcards.
  destruct (Auction.sorted_bids_of cards) as [|first rest] eqn:Hs.
  { exfalso. pose proof (sorted_bids_perm cards) as Hp. rewrite Hs in Hp.
    apply Permutation_nil in Hp. subst cards.
    destruct players as [|p ps]; [congruence|].
    destruct (Hnth O p eq_refl) as (b & Hb & _). discriminate Hb. }
  destruct (sorted_bids_head cards first rest Hs) as [Hfirst Hmax].
  cbv zeta.
  set (high := fun pc : nat * Card.t =>
                 Card.get_numeric_value (snd pc) =? Card.get_numeric_value (snd first)).
  set (tied := map fst (filter high cards)).
  set (award := Player.add_won_card c).
  assert (Htnd : NoDup tied) by (apply NoDup_map_fst_filter; exact Hnd).
  assert (Hft : In (fst first) tied).
  { apply in_map. apply filter_In. split; [exact Hfirst|]. apply Z.eqb_refl. }
  assert (Haward : exists players1,
    (if (1 <? length tied)%nat
     then fold_left (fun ps player => modify player award ps) tied players
     else modify (fst first) award players) = players1 /\
    length players1 = length players /\
    forall k, nth_error players1 k
              = option_map (fun p => if existsb (Nat.eqb k) tied then award p else p)
                           (nth_error players k)).
  { destruct (1 <? length tied)%nat eqn:Hlen.
    - eexists. split; [reflexivity|]. split; [apply fold_modify_length|].
      intros k. apply fold_modify_nth. exact Htnd.
    - apply Nat.ltb_ge in Hlen.
      assert (Hone : tied = [fst first]).
      { destruct tied as [|x [|y t]]; [destruct Hft| |simpl in Hlen; lia].
        destruct Hft as [->|[]]. reflexivity. }
      eexists. split; [reflexivity|]. split; [apply length_modify|].
      intros k. rewrite Hone.
      apply (fold_modify_nth award [fst first] players k).
      constructor; [intros [] | constructor]. }
  destruct Haward as (players1 & -> & Hlen1 & Hnth1).
  exists (Game.remove_bid_cards cards players1), (Card.value (snd first)).
  split; [reflexivity|].
  split; [rewrite remove_bid_cards_length; exact Hlen1|].
  split.
  { exists (fst first), (snd first). split; [|reflexivity].
    destruct first; exact Hfirst. }
  intros i p Hp.
  destruct (Hnth i p Hp) as (b & Hb & Hinb). simpl in Hb.
  assert (Hcard : In (i, b) cards) by (eapply nth_error_In; exact Hb).
  exists b. split; [exact Hcard|]. split; [exact Hinb|].
  split; [apply (Hmax (i, b) Hcard)|].
  split.
  - rewrite (remove_bid_cards_nth cards players1 i Hnd), Hnth1, Hp. simpl.
    rewrite (get_bid_in_nodup i b cards Hnd Hcard).
    unfold tied. rewrite (tied_member high i b cards Hnd Hcard).
    unfold high, award, Card.get_numeric_value. simpl.
    unfold Player.remove_card, Player.add_won_card.
    destruct (Card.value b =? Card.value (snd first)); simpl;
      destruct (list_remove b (Player.hand p)); simpl;
      rewrite ?app_nil_r; reflexivity.
  - apply (proj2 (list_remove_length b (Player.hand p))).
    exists b. split; [exact Hinb | reflexivity].
Qed.


End MainRound.

(** X29.  A round of the console game in which every bid is collected: the
    top card of the deck is revealed and every player bids a card of the
    own hand.  The card always goes somewhere: it is appended to the won
    cards of every player whose bid has the largest value, the whole card
    to each of them also on a tie, and to no other player; there is no
    carry-forward and a single bid wins.  Every hand loses one card, the
    first one of the rank of the bid. *)
Theorem main_round_awards_highest
    (kind_of : nat -> Main.kind) (randbelow : nat -> nat)
    (above_average : Z -> list Z -> bool)
    (players : list Player.t) (deck deck' : Deck.t) (round_num : nat)
    (lines lines' : Main.console) (c : Card.t) (bids : list (nat * option Card.t))
    (cards : list (nat * Card.t)) :
  players <> [] ->
  Deck.draw_card deck = (Some c, deck') ->
  Main.collect kind_of randbelow above_average 0 players c round_num lines
  = Main.Returned (bids, lines') ->
  Main.bid_cards bids = Some cards ->
  exists players' m,
    Main.play_round kind_of randbelow above_average players deck round_num lines
    = Main.Returned (Some c, players', deck', lines') /\
    length players' = length players /\
    (exists i b, In (i, b) cards /\ Card.value b = m) /\
    forall i p,
      nth_error players i = Some p ->
      exists b,
        In (i, b) cards /\ In b (Player.hand p) /\ Card.value b <= m /\
        nth_error players' i
        = Some (Player.make (Player.name p) (Player.suit p)
                  (snd (list_remove b (Player.hand p)))
                  (Player.won_cards p ++ (if Card.value b =? m then [c] else []))) /\
        S (length (snd (list_remove b (Player.hand p)))) = length (Player.hand p).
Proof.
  apply main_round_result.
Qed.

Lemma main_round_awards_highest_witness :
  let kind_of := fun i : nat => match i with
                                | O => Main.Human
                                | _ => Main.Computer "smart"
                                end in
  let randbelow := fun n : nat => O in
  let above_average := fun (v : Z) (values : list Z) => false in
  let players :=
    [Player.make "Human 1" Card.HEARTS
       [Card.make Card.HEARTS Card.FIVE; Card.make Card.HEARTS Card.KING] [];
     Player.make "Machine 2" Card.CLUBS
       [Card.make Card.CLUBS Card.TWO; Card.make Card.CLUBS Card.KING;
        Card.make Card.CLUBS Card.NINE] []] in
  let deck := Deck.make [Card.make Card.DIAMONDS Card.SEVEN;
                         Card.make Card.DIAMONDS Card.ACE] in
  let deck' := Deck.make [Card.make Card.DIAMONDS Card.SEVEN] in
  let c := Card.make Card.DIAMONDS Card.ACE in
  let lines := [None; Some 5; Some 2] in
  let cards := [(O, Card.make Card.HEARTS Card.KING);
                (1%nat, Card.make Card.CLUBS Card.KING)] in
  let bids := [(O, Some (Card.make Card.HEARTS Card.KING));
               (1%nat, Some (Card.make Card.CLUBS Card.KING))] in
  players <> [] /\
  Deck.draw_card deck = (Some c, deck') /\
  Main.collect kind_of randbelow above_average 0 players c 1 lines
  = Main.Returned (bids, []) /\
  Main.bid_cards bids = Some cards /\
  exists players' m,
    Main.play_round kind_of randbelow above_average players deck 1 lines
    = Main.Returned (Some c, players', deck', []) /\
    length players' = length players /\
    (exists i b, In (i, b) cards /\ Card.value b = m) /\
    forall i p,
      nth_error players i = Some p ->
      exists b,
        In (i, b) cards /\ In b (Player.hand p) /\ Card.value b <= m /\
        nth_error players' i
        = Some (Player.make (Player.name p) (Player.suit p)
                  (snd (list_remove b (Player.hand p)))
                  (Player.won_cards p ++ (if Card.value b =? m then [c] else []))) /\
        S (length (snd (list_remove b (Player.hand p)))) = length (Player.hand p).
Proof.
  intros kind_of randbelow above_average players deck deck' c lines cards bids.
  assert (H1 : players <> []) by discriminate.
  assert (H2 : Deck.draw_card deck = (Some c, deck')) by reflexivity.
  assert (H3 : Main.collect kind_of randbelow above_average 0 players c 1 lines
               = Main.Returned (bids, [])) by reflexivity.
  assert (H4 : Main.bid_cards bids = Some cards) by reflexivity.
  split; [exact H1|]. split; [exact H2|]. split; [exact H3|]. split; [exact H4|].
  exact (main_round_awards_highest kind_of randbelow above_average players deck deck'
           1 lines [] c bids cards H1 H2 H3 H4).
Defined.


